(** * RocketMAD [rocketmad/models.py]: viewport queries and despawn inference

    A shallow embedding of the query methods of [models.py]
    ([Pokemon.get_active], [Pokestop.get_pokestops], [Weather.get_weather],
    [TrsSpawn.get_spawnpoints], [ScannedLocation.get_recent]) together with
    the properties the specification states about them.

    Modelling conventions.
    - A MySQL [DOUBLE] and a Python [float] are modelled by the exact rational
      they denote ([Q]); comparisons are the rational ones, and the
      subtractions and additions of [get_weather] round their result to the
      nearest double as IEEE 754 prescribes ([Double.round]).
    - A Python argument that may be [None] is an [option]; [truthy] is the
      truth value Python gives it in an [if].
    - A naive [datetime] is a record of its calendar fields, the date being
      kept as its proleptic ordinal; a [timedelta] is a number of
      microseconds.
    - A SQL condition is three-valued ([option bool], [None] is NULL); a row
      is selected when the whole WHERE clause is true.
    - A Python [dict] with string keys is a [gmap string _].
    - The clock reads ([datetime.utcnow()], [datetime.today()],
      [time.time()]) are explicit arguments.
    - Dates are unbounded (the [OverflowError] outside the years 1..9999 is
      not modelled), numbers stay within the range of a double, and
      equality of strings in a join is exact (the collation of the columns
      is not modelled).
    - A Python [str] is kept as its UTF-8 bytes. *)

From Stdlib Require Import ZArith QArith Qabs Qround Lqa Lia List Ascii String.
From stdpp Require Import base option gmap sets list strings.

Local Open Scope Z_scope.

(** ** Python values *)

Module Py.

(** [datetime.datetime] (naive). *)
Record datetime := mk_datetime {
  ordinal : Z;       (* date.toordinal() *)
  hour : Z;
  minute : Z;
  second : Z;
  microsecond : Z
}.

Definition valid_datetime (d : datetime) : Prop :=
  0 <= hour d < 24 /\ 0 <= minute d < 60 /\ 0 <= second d < 60 /\
  0 <= microsecond d < 1000000.

(** Microseconds since the start of ordinal day 0. *)
Definition to_us (d : datetime) : Z :=
  (((ordinal d * 24 + hour d) * 60 + minute d) * 60 + second d) * 1000000
  + microsecond d.

Definition of_us (u : Z) : datetime :=
  {| ordinal := u / 86400000000;
     hour := (u / 3600000000) mod 24;
     minute := (u / 60000000) mod 60;
     second := (u / 1000000) mod 60;
     microsecond := u mod 1000000 |}.

(** [timedelta], in microseconds. *)
Definition timedelta := Z.
Definition hours (n : Z) : timedelta := n * 3600000000.
Definition minutes (n : Z) : timedelta := n * 60000000.

(** [d + td], [d - td] and [d1 - d2]. *)
Definition dt_add (d : datetime) (td : timedelta) : datetime :=
  of_us (to_us d + td).
Definition dt_sub (d : datetime) (td : timedelta) : datetime :=
  of_us (to_us d - td).
Definition dt_diff (d1 d2 : datetime) : timedelta := to_us d1 - to_us d2.

(** Comparison of datetimes. *)
Definition dt_lt (a b : datetime) : bool := to_us a <? to_us b.
Definition dt_le (a b : datetime) : bool := to_us a <=? to_us b.

(** [datetime.replace(minute=, second=, microsecond=)]; [None] stands for
    the [ValueError] raised when a field is out of range. *)
Definition replace (d : datetime) (mi se us : Z) : option datetime :=
  if (0 <=? mi) && (mi <? 60) && (0 <=? se) && (se <? 60)
     && (0 <=? us) && (us <? 1000000)
  then Some {| ordinal := ordinal d; hour := hour d;
               minute := mi; second := se; microsecond := us |}
  else None.

(** 1970-01-01 as an ordinal, and [datetime.utcfromtimestamp(ms / 1000)]
    for an integer number of milliseconds. *)
Definition epoch_ordinal : Z := 719163.
Definition utcfromtimestamp_ms (ms : Z) : datetime :=
  of_us (epoch_ordinal * 86400000000 + ms * 1000).

(** The scalar values stored in the emitted dictionaries. *)
Inductive scalar :=
| VNone
| VInt (z : Z)
| VFloat (q : Q)
| VStr (s : string)
| VDatetime (d : datetime).

Inductive value :=
| Scalar (s : scalar)
| Dict (d : gmap string scalar).

Definition opt {A} (f : A -> scalar) (o : option A) : scalar :=
  match o with Some a => f a | None => VNone end.

(** Truth value of a coordinate argument: [None] and [0] are false. *)
Definition truthy (x : option Q) : bool :=
  match x with
  | None => false
  | Some q => negb (Qeq_bool q 0)
  end.

(** Truth value of a list argument ([eids], [ids]): [None] and [[]] are
    false. *)
Definition truthy_list {A} (x : option (list A)) : bool :=
  match x with
  | None | Some [] => false
  | Some (_ :: _) => true
  end.

End Py.

(** ** Python floats *)

Module Double.

Local Open Scope Q_scope.

(** A finite double is kept as the rational it denotes.  [round] sends a
    rational to the nearest double, a tie going to the even significand:
    53 significant bits, and gradual underflow on the grid of step 2^-1074.
    Every arithmetic operation on floats returns the rounded exact result.
    Rationals beyond the largest double, where [float] raises
    [OverflowError] or gives an infinity according to the type of its
    argument, are outside the model: [round] keeps 53 bits of them too. *)

(** 2^e, for any integer [e]. *)
Definition pow2 (e : Z) : Q :=
  if (0 <=? e)%Z then inject_Z (2 ^ e) else 1 # Z.to_pos (2 ^ (- e)).

(** The binary exponent of [q <> 0]: the [k] with 2^k <= |q| < 2^(k+1).
    The difference of the bit lengths is [k] or [k + 1]. *)
Definition ilog2 (q : Q) : Z :=
  let k := (Z.log2 (Z.abs (Qnum q)) - Z.log2 (Zpos (Qden q)))%Z in
  if Qle_bool (pow2 k) (Qabs q) then k else (k - 1)%Z.

(** The nearest integer, a tie going to the even one. *)
Definition rne (x : Q) : Z :=
  let f := Qfloor x in
  match Qcompare (x - inject_Z f) (1 # 2) with
  | Lt => f
  | Gt => (f + 1)%Z
  | Eq => if Z.even f then f else (f + 1)%Z
  end.

(** The exponent of the last place of the double nearest to [q]. *)
Definition exponent (q : Q) : Z := Z.max (ilog2 q - 52) (-1074).

Definition round (q : Q) : Q :=
  if Qeq_bool q 0 then 0
  else Qred (inject_Z (rne (q / pow2 (exponent q))) * pow2 (exponent q)).

(** [float(x)] of a number, a float literal, and [a - b], [a + b] on
    floats. *)
Definition float_ (x : Q) : Q := round x.
Definition sub (a b : Q) : Q := round (a - b).
Definition add (a b : Q) : Q := round (a + b).

End Double.

(** ** SQL conditions *)

Module SQL.

Definition tri := option bool.

Definition and_ (a b : tri) : tri :=
  match a, b with
  | Some false, _ | _, Some false => Some false
  | Some true, Some true => Some true
  | _, _ => None
  end.

Definition or_ (a b : tri) : tri :=
  match a, b with
  | Some true, _ | _, Some true => Some true
  | Some false, Some false => Some false
  | _, _ => None
  end.

Definition not_ (a : tri) : tri := negb <$> a.

Definition all_ (cs : list tri) : tri := fold_right and_ (Some true) cs.

Definition holds (a : tri) : bool :=
  match a with Some true => true | _ => false end.

(** Comparisons; an operand that is NULL makes the result NULL. *)
Definition cmp {A} (f : A -> A -> bool) (a b : option A) : tri :=
  match a, b with
  | Some x, Some y => Some (f x y)
  | _, _ => None
  end.

Definition ge_q := cmp (fun x y : Q => Qle_bool y x).
Definition le_q := cmp (fun x y : Q => Qle_bool x y).
Definition gt_dt := cmp (fun x y => Py.dt_lt y x).
Definition ge_dt := cmp (fun x y => Py.dt_le y x).

(** [query.filter(c1, ..., cn)] followed (eventually) by [query.all()]:
    the rows on which the conjunction is true. *)
Definition filter {R} (cs : R -> list tri) (rows : list R) : list R :=
  List.filter (fun r => holds (all_ (cs r))) rows.

(** [a.outerjoin(b, on)]: every left row, paired with each matching right
    row, or with NULL when there is none. *)
Definition outerjoin {A B} (on : A -> B -> bool) (l : list A) (r : list B)
  : list (A * option B) :=
  flat_map (fun a =>
              match List.filter (on a) r with
              | [] => [(a, None)]
              | ms => map (fun b => (a, Some b)) ms
              end) l.

End SQL.

Import Py.

(** The geographic conditions shared by the queries: the four inclusive
    range comparisons of a stored point against a box. *)
Definition in_box (lat lng : Q) (sLat wLng nLat eLng : option Q)
  : list SQL.tri :=
  [ SQL.ge_q (Some lat) sLat; SQL.ge_q (Some lng) wLng;
    SQL.le_q (Some lat) nLat; SQL.le_q (Some lng) eLng ].

(** ** [class TrsSpawn] : columns *)

Module TrsSpawnRow.
Record row := mk {
  spawnpoint : string;
  latitude : Q;
  longitude : Q;
  spawndef : Z;
  earliest_unseen : Z;
  last_scanned : option datetime;
  first_detection : datetime;
  last_non_scanned : option datetime;
  calc_endminsec : option string;
  eventid : Z
}.
End TrsSpawnRow.

(** ** [class Pokemon] *)

Module Pokemon.

Record row := mk {
  encounter_id : Z;                      (* primary key *)
  spawnpoint_id : Z;
  pokemon_id : Z;
  latitude : Q;
  longitude : Q;
  disappear_time : datetime;
  individual_attack : option Z;
  individual_defense : option Z;
  individual_stamina : option Z;
  move_1 : option Z;
  move_2 : option Z;
  cp : option Z;
  cp_multiplier : option Q;
  weight : option Q;
  height : option Q;
  gender : option Z;
  form : option Z;
  costume : option Z;
  weather_boosted_condition : option Z;
  last_modified : option datetime
}.

(** The selected columns of one result row, as [_asdict()] returns them;
    [verified] is the joined [TrsSpawn] row when the join was asked
    for. *)
Definition asdict (verified_despawn_time : bool)
    (r : row * option TrsSpawnRow.row) : gmap string scalar :=
  let p := r.1 in
  let columns : list (string * scalar) :=
    [ ("encounter_id", VInt (encounter_id p));
      ("pokemon_id", VInt (pokemon_id p));
      ("latitude", VFloat (latitude p));
      ("longitude", VFloat (longitude p));
      ("disappear_time", VDatetime (disappear_time p));
      ("individual_attack", opt VInt (individual_attack p));
      ("individual_defense", opt VInt (individual_defense p));
      ("individual_stamina", opt VInt (individual_stamina p));
      ("move_1", opt VInt (move_1 p));
      ("move_2", opt VInt (move_2 p));
      ("cp", opt VInt (cp p));
      ("cp_multiplier", opt VFloat (cp_multiplier p));
      ("weight", opt VFloat (weight p));
      ("height", opt VFloat (height p));
      ("gender", opt VInt (gender p));
      ("form", opt VInt (form p));
      ("costume", opt VInt (costume p));
      ("weather_boosted_condition", opt VInt (weather_boosted_condition p));
      ("last_modified", opt VDatetime (last_modified p)) ]%string in
  let d : gmap string scalar := list_to_map columns in
  if verified_despawn_time
  then <["verified_disappear_time"%string :=
           opt VStr (r.2 ≫= TrsSpawnRow.calc_endminsec)]> d
  else d.

Section get_active.

(** The tables read, the value of [datetime.utcnow()], and the equality
    MySQL computes between the BIGINT [Pokemon.spawnpoint_id] and the
    VARCHAR [TrsSpawn.spawnpoint] in the join condition. *)
Variable pokemon : list row.
Variable trs_spawn : list TrsSpawnRow.row.
Variable utcnow : datetime.
Variable spawnpoint_eq : Z -> string -> bool.

(** [Pokemon.pokemon_id.notin_(eids)] / [.in_(ids)] *)
Definition kind_filter (eids ids : option (list Z)) (p : row)
  : list SQL.tri :=
  if truthy_list eids then
    [ Some (negb (bool_decide (pokemon_id p ∈ default [] eids))) ]
  else if truthy_list ids then
    [ Some (bool_decide (pokemon_id p ∈ default [] ids)) ]
  else [].

Definition mode_filter
    (swLat swLng neLat neLng oSwLat oSwLng oNeLat oNeLng : option Q)
    (timestamp : Z) (p : row) : list SQL.tri :=
  if negb (truthy swLat && truthy swLng && truthy neLat && truthy neLng)
  then
    [ SQL.gt_dt (Some (disappear_time p)) (Some utcnow) ]
  else if 0 <? timestamp then
    [ SQL.gt_dt (last_modified p) (Some (utcfromtimestamp_ms timestamp));
      SQL.gt_dt (Some (disappear_time p)) (Some utcnow) ]
    ++ in_box (latitude p) (longitude p) swLat swLng neLat neLng
  else if truthy oSwLat && truthy oSwLng && truthy oNeLat && truthy oNeLng
  then
    [ SQL.gt_dt (Some (disappear_time p)) (Some utcnow) ]
    ++ in_box (latitude p) (longitude p) swLat swLng neLat neLng
    ++ [ SQL.not_ (SQL.all_ (in_box (latitude p) (longitude p)
                                    oSwLat oSwLng oNeLat oNeLng)) ]
  else
    [ SQL.gt_dt (Some (disappear_time p)) (Some utcnow) ]
    ++ in_box (latitude p) (longitude p) swLat swLng neLat neLng.

Definition get_active
    (swLat swLng neLat neLng oSwLat oSwLng oNeLat oNeLng : option Q)
    (timestamp : Z) (eids ids : option (list Z))
    (verified_despawn_time : bool) : list (gmap string scalar) :=
  let query :=
    if verified_despawn_time then
      SQL.outerjoin
        (fun p s => spawnpoint_eq (spawnpoint_id p)
                                  (TrsSpawnRow.spawnpoint s))
        pokemon trs_spawn
    else map (fun p => (p, None)) pokemon in
  let result :=
    SQL.filter
      (fun r => kind_filter eids ids r.1
                ++ mode_filter swLat swLng neLat neLng
                               oSwLat oSwLng oNeLat oNeLng timestamp r.1)
      query in
  map (asdict verified_despawn_time) result.

End get_active.

(** The ids ([encounter_id]) of a result. *)
Definition id_of (d : gmap string scalar) : option Z :=
  match d !! "encounter_id"%string with
  | Some (VInt z) => Some z
  | _ => None
  end.

Definition ids_of (result : list (gmap string scalar)) : gset Z :=
  list_to_set (omap id_of result).

End Pokemon.

(** ** [class ScannedLocation] *)

Module ScannedLocation.

Record row := mk {
  cellid : Z;                            (* primary key *)
  latitude : Q;
  longitude : Q;
  last_modified : option datetime
}.

Definition asdict (r : row) : gmap string scalar :=
  list_to_map
    [ ("cellid", VInt (cellid r));
      ("latitude", VFloat (latitude r));
      ("longitude", VFloat (longitude r));
      ("last_modified", opt VDatetime (last_modified r)) ]%string.

Section get_recent.

Variable scannedlocation : list row.
Variable utcnow : datetime.

Definition active_time : datetime := dt_sub utcnow (minutes 15).

Definition mode_filter
    (swLat swLng neLat neLng oSwLat oSwLng oNeLat oNeLng : option Q)
    (timestamp : Z) (r : row) : list SQL.tri :=
  if negb (truthy swLat && truthy swLng && truthy neLat && truthy neLng)
  then
    [ SQL.ge_dt (last_modified r) (Some active_time) ]
  else if 0 <? timestamp then
    [ SQL.ge_dt (last_modified r) (Some (utcfromtimestamp_ms timestamp)) ]
    ++ in_box (latitude r) (longitude r) swLat swLng neLat neLng
  else if truthy oSwLat && truthy oSwLng && truthy oNeLat && truthy oNeLng
  then
    [ SQL.ge_dt (last_modified r) (Some active_time) ]
    ++ in_box (latitude r) (longitude r) swLat swLng neLat neLng
    ++ [ SQL.not_ (SQL.all_ (in_box (latitude r) (longitude r)
                                    oSwLat oSwLng oNeLat oNeLng)) ]
  else
    [ SQL.ge_dt (last_modified r) (Some active_time) ]
    ++ in_box (latitude r) (longitude r) swLat swLng neLat neLng.

Definition get_recent
    (swLat swLng neLat neLng oSwLat oSwLng oNeLat oNeLng : option Q)
    (timestamp : Z) : list (gmap string scalar) :=
  let result :=
    SQL.filter (mode_filter swLat swLng neLat neLng
                            oSwLat oSwLng oNeLat oNeLng timestamp)
               scannedlocation in
  map asdict result.

End get_recent.

Definition id_of (d : gmap string scalar) : option Z :=
  match d !! "cellid"%string with
  | Some (VInt z) => Some z
  | _ => None
  end.

Definition ids_of (result : list (gmap string scalar)) : gset Z :=
  list_to_set (omap id_of result).

End ScannedLocation.

(** ** [class Weather] *)

Module Weather.

Record row := mk {
  s2_cell_id : string;                   (* primary key *)
  latitude : Q;
  longitude : Q;
  cloud_level : option Z;
  rain_level : option Z;
  wind_level : option Z;
  snow_level : option Z;
  fog_level : option Z;
  wind_direction : option Z;
  gameplay_weather : option Z;
  severity : option Z;
  warn_weather : option Z;
  world_time : option Z;
  last_updated : option datetime
}.

Definition asdict (r : row) : gmap string scalar :=
  list_to_map
    [ ("s2_cell_id", VStr (s2_cell_id r));
      ("latitude", VFloat (latitude r));
      ("longitude", VFloat (longitude r));
      ("gameplay_weather", opt VInt (gameplay_weather r));
      ("severity", opt VInt (severity r));
      ("world_time", opt VInt (world_time r));
      ("last_updated", opt VDatetime (last_updated r)) ]%string.

(** The float literals [0.15] and [0.4]. *)
Definition lat_delta : Q := Double.float_ (15 # 100).
Definition lng_delta : Q := Double.float_ (4 # 10).

(** [float(x) - d] and [float(x) + d] in double arithmetic; [x] is never
    [None] where these are evaluated (the branch is guarded by its truth
    value). *)
Definition minus (x : option Q) (d : Q) : option Q :=
  (fun q => Double.sub (Double.float_ q) d) <$> x.
Definition plus (x : option Q) (d : Q) : option Q :=
  (fun q => Double.add (Double.float_ q) d) <$> x.

Section get_weather.

Variable weather : list row.

Definition mode_filter
    (swLat swLng neLat neLng oSwLat oSwLng oNeLat oNeLng : option Q)
    (timestamp : Z) (r : row) : list SQL.tri :=
  if negb (truthy swLat && truthy swLng && truthy neLat && truthy neLng)
  then
    []
  else if 0 <? timestamp then
    [ SQL.gt_dt (last_updated r) (Some (utcfromtimestamp_ms timestamp));
      SQL.ge_q (Some (latitude r)) (minus swLat lat_delta);
      SQL.ge_q (Some (longitude r)) (minus swLng lng_delta);
      SQL.le_q (Some (latitude r)) (plus neLat lat_delta);
      SQL.le_q (Some (longitude r)) (plus neLng lng_delta) ]
  else if truthy oSwLat && truthy oSwLng && truthy oNeLat && truthy oNeLng
  then
    [ SQL.ge_q (Some (latitude r)) (minus swLat lat_delta);
      SQL.ge_q (Some (longitude r)) (minus swLng lng_delta);
      SQL.le_q (Some (latitude r)) (plus neLat lat_delta);
      SQL.le_q (Some (longitude r)) (plus neLng lng_delta);
      SQL.not_ (SQL.all_
        [ SQL.ge_q (Some (latitude r)) (minus oSwLat lat_delta);
          SQL.ge_q (Some (longitude r)) (minus oSwLng lng_delta);
          SQL.le_q (Some (latitude r)) (plus oNeLat lat_delta);
          SQL.le_q (Some (longitude r)) (plus oNeLng lng_delta) ]) ]
  else
    [ SQL.ge_q (Some (latitude r)) (minus swLat lat_delta);
      SQL.ge_q (Some (longitude r)) (minus swLng lng_delta);
      SQL.le_q (Some (latitude r)) (plus neLat lat_delta);
      SQL.le_q (Some (longitude r)) (plus neLng lng_delta) ].

Definition get_weather
    (swLat swLng neLat neLng oSwLat oSwLng oNeLat oNeLng : option Q)
    (timestamp : Z) : list (gmap string scalar) :=
  let result :=
    SQL.filter (mode_filter swLat swLng neLat neLng
                            oSwLat oSwLng oNeLat oNeLng timestamp)
               weather in
  map asdict result.

End get_weather.

End Weather.

(** ** [class TrsQuest] : columns *)

Module TrsQuest.
Record row := mk {
  GUID : string;                         (* primary key *)
  quest_type : Z;
  quest_timestamp : Z;
  quest_stardust : Z;
  quest_pokemon_id : Z;
  quest_reward_type : Z;
  quest_item_id : Z;
  quest_item_amount : Z;
  quest_target : Z;
  quest_condition : option string;
  quest_reward : option string;
  quest_template : option string;
  quest_task : option string;
  quest_pokemon_form_id : Z;
  quest_pokemon_costume_id : Z
}.
End TrsQuest.

(** ** [class Pokestop] *)

Module Pokestop.

Record row := mk {
  pokestop_id : string;                  (* primary key *)
  enabled : Z;
  latitude : Q;
  longitude : Q;
  last_modified : option datetime;
  lure_expiration : option datetime;
  active_fort_modifier : option Z;
  last_updated : option datetime;
  name : option string;
  image : option string;
  incident_start : option datetime;
  incident_expiration : option datetime;
  incident_grunt_type : option Z
}.

(** [orm_to_dict] of a [Pokestop] loaded with [load_only] of the listed
    columns. *)
Definition orm_to_dict (r : row) : gmap string value :=
  list_to_map
    [ ("pokestop_id", Scalar (VStr (pokestop_id r)));
      ("name", Scalar (opt VStr (name r)));
      ("image", Scalar (opt VStr (image r)));
      ("latitude", Scalar (VFloat (latitude r)));
      ("longitude", Scalar (VFloat (longitude r)));
      ("last_updated", Scalar (opt VDatetime (last_updated r)));
      ("incident_grunt_type", Scalar (opt VInt (incident_grunt_type r)));
      ("incident_expiration",
         Scalar (opt VDatetime (incident_expiration r)));
      ("active_fort_modifier", Scalar (opt VInt (active_fort_modifier r)));
      ("lure_expiration", Scalar (opt VDatetime (lure_expiration r))) ]%string.

(** The [quest] dictionary built from a joined [TrsQuest] row. *)
Definition quest_dict (q : TrsQuest.row) : gmap string scalar :=
  list_to_map
    [ ("pokestop_id", VStr (TrsQuest.GUID q));
      ("timestamp", VInt (TrsQuest.quest_timestamp q));
      ("task", opt VStr (TrsQuest.quest_task q));
      ("type", VInt (TrsQuest.quest_type q));
      ("stardust", VInt (TrsQuest.quest_stardust q));
      ("pokemon_id", VInt (TrsQuest.quest_pokemon_id q));
      ("form_id", VInt (TrsQuest.quest_pokemon_form_id q));
      ("costume_id", VInt (TrsQuest.quest_pokemon_costume_id q));
      ("reward_type", VInt (TrsQuest.quest_reward_type q));
      ("item_id", VInt (TrsQuest.quest_item_id q));
      ("item_amount", VInt (TrsQuest.quest_item_amount q)) ]%string.

(** [d[k] is not None and (d[k] < now or not enabled)] for a key holding
    a datetime or [None]. *)
Definition suppressed (d : gmap string value) (k : string)
    (now : datetime) (enabled : bool) : bool :=
  match d !! k with
  | Some (Scalar (VDatetime e)) => dt_lt e now || negb enabled
  | _ => false
  end.

(** The body of the loop over [result]: the record emitted for one row. *)
Definition emit (quests invasions lures : bool) (now : datetime)
    (r : row * option TrsQuest.row) : gmap string value :=
  let pokestop_orm := r.1 in
  let quest_orm := if quests then r.2 else None in
  let pokestop := orm_to_dict pokestop_orm in
  let pokestop :=
    match quest_orm with
    | Some q => <["quest"%string := Dict (quest_dict q)]> pokestop
    | None => <["quest"%string := Scalar VNone]> pokestop
    end in
  let pokestop :=
    if suppressed pokestop "incident_expiration" now invasions then
      <["incident_expiration"%string := Scalar VNone]>
        (<["incident_grunt_type"%string := Scalar VNone]> pokestop)
    else pokestop in
  let pokestop :=
    if suppressed pokestop "lure_expiration" now lures then
      <["lure_expiration"%string := Scalar VNone]>
        (<["active_fort_modifier"%string := Scalar VNone]> pokestop)
    else pokestop in
  pokestop.

(** [pokestops[pokestop['pokestop_id']] = pokestop]; the key is always a
    string, being read back from the primary-key column. *)
Definition store (pokestops : gmap string (gmap string value))
    (pokestop : gmap string value) : gmap string (gmap string value) :=
  match pokestop !! "pokestop_id"%string with
  | Some (Scalar (VStr k)) => <[k := pokestop]> pokestops
  | _ => pokestops
  end.

Section get_pokestops.

(** The tables, the three reads of [datetime.utcnow()] (one for the
    invasion term and one for the lure term while the query is built, one
    after it ran) and [today_timestamp], the POSIX timestamp of local
    midnight. *)
Variable pokestop_table : list row.
Variable trs_quest : list TrsQuest.row.
Variable utcnow : datetime.
Variable utcnow_lures : datetime.
Variable now : datetime.
Variable today_timestamp : Z.

(** [or_] over the collected [terms]; with no term the filter adds no
    condition. *)
Definition eventless_filter (eventless_stops quests invasions lures : bool)
    (r : row * option TrsQuest.row) : list SQL.tri :=
  if negb eventless_stops then
    let terms :=
      (if quests then [ Some (bool_decide (is_Some r.2)) ] else [])
      ++ (if invasions
          then [ SQL.gt_dt (incident_expiration r.1) (Some utcnow) ]
          else [])
      ++ (if lures
          then [ SQL.gt_dt (lure_expiration r.1) (Some utcnow_lures) ]
          else []) in
    match terms with
    | [] => []
    | _ => [ fold_right SQL.or_ (Some false) terms ]
    end
  else [].

Definition mode_filter
    (swLat swLng neLat neLng oSwLat oSwLng oNeLat oNeLng : option Q)
    (timestamp : Z) (p : row) : list SQL.tri :=
  if negb (truthy swLat && truthy swLng && truthy neLat && truthy neLng)
  then
    []
  else if 0 <? timestamp then
    [ SQL.gt_dt (last_updated p) (Some (utcfromtimestamp_ms timestamp)) ]
    ++ in_box (latitude p) (longitude p) swLat swLng neLat neLng
  else if truthy oSwLat && truthy oSwLng && truthy oNeLat && truthy oNeLng
  then
    in_box (latitude p) (longitude p) swLat swLng neLat neLng
    ++ [ SQL.not_ (SQL.all_ (in_box (latitude p) (longitude p)
                                    oSwLat oSwLng oNeLat oNeLng)) ]
  else
    in_box (latitude p) (longitude p) swLat swLng neLat neLng.

(** The rows [query.all()] returns. *)
Definition result_rows
    (swLat swLng neLat neLng oSwLat oSwLng oNeLat oNeLng : option Q)
    (timestamp : Z) (eventless_stops quests invasions lures : bool)
  : list (row * option TrsQuest.row) :=
  let query :=
    if quests then
      SQL.outerjoin
        (fun p q => String.eqb (pokestop_id p) (TrsQuest.GUID q)
                    && (today_timestamp <=? TrsQuest.quest_timestamp q))
        pokestop_table trs_quest
    else map (fun p => (p, None)) pokestop_table in
  SQL.filter
    (fun r => eventless_filter eventless_stops quests invasions lures r
              ++ mode_filter swLat swLng neLat neLng
                             oSwLat oSwLng oNeLat oNeLng timestamp r.1)
    query.

Definition get_pokestops
    (swLat swLng neLat neLng oSwLat oSwLng oNeLat oNeLng : option Q)
    (timestamp : Z) (eventless_stops quests invasions lures : bool)
  : gmap string (gmap string value) :=
  let result :=
    result_rows swLat swLng neLat neLng oSwLat oSwLng oNeLat oNeLng
                timestamp eventless_stops quests invasions lures in
  fold_left (fun pokestops r => store pokestops
                                  (emit quests invasions lures now r))
            result ∅.

End get_pokestops.

End Pokestop.

(** ** Python string operations used by the despawn inference *)

Module PyStr.

(** A [str] is kept as its UTF-8 bytes. *)

(** [s.split(sep)] for a one-character ASCII separator. *)
Fixpoint split (sep : ascii) (s : string) : list string :=
  match s with
  | EmptyString => [EmptyString]
  | String c s' =>
      if Ascii.eqb c sep then EmptyString :: split sep s'
      else match split sep s' with
           | h :: t => String c h :: t
           | [] => [String c EmptyString]
           end
  end.

(** The code points of the string: [need] continuation bytes are still
    expected for the code point begun in [acc], which must not be below
    [lo].  [None] when the bytes are not the UTF-8 form of a [str]. *)
Fixpoint decode (need : nat) (acc lo : Z) (s : string) : option (list Z) :=
  match s with
  | EmptyString => match need with O => Some [] | S _ => None end
  | String c s' =>
      let b := Z.of_nat (nat_of_ascii c) in
      match need with
      | O =>
          if b <? 0x80 then cons b <$> decode 0 0 0 s'
          else if (0xC2 <=? b) && (b <? 0xE0) then
            decode 1 (b - 0xC0) 0x80 s'
          else if (0xE0 <=? b) && (b <? 0xF0) then
            decode 2 (b - 0xE0) 0x800 s'
          else if (0xF0 <=? b) && (b <? 0xF5) then
            decode 3 (b - 0xF0) 0x10000 s'
          else None
      | S n =>
          if (0x80 <=? b) && (b <? 0xC0) then
            let acc := acc * 64 + (b - 0x80) in
            match n with
            | O =>
                if (lo <=? acc) && (acc <=? 0x10FFFF)
                   && negb ((0xD800 <=? acc) && (acc <=? 0xDFFF))
                then cons acc <$> decode 0 0 0 s'
                else None
            | S _ => decode n acc lo s'
            end
          else None
      end
  end.

Definition code_points (s : string) : option (list Z) := decode 0 0 0 s.

(** The white space [int] skips at both ends: the characters for which
    [str.isspace] holds, but for the four separators U+001C..U+001F. *)
Definition is_space (c : Z) : bool :=
  ((0x9 <=? c) && (c <=? 0xD)) || (c =? 0x20) || (c =? 0x85) || (c =? 0xA0)
  || (c =? 0x1680) || ((0x2000 <=? c) && (c <=? 0x200A))
  || (c =? 0x2028) || (c =? 0x2029) || (c =? 0x202F) || (c =? 0x205F)
  || (c =? 0x3000).

(** The zeros of the decimal digits (general category Nd, Unicode 14 as in
    CPython 3.11); each is followed by its digits 1 to 9. *)
Definition zeros : list Z :=
  [ 0x30; 0x660; 0x6F0; 0x7C0; 0x966; 0x9E6; 0xA66; 0xAE6; 0xB66;
    0xBE6; 0xC66; 0xCE6; 0xD66; 0xDE6; 0xE50; 0xED0; 0xF20; 0x1040;
    0x1090; 0x17E0; 0x1810; 0x1946; 0x19D0; 0x1A80; 0x1A90; 0x1B50;
    0x1BB0; 0x1C40; 0x1C50; 0xA620; 0xA8D0; 0xA900; 0xA9D0; 0xA9F0;
    0xAA50; 0xABF0; 0xFF10; 0x104A0; 0x10D30; 0x11066; 0x110F0;
    0x11136; 0x111D0; 0x112F0; 0x11450; 0x114D0; 0x11650; 0x116C0;
    0x11730; 0x118E0; 0x11950; 0x11C50; 0x11D50; 0x11DA0; 0x16A60;
    0x16AC0; 0x16B50; 0x1D7CE; 0x1D7D8; 0x1D7E2; 0x1D7EC; 0x1D7F6;
    0x1E140; 0x1E2F0; 0x1E950; 0x1FBF0 ].

Definition digit (c : Z) : option Z :=
  (fun z => c - z) <$> List.find (fun z => (z <=? c) && (c <=? z + 9)) zeros.

Fixpoint lstrip (s : list Z) : list Z :=
  match s with
  | c :: s' => if is_space c then lstrip s' else s
  | [] => []
  end.

Definition rstrip (s : list Z) : list Z := rev (lstrip (rev s)).

(** [sys.int_info.default_max_str_digits]: a longer run of digits is
    refused. *)
Definition max_str_digits : Z := 4300.

(** Decimal digits with single underscores between them: [after_digit]
    tells whether the last character read was a digit, [n] counts the
    digits. *)
Fixpoint digits (after_digit : bool) (acc n : Z) (s : list Z) : option Z :=
  match s with
  | [] => if after_digit && (n <=? max_str_digits) then Some acc else None
  | c :: s' =>
      match digit c with
      | Some d => digits true (acc * 10 + d) (n + 1) s'
      | None =>
          if (c =? 0x5F) && after_digit then digits false acc n s' else None
      end
  end.

(** [int(s)] on a string: surrounding white space, an optional sign, and
    decimal digits of any script with single underscores between them;
    [None] stands for [ValueError]. *)
Definition int (s : string) : option Z :=
  s ← code_points s;
  match rstrip (lstrip s) with
  | 0x2B :: r => digits false 0 0 r
  | 0x2D :: r => Z.opp <$> digits false 0 0 r
  | r => digits false 0 0 r
  end.

End PyStr.

(** ** [class TrsSpawn] *)

Module TrsSpawn.

Import TrsSpawnRow.

Inductive exn := ValueError | IndexError | OverflowError.

(** Computations that may raise and that read the local clock: the state
    is the number of reads of [datetime.today()] made so far. *)
Definition M (A : Type) : Type := nat -> exn + (A * nat).

Definition raise {A} (e : exn) : M A := fun _ => inl e.

#[export] Instance M_ret : MRet M := fun A a n => inr (a, n).
#[export] Instance M_bind : MBind M :=
  fun A B k m n => match m n with
                   | inl e => inl e
                   | inr (a, n') => k a n'
                   end.

Definition lift {A} (e : exn) (o : option A) : M A :=
  match o with Some a => mret a | None => raise e end.

(** The integers [datetime.replace] accepts as arguments: those of a C
    [int]; for any other it raises [OverflowError], before it looks at the
    ranges of the fields. *)
Definition fits_int (z : Z) : bool := (- 2 ^ 31 <=? z) && (z <? 2 ^ 31).

(** The selected columns of one result row ([_asdict()]). *)
Definition asdict (r : row) : gmap string scalar :=
  list_to_map
    [ ("latitude", VFloat (latitude r));
      ("longitude", VFloat (longitude r));
      ("spawnpoint_id", VStr (spawnpoint r));
      ("spawndef", VInt (spawndef r));
      ("first_detection", VDatetime (first_detection r));
      ("last_non_scanned", opt VDatetime (last_non_scanned r));
      ("last_scanned", opt VDatetime (last_scanned r));
      ("end_time", opt VStr (calc_endminsec r)) ]%string.

(** [if sp[k] is not None: sp[k] = sp[k] - utc_offset] *)
Definition shift (k : string) (utc_offset : timedelta)
    (sp : gmap string scalar) : gmap string scalar :=
  match sp !! k with
  | Some (VDatetime d) => <[k := VDatetime (dt_sub d utc_offset)]> sp
  | _ => sp
  end.

Section get_spawnpoints.

(** The table, the successive values of [datetime.today()] and the
    UTC offset computed from [time.time()]. *)
Variable trs_spawn : list row.
Variable clock : nat -> datetime.
Variable utc_offset : timedelta.

Definition today : M datetime := fun n => inr (clock n, S n).

Definition mode_filter
    (swLat swLng neLat neLng oSwLat oSwLng oNeLat oNeLng : option Q)
    (timestamp : Z) (r : row) : list SQL.tri :=
  if negb (truthy swLat && truthy swLng && truthy neLat && truthy neLng)
  then
    []
  else if 0 <? timestamp then
    let utc_time := utcfromtimestamp_ms timestamp in
    [ SQL.or_ (SQL.gt_dt (last_scanned r) (Some utc_time))
              (SQL.gt_dt (last_non_scanned r) (Some utc_time)) ]
    ++ in_box (latitude r) (longitude r) swLat swLng neLat neLng
  else if truthy oSwLat && truthy oSwLng && truthy oNeLat && truthy oNeLng
  then
    in_box (latitude r) (longitude r) swLat swLng neLat neLng
    ++ [ SQL.not_ (SQL.all_ (in_box (latitude r) (longitude r)
                                    oSwLat oSwLng oNeLat oNeLng)) ]
  else
    in_box (latitude r) (longitude r) swLat swLng neLat neLng.

(** The body of the loop over [result]. *)
Definition emit (sp : gmap string scalar) : M (gmap string scalar) :=
  let sp := shift "last_non_scanned" utc_offset sp in
  match sp !! "end_time"%string with
  | Some (VStr end_time) =>
      let sp := shift "last_scanned" utc_offset sp in
      let end_time_split := PyStr.split ":" end_time in
      s1 ← lift IndexError (end_time_split !! 1%nat);
      end_time_seconds ← lift ValueError (PyStr.int s1);
      s0 ← lift IndexError (end_time_split !! 0%nat);
      end_time_minutes ← lift ValueError (PyStr.int s0);
      t ← today;
      despawn_time ←
        (if fits_int end_time_minutes && fits_int end_time_seconds
         then lift ValueError
                (replace t end_time_minutes end_time_seconds 0)
         else raise OverflowError);
      t' ← today;
      let despawn_time :=
        if dt_le despawn_time t' then dt_add despawn_time (hours 1)
        else despawn_time in
      let despawn_time := dt_sub despawn_time utc_offset in
      let sp := <["despawn_time"%string := VDatetime despawn_time]> sp in
      let spawn_time :=
        match sp !! "spawndef"%string with
        | Some (VInt 15) => dt_sub despawn_time (hours 1)
        | _ => dt_sub despawn_time (minutes 30)
        end in
      let sp := <["spawn_time"%string := VDatetime spawn_time]> sp in
      mret (delete "end_time"%string sp)
  | _ => mret sp
  end.

Fixpoint emit_all (result : list (gmap string scalar))
  : M (list (gmap string scalar)) :=
  match result with
  | [] => mret []
  | sp :: rest =>
      sp' ← emit sp;
      spawnpoints ← emit_all rest;
      mret (sp' :: spawnpoints)
  end.

Definition get_spawnpoints
    (swLat swLng neLat neLng oSwLat oSwLng oNeLat oNeLng : option Q)
    (timestamp : Z) : exn + list (gmap string scalar) :=
  let result :=
    SQL.filter (mode_filter swLat swLng neLat neLng
                            oSwLat oSwLng oNeLat oNeLng timestamp)
               trs_spawn in
  match emit_all (map asdict result) 0%nat with
  | inl e => inl e
  | inr (spawnpoints, _) => inr spawnpoints
  end.

End get_spawnpoints.

End TrsSpawn.

(** * The specification's vocabulary *)

(** ** BoundingBox *)

Record BoundingBox := mk_box { south : Q; west : Q; north : Q; east : Q }.

Definition contains (b : BoundingBox) (lat lng : Q) : bool :=
  Qle_bool (south b) lat && Qle_bool (west b) lng
  && Qle_bool lat (north b) && Qle_bool lng (east b).

Definition expanded (b : BoundingBox) (latDelta lonDelta : Q) : BoundingBox :=
  {| south := south b - latDelta; west := west b - lonDelta;
     north := north b + latDelta; east := east b + lonDelta |}%Q.

(** A coordinate argument counts only when it is a non-zero number. *)
Definition nonzero (x : option Q) : option Q :=
  match x with
  | Some q => if Qeq_bool q 0 then None else Some q
  | None => None
  end.

(** The box the four arguments denote, when the query detects one. *)
Definition box_of (sLat wLng nLat eLng : option Q) : option BoundingBox :=
  s ← nonzero sLat; w ← nonzero wLng; n ← nonzero nLat; e ← nonzero eLng;
  Some (mk_box s w n e).

Definition absent_or_zero (x : option Q) : Prop :=
  x = None \/ exists q, x = Some q /\ (q == 0)%Q.

(** ** ViewportDiffFilter: the four sync modes *)

Inductive mode := NoBox | Delta | Panned | Fallback.

(** Mode selection as a function of (box present, previousBox present,
    sinceTimestamp > 0), in the priority order of the specification. *)
Definition select_mode (box_present prev_present since_positive : bool)
  : mode :=
  if negb box_present then NoBox
  else if since_positive then Delta
  else if prev_present then Panned
  else Fallback.

Definition mode_of (box prev : option BoundingBox) (sinceTimestamp : Z)
  : mode :=
  select_mode (bool_decide (is_Some box)) (bool_decide (is_Some prev))
              (0 <? sinceTimestamp).

Section ViewportDiffFilter.

Context {R : Type} (lat lng : R -> Q).

Definition inside (b : option BoundingBox) (r : R) : bool :=
  match b with
  | Some b => contains b (lat r) (lng r)
  | None => false
  end.

(** The predicate of each mode, for a liveness predicate [live] and a
    "modified after the timestamp" predicate [modified]. *)
Definition viewport_diff (m : mode) (box prev : option BoundingBox)
    (modified live : R -> bool) (r : R) : bool :=
  match m with
  | NoBox => live r
  | Delta => inside box r && modified r && live r
  | Panned => inside box r && live r && negb (inside prev r)
  | Fallback => inside box r && live r
  end.

End ViewportDiffFilter.

(** A box all of whose sides are non-zero, hence one the queries detect. *)
Definition detected (b : BoundingBox) : Prop :=
  ~ (south b == 0)%Q /\ ~ (west b == 0)%Q /\
  ~ (north b == 0)%Q /\ ~ (east b == 0)%Q.

(** ** The predicates of each entity kind *)

Module PokemonSpec.

Import Pokemon.

(** Liveness: the disappearance instant is strictly in the future. *)
Definition live (utcnow : datetime) (p : row) : bool :=
  dt_lt utcnow (disappear_time p).

(** Modified strictly after the sync timestamp (milliseconds). *)
Definition modified (timestamp : Z) (p : row) : bool :=
  match last_modified p with
  | Some m => dt_lt (utcfromtimestamp_ms timestamp) m
  | None => false
  end.

(** The kind-id filter that is in force. *)
Definition kind_ok (eids ids : option (list Z)) (p : row) : bool :=
  SQL.holds (SQL.all_ (kind_filter eids ids p)).

(** The rows the query ranges over. *)
Definition sightings (pokemon : list row) (trs_spawn : list TrsSpawnRow.row)
    (spawnpoint_eq : Z -> string -> bool) (verified_despawn_time : bool)
  : list (row * option TrsSpawnRow.row) :=
  if verified_despawn_time then
    SQL.outerjoin
      (fun p s => spawnpoint_eq (spawnpoint_id p) (TrsSpawnRow.spawnpoint s))
      pokemon trs_spawn
  else map (fun p => (p, None)) pokemon.

End PokemonSpec.

Module ScannedLocationSpec.

Import ScannedLocation.

(** Recently active: modified within the last 15 minutes. *)
Definition recent (utcnow : datetime) (r : row) : bool :=
  match last_modified r with
  | Some m => dt_le (dt_sub utcnow (minutes 15)) m
  | None => false
  end.

(** Modified at or after the sync timestamp (milliseconds). *)
Definition since (timestamp : Z) (r : row) : bool :=
  match last_modified r with
  | Some m => dt_le (utcfromtimestamp_ms timestamp) m
  | None => false
  end.

(** The modes in which the 15-minute window is part of the query. *)
Definition window_in_force (m : mode) : bool :=
  match m with
  | Delta => false
  | NoBox | Panned | Fallback => true
  end.

End ScannedLocationSpec.

Module WeatherSpec.

Import Weather.

(** Updated strictly after the sync timestamp (milliseconds). *)
Definition updated (timestamp : Z) (r : row) : bool :=
  match last_updated r with
  | Some m => dt_lt (utcfromtimestamp_ms timestamp) m
  | None => false
  end.

(** The box, loosened by the weather tolerance. *)
Definition loosen (b : BoundingBox) : BoundingBox :=
  expanded b (15 # 100) (4 # 10).

(** The box loosened by the tolerance and, on top of it, by [slack] on each
    side (a negative [slack] tightens it). *)
Definition loosen_by (slack : Q) (b : BoundingBox) : BoundingBox :=
  expanded b ((15 # 100) + slack) ((4 # 10) + slack).

(** The box whose sides are the four bounds [get_weather] computes: the
    tolerance applied to each side in double arithmetic. *)
Definition rounded (b : BoundingBox) : BoundingBox :=
  {| south := Double.sub (Double.float_ (south b)) lat_delta;
     west := Double.sub (Double.float_ (west b)) lng_delta;
     north := Double.add (Double.float_ (north b)) lat_delta;
     east := Double.add (Double.float_ (east b)) lng_delta |}.

(** Coordinates of at most 360 degrees in magnitude. *)
Definition in_degrees (b : BoundingBox) : Prop :=
  (Qabs (south b) <= 360 /\ Qabs (west b) <= 360
   /\ Qabs (north b) <= 360 /\ Qabs (east b) <= 360)%Q.

(** What rounding can move a bound by, for such coordinates: 2^-43. *)
Definition rounding_slack : Q := 1 # 2 ^ 43.

(** The stored point lies inside the box or at most 0.15 degrees of latitude
    and 0.4 degrees of longitude outside it. *)
Definition within_tolerance (b : BoundingBox) (lat lng : Q) : Prop :=
  (south b - (15 # 100) <= lat)%Q /\ (lat <= north b + (15 # 100))%Q /\
  (west b - (4 # 10) <= lng)%Q /\ (lng <= east b + (4 # 10))%Q.

End WeatherSpec.

Module PokestopSpec.

(** A sub-feature is suppressed when its expiration is stored, and either it
    lies strictly before [now] or the caller switched the sub-feature off. *)
Definition hidden (expiration : option datetime) (now : datetime)
    (enabled : bool) : bool :=
  match expiration with
  | Some e => dt_lt e now || negb enabled
  | None => false
  end.

End PokestopSpec.

(** ** Clock-face fragments *)

Module ClockFace.

Local Open Scope string_scope.

Definition digit_char (d : Z) : ascii := ascii_of_nat (48 + Z.to_nat d).

Definition two_digits (n : Z) : string :=
  String (digit_char (n / 10)) (String (digit_char (n mod 10)) "").

(** The text "MM:SS" for minute [mm] and second [ss]. *)
Definition clock_face (mm ss : Z) : string :=
  two_digits mm ++ ":" ++ two_digits ss.


Definition below60 : list Z := map Z.of_nat (seq 0 60).

Definition parses (mm ss : Z) : bool :=
  bool_decide (PyStr.split ":" (clock_face mm ss)
               = [two_digits mm; two_digits ss])
  && bool_decide (PyStr.int (two_digits mm) = Some mm)
  && bool_decide (PyStr.int (two_digits ss) = Some ss).

End ClockFace.

(** ** Despawn inference *)

Module TrsSpawnSpec.

Import TrsSpawnRow.

(** The candidate despawn instant: the date and hour of [t], with the
    minute and second of the fragment and no microseconds. *)
Definition candidate (t : datetime) (mm ss : Z) : datetime :=
  {| ordinal := ordinal t; hour := hour t;
     minute := mm; second := ss; microsecond := 0 |}.

(** The despawn instant in local time: the candidate, moved to the next hour
    when it is not after [t']. *)
Definition local_despawn (t t' : datetime) (mm ss : Z) : datetime :=
  if dt_le (candidate t mm ss) t' then dt_add (candidate t mm ss) (hours 1)
  else candidate t mm ss.


End TrsSpawnSpec.

(** ** Example data *)

Module Examples.

Definition noon : datetime := mk_datetime 738000 12 0 0 0.
Definition at_hour (h : Z) : datetime := mk_datetime 738000 h 0 0 0.

Definition sighting (id kind : Z) (lat lng : Q) (disappear : datetime)
  : Pokemon.row :=
  Pokemon.mk id 0 kind lat lng disappear None None None None None None
             None None None None None None None (Some (at_hour 11)).

Definition sightings : list Pokemon.row :=
  [ sighting 1 1 (3 # 2) (3 # 2) (at_hour 13);
    sighting 2 2 (5 # 2) (5 # 2) (at_hour 13);
    sighting 3 3 (7 # 2) (7 # 2) (at_hour 13) ].

Definition cell (id : Z) (lat lng : Q) (modified : datetime)
  : ScannedLocation.row :=
  ScannedLocation.mk id lat lng (Some modified).

Definition cells : list ScannedLocation.row :=
  [ cell 1 (3 # 2) (3 # 2) noon;
    cell 2 (5 # 2) (5 # 2) noon;
    cell 3 (7 # 2) (7 # 2) noon ].

Definition box13 : BoundingBox := mk_box 1 1 3 3.
Definition box24 : BoundingBox := mk_box 2 2 4 4.

Definition no_join (_ : Z) (_ : string) : bool := false.

Definition weather_cell (id : string) (lat lng : Q) : Weather.row :=
  Weather.mk id lat lng None None None None None None (Some 1) None None
             None (Some noon).

(** One cell inside the box (1,1)-(3,3), one just outside but within the
    tolerance, one beyond it in latitude. *)
Definition weather_cells : list Weather.row :=
  [ weather_cell "a" (2 # 1) (2 # 1);
    weather_cell "b" (31 # 10) (33 # 10);
    weather_cell "c" (32 # 10) (2 # 1) ].

End Examples.

Module PokestopExamples.

Definition stop (incident_expiration : option datetime)
    (incident_grunt_type : option Z) (lure_expiration : option datetime)
    (active_fort_modifier : option Z) : Pokestop.row :=
  Pokestop.mk "s1" 1 (3 # 2) (3 # 2) None lure_expiration
              active_fort_modifier (Some Examples.noon) None None None
              incident_expiration incident_grunt_type.

(** An invasion that ended at 11:00 and a lure that lasts until 13:00. *)
Definition expired_incident : Pokestop.row :=
  stop (Some (Examples.at_hour 11)) (Some 4)
       (Some (Examples.at_hour 13)) (Some 501).

(** An invasion that ends exactly at the evaluation instant. *)
Definition ending_now : Pokestop.row :=
  stop (Some Examples.noon) (Some 4) None None.

(** A grunt type stored without an expiration. *)
Definition unexpiring : Pokestop.row :=
  stop None (Some 4) None None.

End PokestopExamples.

Module SpawnExamples.

Definition spawnpoint (spawndef : Z) (last_scanned : option datetime)
    (calc_endminsec : option string) : TrsSpawnRow.row :=
  TrsSpawnRow.mk "42" (3 # 2) (3 # 2) spawndef 0 last_scanned
                 (Examples.at_hour 1) None calc_endminsec 1.


(** 14:10:00 and 14:02:00 on the example day. *)
Definition ten_past_two : datetime := mk_datetime 738000 14 10 0 0.
Definition two_past_two : datetime := mk_datetime 738000 14 2 0 0.

End SpawnExamples.

(** * Further code of [models.py] *)

From Stdlib Require Import Sorted.

(** ** SQL grouping and ordering *)

Module SQLAgg.

(** Adding a row to the groups seen so far: it joins the group of its key,
    or opens a new group at the end. *)
Fixpoint insert_group {R K} (eqb : K -> K -> bool) (k : K) (r : R)
    (gs : list (K * list R)) : list (K * list R) :=
  match gs with
  | [] => [(k, [r])]
  | (k', rs) :: gs' =>
      if eqb k' k then (k', rs ++ [r]) :: gs'
      else (k', rs) :: insert_group eqb k r gs'
  end.

(** [GROUP BY key]: the groups, each with its rows.  SQL leaves the order of
    the groups open; here they come in order of first occurrence. *)
Definition group_by {R K} (eqb : K -> K -> bool) (key : R -> K)
    (rows : list R) : list (K * list R) :=
  fold_left (fun gs r => insert_group eqb (key r) r gs) rows [].

(** [ORDER BY key] ascending, as a stable insertion sort. *)
Fixpoint insert_sorted {R} (key : R -> Z) (r : R) (l : list R) : list R :=
  match l with
  | [] => [r]
  | x :: l' => if key r <=? key x then r :: l else x :: insert_sorted key r l'
  end.

Definition order_by {R} (key : R -> Z) (rows : list R) : list R :=
  fold_right (insert_sorted key) [] rows.

(** [MAX] over datetimes; NULL for no row. *)
Definition max_dt (a b : datetime) : datetime := if dt_lt a b then b else a.

Definition max_ (l : list datetime) : option datetime :=
  match l with
  | [] => None
  | x :: l' => Some (fold_left max_dt l' x)
  end.

(** [COUNT(column)] of a column that is never NULL. *)
Definition count {R} (rows : list R) : Z := Z.of_nat (length rows).

(** What grouping is expected to give when [eqb] decides equality of keys:
    no two groups share a key, a group holds exactly the rows of its key, in
    table order, and is not empty, and every row's key has its group. *)
Definition grouped {R K} (eqb : K -> K -> bool) (key : R -> K)
    (rows : list R) (gs : list (K * list R)) : Prop :=
  List.NoDup (map fst gs)
  /\ (forall g, In g gs ->
        g.2 = List.filter (fun x => eqb g.1 (key x)) rows /\ g.2 <> [])
  /\ (forall r, In r rows -> In (key r) (map fst gs)).

End SQLAgg.

(** ** [class Pokemon]: the statistics queries *)

Module PokemonStats.

Import Pokemon.

(** The returned dictionary [{'pokemon': [...], 'total': n}]. *)
Record summary := mk_summary {
  pokemon_list : list (gmap string scalar);
  total : Z
}.

Section queries.

Variable pokemon : list row.
Variable utcnow : datetime.

Definition get_spawn_counts (hours : Z) : summary :=
  let where_ (p : row) : list SQL.tri :=
    if 0 <? hours then
      [ SQL.gt_dt (Some (disappear_time p))
                  (Some (dt_sub utcnow (Py.hours hours))) ]
    else [] in
  let result :=
    map (fun g => (g.1, SQLAgg.count g.2))
        (SQLAgg.group_by Z.eqb pokemon_id (SQL.filter where_ pokemon)) in
  let asdict (c : Z * Z) : gmap string scalar :=
    list_to_map [ ("pokemon_id", VInt c.1); ("count", VInt c.2) ]%string in
  let loop :=
    fold_left (fun acc c => (acc.1 ++ [asdict c], acc.2 + c.2))
              result ([], 0) in
  {| pokemon_list := loop.1; total := loop.2 |}.

Definition seen_key (p : row) : Z * option Z := (pokemon_id p, form p).

Definition seen_key_eqb (a b : Z * option Z) : bool :=
  (a.1 =? b.1) && bool_decide (a.2 = b.2).

Definition get_seen (timediff : Z) : summary :=
  let where_ (p : row) : list SQL.tri :=
    if 0 <? timediff then
      [ SQL.gt_dt (Some (disappear_time p))
                  (Some (dt_sub utcnow (Py.hours timediff))) ]
    else [] in
  let result :=
    map (fun g => (g.1, SQLAgg.count g.2,
                   SQLAgg.max_ (map disappear_time g.2)))
        (SQLAgg.group_by seen_key_eqb seen_key
                         (SQL.filter where_ pokemon)) in
  let asdict (p : Z * option Z * Z * option datetime)
      : gmap string scalar :=
    list_to_map [ ("pokemon_id", VInt p.1.1.1);
                  ("form", opt VInt p.1.1.2);
                  ("count", VInt p.1.2);
                  ("disappear_time", opt VDatetime p.2) ]%string in
  let loop :=
    fold_left (fun acc p => (acc.1 ++ [asdict p], acc.2 + p.1.2))
              result ([], 0) in
  {| pokemon_list := loop.1; total := loop.2 |}.

Definition appearance_key (p : row) : Q * Q * Z * option Z * Z :=
  (latitude p, longitude p, pokemon_id p, form p, spawnpoint_id p).

Definition appearance_key_eqb (a b : Q * Q * Z * option Z * Z) : bool :=
  Qeq_bool a.1.1.1.1 b.1.1.1.1 && Qeq_bool a.1.1.1.2 b.1.1.1.2
  && (a.1.1.2 =? b.1.1.2) && bool_decide (a.1.2 = b.1.2)
  && (a.2 =? b.2).

Definition get_appearances (pokemon_id_ : Z) (form_id : option Z)
    (timediff : Z) : list (gmap string scalar) :=
  let where_ (p : row) : list SQL.tri :=
    [ Some (pokemon_id p =? pokemon_id_) ]
    ++ match form_id with
       | Some f => [ SQL.cmp Z.eqb (form p) (Some f) ]
       | None => []
       end
    ++ (if 0 <? timediff then
          [ SQL.gt_dt (Some (disappear_time p))
                      (Some (dt_sub utcnow (Py.hours timediff))) ]
        else []) in
  let result :=
    map (fun g => (g.1, SQLAgg.count g.2))
        (SQLAgg.group_by appearance_key_eqb appearance_key
                         (SQL.filter where_ pokemon)) in
  map (fun a : Q * Q * Z * option Z * Z * Z =>
         list_to_map [ ("latitude", VFloat a.1.1.1.1.1);
                       ("longitude", VFloat a.1.1.1.1.2);
                       ("pokemon_id", VInt a.1.1.1.2);
                       ("form", opt VInt a.1.1.2);
                       ("spawnpoint_id", VInt a.1.2);
                       ("count", VInt a.2) ]%string)
      result.

(** [timediff] is tested for truth here, not for being positive. *)
Definition get_appearances_times_by_spawnpoint (pokemon_id_ spawnpoint_id_ : Z)
    (form_id : option Z) (timediff : Z) : list datetime :=
  let where_ (p : row) : list SQL.tri :=
    [ Some (pokemon_id p =? pokemon_id_);
      Some (spawnpoint_id p =? spawnpoint_id_) ]
    ++ match form_id with
       | Some f => [ SQL.cmp Z.eqb (form p) (Some f) ]
       | None => []
       end
    ++ (if negb (timediff =? 0) then
          [ SQL.gt_dt (Some (disappear_time p))
                      (Some (dt_sub utcnow (Py.hours timediff))) ]
        else []) in
  let result :=
    SQLAgg.order_by (fun p => to_us (disappear_time p))
                    (SQL.filter where_ pokemon) in
  map disappear_time result.

End queries.

(** The [count] entry of a returned record. *)
Definition count_of (d : gmap string scalar) : Z :=
  match d !! "count"%string with
  | Some (VInt c) => c
  | _ => 0
  end.

End PokemonStats.

(** ** [db_cleanup_regular] and [clean_db_loop] *)

Module Cleanup.

Import Pokestop.

(** [update(dict(lure_expiration=None, active_fort_modifier=None))] on one
    row. *)
Definition clear_lure (p : row) : row :=
  mk (pokestop_id p) (enabled p) (latitude p) (longitude p)
     (last_modified p) None None (last_updated p) (name p) (image p)
     (incident_start p) (incident_expiration p) (incident_grunt_type p).

(** The [Pokestop] table after
    [Pokestop.query.filter(Pokestop.lure_expiration < utcnow).update(...)]. *)
Definition db_cleanup_regular (utcnow : datetime) (pokestop_table : list row)
  : list row :=
  map (fun p =>
         if SQL.holds (SQL.cmp dt_lt (lure_expiration p) (Some utcnow))
         then clear_lure p else p)
      pokestop_table.

(** [clean_db_loop] runs the regular cleanup once and returns; the loop
    written after the [return] is never reached. *)
Definition clean_db_loop (utcnow : datetime) (pokestop_table : list row)
  : list row :=
  db_cleanup_regular utcnow pokestop_table.

End Cleanup.

(** ** [class GymDetails], [class Raid] : columns *)

Module GymDetails.
Record row := mk {
  gym_id : string;                       (* primary key, foreign key *)
  name : string;
  description : option string;
  url : string;
  last_scanned : datetime
}.
End GymDetails.

Module Raid.
Record row := mk {
  gym_id : string;                       (* primary key *)
  level : Z;
  spawn : datetime;
  start : datetime;
  end_ : datetime;
  pokemon_id : option Z;
  cp : option Z;
  move_1 : option Z;
  move_2 : option Z;
  last_scanned : datetime;
  form : option Z;
  is_exclusive : option Z;
  gender : option Z;
  costume : option Z
}.

(** [orm_to_dict] of a [Raid]. *)
Definition orm_to_dict (r : row) : gmap string scalar :=
  list_to_map
    [ ("gym_id", VStr (gym_id r));
      ("level", VInt (level r));
      ("spawn", VDatetime (spawn r));
      ("start", VDatetime (start r));
      ("end", VDatetime (end_ r));
      ("pokemon_id", opt VInt (pokemon_id r));
      ("cp", opt VInt (cp r));
      ("move_1", opt VInt (move_1 r));
      ("move_2", opt VInt (move_2 r));
      ("last_scanned", VDatetime (last_scanned r));
      ("form", opt VInt (form r));
      ("is_exclusive", opt VInt (is_exclusive r));
      ("gender", opt VInt (gender r));
      ("costume", opt VInt (costume r)) ]%string.
End Raid.

(** ** [class Gym] *)

Module Gym.

Record row := mk {
  gym_id : string;                       (* primary key *)
  team_id : Z;
  guard_pokemon_id : Z;
  slots_available : Z;
  enabled : Z;
  latitude : Q;
  longitude : Q;
  total_cp : Z;
  is_in_battle : Z;
  gender : option Z;
  form : option Z;
  costume : option Z;
  weather_boosted_condition : option Z;
  shiny : option Z;
  last_modified : datetime;
  last_scanned : datetime;
  is_ex_raid_eligible : Z
}.

Inductive exn := AttributeError.

(** The [GymDetails] object, as stored under [gym_details]. *)
Definition details_dict (d : GymDetails.row) : gmap string scalar :=
  list_to_map
    [ ("gym_id", VStr (GymDetails.gym_id d));
      ("name", VStr (GymDetails.name d));
      ("description", opt VStr (GymDetails.description d));
      ("url", VStr (GymDetails.url d));
      ("last_scanned", VDatetime (GymDetails.last_scanned d)) ]%string.

(** [orm_to_dict] of a [Gym]: its columns and the eagerly loaded
    [gym_details] relationship ([None] when there is no such row). *)
Definition orm_to_dict (g : row) (gym_details : option GymDetails.row)
  : gmap string value :=
  list_to_map
    [ ("gym_id", Scalar (VStr (gym_id g)));
      ("team_id", Scalar (VInt (team_id g)));
      ("guard_pokemon_id", Scalar (VInt (guard_pokemon_id g)));
      ("slots_available", Scalar (VInt (slots_available g)));
      ("enabled", Scalar (VInt (enabled g)));
      ("latitude", Scalar (VFloat (latitude g)));
      ("longitude", Scalar (VFloat (longitude g)));
      ("total_cp", Scalar (VInt (total_cp g)));
      ("is_in_battle", Scalar (VInt (is_in_battle g)));
      ("gender", Scalar (opt VInt (gender g)));
      ("form", Scalar (opt VInt (form g)));
      ("costume", Scalar (opt VInt (costume g)));
      ("weather_boosted_condition",
         Scalar (opt VInt (weather_boosted_condition g)));
      ("shiny", Scalar (opt VInt (shiny g)));
      ("last_modified", Scalar (VDatetime (last_modified g)));
      ("last_scanned", Scalar (VDatetime (last_scanned g)));
      ("is_ex_raid_eligible", Scalar (VInt (is_ex_raid_eligible g)));
      ("gym_details",
         match gym_details with
         | Some d => Dict (details_dict d)
         | None => Scalar VNone
         end) ]%string.

Section get_gyms.

Variable gym : list row.
Variable gymdetails : list GymDetails.row.
Variable raid_table : list Raid.row.
Variable utcnow : datetime.

(** [gym.gym_details]: the row of [gymdetails] with the gym's id. *)
Definition gym_details (g : row) : option GymDetails.row :=
  List.find (fun d => String.eqb (GymDetails.gym_id d) (gym_id g)) gymdetails.

Definition mode_filter
    (swLat swLng neLat neLng oSwLat oSwLng oNeLat oNeLng : option Q)
    (timestamp : Z) (g : row) : list SQL.tri :=
  if negb (truthy swLat && truthy swLng && truthy neLat && truthy neLng)
  then
    []
  else if 0 <? timestamp then
    [ SQL.gt_dt (Some (last_scanned g))
                (Some (utcfromtimestamp_ms timestamp)) ]
    ++ in_box (latitude g) (longitude g) swLat swLng neLat neLng
  else if truthy oSwLat && truthy oSwLng && truthy oNeLat && truthy oNeLng
  then
    in_box (latitude g) (longitude g) swLat swLng neLat neLng
    ++ [ SQL.not_ (SQL.all_ (in_box (latitude g) (longitude g)
                                    oSwLat oSwLng oNeLat oNeLng)) ]
  else
    in_box (latitude g) (longitude g) swLat swLng neLat neLng.

(** The rows [query.all()] returns. *)
Definition result_rows
    (swLat swLng neLat neLng oSwLat oSwLng oNeLat oNeLng : option Q)
    (timestamp : Z) (raids : bool) : list (row * option Raid.row) :=
  let query :=
    if raids then
      SQL.outerjoin
        (fun g r => String.eqb (gym_id g) (Raid.gym_id r)
                    && dt_lt utcnow (Raid.end_ r))
        gym raid_table
    else map (fun g => (g, None)) gym in
  SQL.filter
    (fun r => mode_filter swLat swLng neLat neLng
                          oSwLat oSwLng oNeLat oNeLng timestamp r.1)
    query.

(** The body of the loop over [result]; reading [name] off a missing
    [gym_details] raises. *)
Definition emit (raids : bool) (r : row * option Raid.row)
  : exn + gmap string value :=
  let gym := r.1 in
  let raid := if raids then r.2 else None in
  let gym_dict := orm_to_dict gym (gym_details gym) in
  let gym_dict := delete "gym_details"%string gym_dict in
  match gym_details gym with
  | None => inl AttributeError
  | Some details =>
      let gym_dict :=
        <["name"%string := Scalar (VStr (GymDetails.name details))]>
          gym_dict in
      let gym_dict :=
        <["url"%string := Scalar (VStr (GymDetails.url details))]>
          gym_dict in
      let gym_dict :=
        match raid with
        | Some raid =>
            <["raid"%string := Dict (Raid.orm_to_dict raid)]> gym_dict
        | None => <["raid"%string := Scalar VNone]> gym_dict
        end in
      inr gym_dict
  end.

Fixpoint store_all (raids : bool) (result : list (row * option Raid.row))
    (gyms : gmap string (gmap string value))
  : exn + gmap string (gmap string value) :=
  match result with
  | [] => inr gyms
  | r :: rest =>
      match emit raids r with
      | inl e => inl e
      | inr gym_dict => store_all raids rest (<[gym_id r.1 := gym_dict]> gyms)
      end
  end.

Definition get_gyms
    (swLat swLng neLat neLng oSwLat oSwLng oNeLat oNeLng : option Q)
    (timestamp : Z) (raids : bool)
  : exn + gmap string (gmap string value) :=
  store_all raids
    (result_rows swLat swLng neLat neLng oSwLat oSwLng oNeLat oNeLng
                 timestamp raids)
    ∅.

End get_gyms.

End Gym.

(** ** Schema versioning *)

Module Schema.

Inductive exn := AttributeError | TypeError | ProgrammingError.

(** The database: the names of its tables and the rows of [rmversion]
    ([key] to the nullable [val]), which are there only while the table
    is. *)
Record database := mk {
  tables : gset string;
  rmversion : gmap string (option Z)
}.

(** How a call ends: it returns, it leaves through [sys.exit], or it
    raises; each with the database it leaves behind. *)
Inductive outcome (A : Type) :=
| Return (a : A) (db : database)
| Exit (code : Z) (db : database)
| Raise (e : exn) (db : database).

Arguments Return {A} a db.
Arguments Exit {A} code db.
Arguments Raise {A} e db.

Definition final {A} (o : outcome A) : database :=
  match o with
  | Return _ db | Exit _ db | Raise _ db => db
  end.

Definition db_schema_version : Z := 0.

(** [RmVersion.__tablename__] *)
Definition tablename : string := "rmversion".

Definition table_exists (db : database) : bool :=
  bool_decide (tablename ∈ tables db).

(** [RmVersion.__table__.create] *)
Definition create (db : database) : database :=
  mk (tables db ∪ {[tablename]}) ∅.

(** [RmVersion.__table__.drop] *)
Definition drop (db : database) : database :=
  mk (tables db ∖ {[tablename]}) ∅.

(** [drop_table(table_name=...)]: DROP TABLE IF EXISTS. *)
Definition drop_table (table_name : string) (db : database) : database :=
  mk (tables db ∖ {[table_name]})
     (if String.eqb table_name tablename then ∅ else rmversion db).

Definition drop_rm_tables (db : database) : database :=
  if table_exists db then drop db else db.

(** [RmVersion.query.get('schema_version')] *)
Definition get (db : database) : exn + option (option Z) :=
  if table_exists db then inr (rmversion db !! "schema_version"%string)
  else inl ProgrammingError.

Definition database_migrate (old_ver : Z) (db : database) : outcome bool :=
  match get db with
  | inl e => Raise e db
  | inr None => Raise AttributeError db
  | inr (Some _) =>
      let db :=
        mk (tables db)
           (<["schema_version"%string := Some db_schema_version]>
              (rmversion db)) in
      let db := if old_ver <? 1 then drop_table "rmversions" db else db in
      Return true db
  end.

Definition verify_database_schema (db : database) : outcome unit :=
  if negb (table_exists db) then
    let db := create db in
    let db :=
      mk (tables db)
         (<["schema_version"%string := Some (-1)]> (rmversion db)) in
    match database_migrate (-1) db with
    | Return _ db => Return tt db
    | Exit code db => Exit code db
    | Raise e db => Raise e db
    end
  else
    match get db with
    | inl e => Raise e db
    | inr None => Raise AttributeError db
    | inr (Some None) => Raise TypeError db
    | inr (Some (Some db_ver)) =>
        if db_ver <? db_schema_version then
          match database_migrate db_ver db with
          | Return ok db => if negb ok then Exit 1 db else Return tt db
          | Exit code db => Exit code db
          | Raise e db => Raise e db
          end
        else if db_schema_version <? db_ver then Exit 1 db
        else Return tt db
    end.

(** The version the database records, when it records one. *)
Definition stored_version (db : database) : option Z :=
  if table_exists db then
    match rmversion db !! "schema_version"%string with
    | Some (Some v) => Some v
    | _ => None
    end
  else None.

End Schema.

(** ** Vocabulary for the further properties *)

Module PokestopView.

Import Pokestop.

(** Updated strictly after the sync timestamp (milliseconds). *)
Definition updated (timestamp : Z) (p : row) : bool :=
  match last_updated p with
  | Some m => dt_lt (utcfromtimestamp_ms timestamp) m
  | None => false
  end.

(** The rows the query ranges over: the stops, each with its quest of today
    when quests are asked for. *)
Definition stops (pokestop_table : list row) (trs_quest : list TrsQuest.row)
    (today_timestamp : Z) (quests : bool) : list (row * option TrsQuest.row) :=
  if quests then
    SQL.outerjoin
      (fun p q => String.eqb (pokestop_id p) (TrsQuest.GUID q)
                  && (today_timestamp <=? TrsQuest.quest_timestamp q))
      pokestop_table trs_quest
  else map (fun p => (p, None)) pokestop_table.

(** The row carries a state the caller asked to see: a quest, an invasion
    that ends after [utcnow], the instant at which the invasion term was
    built, or a lure that ends after [utcnow_lures], the instant at which
    the lure term was built. *)
Definition interesting (utcnow utcnow_lures : datetime)
    (quests invasions lures : bool)
    (r : row * option TrsQuest.row) : Prop :=
  (quests = true /\ is_Some r.2)
  \/ (invasions = true /\
      exists e, incident_expiration r.1 = Some e /\ dt_lt utcnow e = true)
  \/ (lures = true /\
      exists e, lure_expiration r.1 = Some e
                /\ dt_lt utcnow_lures e = true).

End PokestopView.

Module WeatherView.

(** The id ([s2_cell_id]) of an emitted cell. *)
Definition id_of (d : gmap string scalar) : option string :=
  match d !! "s2_cell_id"%string with
  | Some (VStr s) => Some s
  | _ => None
  end.

Definition ids_of (result : list (gmap string scalar)) : gset string :=
  list_to_set (omap id_of result).

End WeatherView.

Module PokemonStatsView.

Import Pokemon.

(** The time limit of the statistics queries: none when [hours] is not
    positive, else disappearance strictly after [utcnow - hours]. *)
Definition within_hours (utcnow : datetime) (hours : Z) (p : row) : bool :=
  (hours <=? 0) || dt_lt (dt_sub utcnow (Py.hours hours)) (disappear_time p).

(** The sightings that match a kind and, when given, a form. *)
Definition of_kind (pokemon_id_ : Z) (form_id : option Z) (p : row) : bool :=
  (pokemon_id p =? pokemon_id_)
  && match form_id with
     | Some f => bool_decide (form p = Some f)
     | None => true
     end.

(** The time limit of [get_appearances_times_by_spawnpoint]: none when
    [timediff] is zero, else disappearance strictly after
    [utcnow - timediff], also for a negative [timediff]. *)
Definition limited (utcnow : datetime) (timediff : Z) (p : row) : bool :=
  (timediff =? 0)
  || dt_lt (dt_sub utcnow (Py.hours timediff)) (disappear_time p).

Definition count_record (k c : Z) : gmap string scalar :=
  list_to_map [ ("pokemon_id", VInt k); ("count", VInt c) ]%string.

Definition seen_record (k : Z) (f : option Z) (c : Z) (m : option datetime)
  : gmap string scalar :=
  list_to_map [ ("pokemon_id", VInt k); ("form", opt VInt f);
                ("count", VInt c);
                ("disappear_time", opt VDatetime m) ]%string.

End PokemonStatsView.

Module CleanupView.

Import Pokestop.

(** The lure of the stop ended strictly before [t]. *)
Definition lure_expired (t : datetime) (p : row) : bool :=
  match lure_expiration p with
  | Some e => dt_lt e t
  | None => false
  end.

(** Two rows agree on every column but the lure pair. *)
Definition same_but_lure (p p' : row) : Prop :=
  pokestop_id p' = pokestop_id p /\ enabled p' = enabled p
  /\ latitude p' = latitude p /\ longitude p' = longitude p
  /\ last_modified p' = last_modified p /\ last_updated p' = last_updated p
  /\ name p' = name p /\ image p' = image p
  /\ incident_start p' = incident_start p
  /\ incident_expiration p' = incident_expiration p
  /\ incident_grunt_type p' = incident_grunt_type p.

(** What the cleanup at [c] makes of one stop. *)
Definition clean (c : datetime) (p : row) : row :=
  if lure_expired c p then Cleanup.clear_lure p else p.

End CleanupView.

Module GymView.

(** Scanned strictly after the sync timestamp (milliseconds). *)
Definition scanned (timestamp : Z) (g : Gym.row) : bool :=
  dt_lt (utcfromtimestamp_ms timestamp) (Gym.last_scanned g).

End GymView.

Module GymExamples.

Definition tower : Gym.row :=
  Gym.mk "g1" 1 0 6 1 (3 # 2) (3 # 2) 0 0 None None None None None
         Examples.noon Examples.noon 0.

(** A gym without a row in [gymdetails]. *)
Definition nameless : Gym.row :=
  Gym.mk "g2" 0 0 6 1 (5 # 2) (5 # 2) 0 0 None None None None None
         Examples.noon Examples.noon 0.

Definition tower_details : GymDetails.row :=
  GymDetails.mk "g1" "Tower" None "http://tower" Examples.noon.

(** A raid on the tower that ends at 13:00. *)
Definition tower_raid : Raid.row :=
  Raid.mk "g1" 5 (Examples.at_hour 11) Examples.noon (Examples.at_hour 13)
          None None None None Examples.noon None None None None.

Definition tower_record : gmap string value :=
  match Gym.emit [tower_details] true (tower, Some tower_raid) with
  | inr d => d
  | inl _ => ∅
  end.

End GymExamples.

Module SchemaExamples.

(** A database of the earlier layout: no [rmversion] table yet. *)
Definition legacy : Schema.database :=
  Schema.mk {[ "pokemon"%string; "rmversions"%string ]} ∅.

Definition migrated : Schema.database :=
  Schema.mk {[ "pokemon"%string; "rmversion"%string ]}
            {[ "schema_version"%string := Some 0 ]}.

End SchemaExamples.

Module TrsSpawnView.

Import TrsSpawnRow.

Definition after (timestamp : Z) (d : option datetime) : bool :=
  match d with
  | Some d => dt_lt (utcfromtimestamp_ms timestamp) d
  | None => false
  end.

(** Scanned, with or without a sighting, strictly after the sync
    timestamp (milliseconds). *)
Definition changed (timestamp : Z) (r : row) : bool :=
  after timestamp (last_scanned r) || after timestamp (last_non_scanned r).

(** The rows [get_spawnpoints] selects, as the sync mode describes them. *)
Definition selected (trs_spawn : list row)
    (swLat swLng neLat neLng oSwLat oSwLng oNeLat oNeLng : option Q)
    (timestamp : Z) : list row :=
  List.filter
    (viewport_diff latitude longitude
       (mode_of (box_of swLat swLng neLat neLng)
                (box_of oSwLat oSwLng oNeLat oNeLng) timestamp)
       (box_of swLat swLng neLat neLng)
       (box_of oSwLat oSwLng oNeLat oNeLng)
       (changed timestamp) (fun _ => true))
    trs_spawn.

(** What a record keeps of its row: id, position and first detection as
    stored, and either the null fragment and no inferred times, or no
    fragment entry and both inferred times. *)
Definition stands_for (r : row) (sp : gmap string scalar) : Prop :=
  sp !! "spawnpoint_id"%string = Some (VStr (spawnpoint r))
  /\ sp !! "latitude"%string = Some (VFloat (latitude r))
  /\ sp !! "longitude"%string = Some (VFloat (longitude r))
  /\ sp !! "first_detection"%string = Some (VDatetime (first_detection r))
  /\ match calc_endminsec r with
     | None =>
         sp !! "end_time"%string = Some VNone
         /\ sp !! "despawn_time"%string = None
         /\ sp !! "spawn_time"%string = None
     | Some _ =>
         sp !! "end_time"%string = None
         /\ exists despawn_time,
              sp !! "despawn_time"%string = Some (VDatetime despawn_time)
              /\ sp !! "spawn_time"%string
                 = Some (VDatetime
                           (dt_sub despawn_time
                              (if spawndef r =? 15 then hours 1
                               else minutes 30)))
     end.

End TrsSpawnView.

Module SpawnRecordExamples.

Definition table : list TrsSpawnRow.row :=
  [ SpawnExamples.spawnpoint 240 (Some (Examples.at_hour 10)) None;
    SpawnExamples.spawnpoint 15 None (Some "05:30"%string) ].

Definition records : list (gmap string scalar) :=
  match TrsSpawn.get_spawnpoints table (fun _ => Examples.noon) (hours 2)
          (Some 1%Q) (Some 1%Q) (Some 3%Q) (Some 3%Q)
          None None None None 0 with
  | inr l => l
  | inl _ => []
  end.

End SpawnRecordExamples.

(** * Auxiliary facts *)

Arguments SQL.cmp : simpl never.
Arguments SQL.ge_q : simpl never.
Arguments SQL.le_q : simpl never.
Arguments SQL.gt_dt : simpl never.
Arguments SQL.ge_dt : simpl never.
Arguments SQL.all_ : simpl never.
Arguments SQL.not_ : simpl never.
Arguments SQL.or_ : simpl never.
Arguments SQL.holds : simpl never.
Arguments in_box : simpl never.
Arguments contains : simpl never.
Arguments Weather.minus : simpl never.
Arguments Weather.plus : simpl never.
Arguments Double.round : simpl never.
Arguments Double.float_ : simpl never.
Arguments Double.sub : simpl never.
Arguments Double.add : simpl never.

Section SQLFacts.

Lemma holds_and a b :
  SQL.holds (SQL.and_ a b) = SQL.holds a && SQL.holds b.
Proof. by destruct a as [[]|], b as [[]|]. Qed.

Lemma holds_all_cons c cs :
  SQL.holds (SQL.all_ (c :: cs)) = SQL.holds c && SQL.holds (SQL.all_ cs).
Proof. apply holds_and. Qed.

Lemma holds_all_nil : SQL.holds (SQL.all_ []) = true.
Proof. reflexivity. Qed.

Lemma holds_all_one c : SQL.holds (SQL.all_ [c]) = SQL.holds c.
Proof. by destruct c as [[]|]. Qed.

Lemma holds_all_app cs ds :
  SQL.holds (SQL.all_ (cs ++ ds))
  = SQL.holds (SQL.all_ cs) && SQL.holds (SQL.all_ ds).
Proof.
  induction cs as [|c cs IH]; [done|].
  rewrite <- app_comm_cons, !holds_all_cons, IH. by rewrite andb_assoc.
Qed.

Lemma all_in_box b lat lng :
  SQL.all_ (in_box lat lng (Some (south b)) (Some (west b))
                   (Some (north b)) (Some (east b)))
  = Some (contains b lat lng).
Proof.
  unfold in_box, contains, SQL.all_, SQL.ge_q, SQL.le_q, SQL.cmp. cbn.
  by destruct (Qle_bool (south b) lat), (Qle_bool (west b) lng),
    (Qle_bool lat (north b)), (Qle_bool lng (east b)).
Qed.

Lemma holds_in_box b lat lng :
  SQL.holds (SQL.all_ (in_box lat lng (Some (south b)) (Some (west b))
                              (Some (north b)) (Some (east b))))
  = contains b lat lng.
Proof. rewrite all_in_box. by destruct (contains b lat lng). Qed.

Lemma holds_not_in_box b lat lng :
  SQL.holds (SQL.not_ (SQL.all_
    (in_box lat lng (Some (south b)) (Some (west b))
            (Some (north b)) (Some (east b)))))
  = negb (contains b lat lng).
Proof. rewrite all_in_box. by destruct (contains b lat lng). Qed.

End SQLFacts.

Section BoxFacts.

Lemma truthy_nonzero x : truthy x = bool_decide (is_Some (nonzero x)).
Proof.
  destruct x as [q|]; simpl; [|done].
  by destruct (Qeq_bool q 0).
Qed.

Lemma truthy_false x : truthy x = false <-> absent_or_zero x.
Proof.
  unfold absent_or_zero. destruct x as [q|]; simpl.
  - rewrite negb_false_iff, Qeq_bool_iff. split.
    + intros H. right. eauto.
    + intros [?|(q' & [= <-] & H)]; done.
  - split; [by left|done].
Qed.

Lemma nonzero_Some x q : nonzero x = Some q -> x = Some q.
Proof.
  destruct x as [q'|]; simpl; [|done].
  by destruct (Qeq_bool q' 0).
Qed.

(** Either the four arguments are all true in an [if], and they are the
    sides of the detected box, or the test fails and no box is detected. *)
Lemma box_of_cases sLat wLng nLat eLng :
  (truthy sLat && truthy wLng && truthy nLat && truthy eLng = true /\
   exists b, box_of sLat wLng nLat eLng = Some b /\
             sLat = Some (south b) /\ wLng = Some (west b) /\
             nLat = Some (north b) /\ eLng = Some (east b))
  \/ (truthy sLat && truthy wLng && truthy nLat && truthy eLng = false /\
      box_of sLat wLng nLat eLng = None).
Proof.
  unfold box_of. rewrite !truthy_nonzero.
  destruct (nonzero sLat) as [s|] eqn:Hs; simpl; [|by right].
  destruct (nonzero wLng) as [w|] eqn:Hw; simpl; [|by right].
  destruct (nonzero nLat) as [n|] eqn:Hn; simpl; [|by right].
  destruct (nonzero eLng) as [e|] eqn:He; simpl; [|by right].
  left. split; [done|]. exists (mk_box s w n e). simpl.
  by rewrite (nonzero_Some _ _ Hs), (nonzero_Some _ _ Hw),
    (nonzero_Some _ _ Hn), (nonzero_Some _ _ He).
Qed.

Lemma box_of_None sLat wLng nLat eLng :
  box_of sLat wLng nLat eLng = None <->
  absent_or_zero sLat \/ absent_or_zero wLng \/
  absent_or_zero nLat \/ absent_or_zero eLng.
Proof.
  rewrite <- !truthy_false.
  destruct (box_of_cases sLat wLng nLat eLng) as [[Ht (b & -> & _)]|[Ht ->]].
  - split; [done|]. intros H.
    apply andb_true_iff in Ht as [Ht ?].
    apply andb_true_iff in Ht as [Ht ?].
    apply andb_true_iff in Ht as [? ?].
    destruct H as [?|[?|[?|?]]]; congruence.
  - split; [|done]. intros _.
    destruct (truthy sLat); [|by left].
    destruct (truthy wLng); [|by right; left].
    destruct (truthy nLat); [|by right; right; left].
    destruct (truthy eLng); [done|by right; right; right].
Qed.

Lemma box_of_detected b :
  ~ (south b == 0)%Q -> ~ (west b == 0)%Q ->
  ~ (north b == 0)%Q -> ~ (east b == 0)%Q ->
  box_of (Some (south b)) (Some (west b)) (Some (north b)) (Some (east b))
  = Some b.
Proof.
  intros Hs Hw Hn He. unfold box_of. simpl.
  rewrite <- Qeq_bool_iff in Hs, Hw, Hn, He.
  apply not_true_is_false in Hs, Hw, Hn, He.
  rewrite Hs, Hw, Hn, He. simpl. by destruct b.
Qed.

End BoxFacts.

(** * Rounding to a double *)

Module DoubleFacts.

Import Double.

Local Open Scope Q_scope.

Lemma pow2_pos e : 0 < pow2 e.
Proof.
  unfold pow2. destruct (0 <=? e)%Z eqn:He.
  - apply Z.leb_le in He. unfold Qlt. simpl.
    pose proof (Z.pow_pos_nonneg 2 e ltac:(lia) He). lia.
  - reflexivity.
Qed.

Lemma pow2_mono e e' : (e <= e')%Z -> pow2 e <= pow2 e'.
Proof.
  intros Hle. unfold pow2.
  destruct (0 <=? e)%Z eqn:He, (0 <=? e')%Z eqn:He';
    try apply Z.leb_le in He; try apply Z.leb_le in He';
    try apply Z.leb_gt in He; try apply Z.leb_gt in He'.
  - rewrite <- Zle_Qle. apply Z.pow_le_mono_r; lia.
  - lia.
  - unfold Qle. simpl.
    pose proof (Z.pow_pos_nonneg 2 e' ltac:(lia) He').
    pose proof (Z.pow_pos_nonneg 2 (- e) ltac:(lia) ltac:(lia)).
    rewrite Z2Pos.id by lia. nia.
  - unfold Qle. simpl.
    pose proof (Z.pow_pos_nonneg 2 (- e') ltac:(lia) ltac:(lia)).
    pose proof (Z.pow_pos_nonneg 2 (- e) ltac:(lia) ltac:(lia)).
    rewrite !Z2Pos.id by lia.
    assert (2 ^ (- e') <= 2 ^ (- e))%Z by (apply Z.pow_le_mono_r; lia).
    lia.
Qed.

(** The nearest integer is at most one half away. *)
Lemma rne_error x : Qabs (inject_Z (rne x) - x) <= 1 # 2.
Proof.
  unfold rne.
  pose proof (Qfloor_le x) as Hlo. pose proof (Qlt_floor x) as Hhi.
  set (f := Qfloor x) in *.
  assert (Hs : inject_Z (f + 1) == inject_Z f + 1) by (rewrite inject_Z_plus; reflexivity).
  apply Qabs_Qle_condition.
  destruct (Qcompare (x - inject_Z f) (1 # 2)) eqn:Hc.
  - apply Qeq_alt in Hc.
    destruct (Z.even f); [|rewrite Hs]; split; lra.
  - apply Qlt_alt in Hc. split; lra.
  - apply Qgt_alt in Hc. rewrite Hs. split; lra.
Qed.

(** Rounding moves a number by at most half a unit in its last place. *)
Lemma round_error q :
  Qabs (round q - q) <= pow2 (exponent q) * (1 # 2).
Proof.
  unfold round. pose proof (pow2_pos (exponent q)) as Hp.
  destruct (Qeq_bool q 0) eqn:Hq.
  - apply Qeq_bool_iff in Hq.
    apply Qabs_Qle_condition. split; lra.
  - rewrite Qred_correct.
    set (p := pow2 (exponent q)) in *.
    pose proof (rne_error (q / p)) as He.
    apply Qabs_Qle_condition in He. destruct He as [He1 He2].
    assert (Hqp : q == (q / p) * p) by (field; lra).
    set (m := inject_Z (rne (q / p))) in *.
    set (y := q / p) in *.
    assert (H1 : 0 <= (m - y + (1 # 2)) * p)
      by (apply Qmult_le_0_compat; lra).
    assert (H2 : 0 <= ((1 # 2) - (m - y)) * p)
      by (apply Qmult_le_0_compat; lra).
    apply Qabs_Qle_condition. split; nra.
Qed.

Lemma ilog2_small q : Qabs q < 512 -> (ilog2 q <= 8)%Z.
Proof.
  intros Hq. unfold ilog2.
  set (k := (Z.log2 (Z.abs (Qnum q)) - Z.log2 (Z.pos (Qden q)))%Z).
  assert (Hk : (k <= 9)%Z).
  { unfold k. destruct q as [n d]. unfold Qabs, Qlt in Hq.
    cbn [Qnum Qden] in *.
    assert (Hle : (Z.abs n <= Z.pos d * 2 ^ 9)%Z)
      by (change (2 ^ 9)%Z with 512%Z; lia).
    apply Z.log2_le_mono in Hle.
    rewrite Z.log2_mul_pow2 in Hle by lia. lia. }
  destruct (Qle_bool (pow2 k) (Qabs q)) eqn:Hc; [|lia].
  apply Qle_bool_iff in Hc.
  destruct (Z.eq_dec k 9%Z) as [->|Hne]; [|lia].
  change (pow2 9%Z) with 512 in Hc. lra.
Qed.

(** Below 512 in magnitude a double is at most 2^-45 away. *)
Lemma round_error_small q :
  Qabs q < 512 -> Qabs (round q - q) <= 1 # 2 ^ 45.
Proof.
  intros Hq. pose proof (round_error q) as He.
  pose proof (ilog2_small q Hq) as Hl.
  assert (Hx : (exponent q <= -44)%Z) by (unfold exponent; lia).
  apply pow2_mono in Hx. change (pow2 (-44)%Z) with (1 # 2 ^ 44) in Hx.
  eapply Qle_trans; [exact He|].
  change (2 ^ 44)%positive with 17592186044416%positive in Hx.
  change (2 ^ 45)%positive with 35184372088832%positive.
  lra.
Qed.

(** [float(s) - d] and [float(s) + d] for a coordinate [s] and a literal
    [d]: within 2^-43 of the exact difference and sum. *)
Lemma sub_float_error s d :
  Qabs s <= 360 -> Qabs d <= 1 ->
  Qabs (sub (float_ s) (float_ d) - (s - d)) <= 1 # 2 ^ 43.
Proof.
  intros Hs Hd. unfold sub, float_.
  apply Qabs_Qle_condition in Hs, Hd.
  assert (H1 : Qabs s < 512) by (apply Qabs_Qlt_condition; lra).
  assert (H2 : Qabs d < 512) by (apply Qabs_Qlt_condition; lra).
  apply round_error_small, Qabs_Qle_condition in H1, H2.
  change (2 ^ 45)%positive with 35184372088832%positive in *.
  assert (H3 : Qabs (round s - round d) < 512)
    by (apply Qabs_Qlt_condition; lra).
  apply round_error_small, Qabs_Qle_condition in H3.
  apply Qabs_Qle_condition.
  change (2 ^ 45)%positive with 35184372088832%positive in *.
  change (2 ^ 43)%positive with 8796093022208%positive.
  lra.
Qed.

Lemma add_float_error s d :
  Qabs s <= 360 -> Qabs d <= 1 ->
  Qabs (add (float_ s) (float_ d) - (s + d)) <= 1 # 2 ^ 43.
Proof.
  intros Hs Hd. unfold add, float_.
  apply Qabs_Qle_condition in Hs, Hd.
  assert (H1 : Qabs s < 512) by (apply Qabs_Qlt_condition; lra).
  assert (H2 : Qabs d < 512) by (apply Qabs_Qlt_condition; lra).
  apply round_error_small, Qabs_Qle_condition in H1, H2.
  change (2 ^ 45)%positive with 35184372088832%positive in *.
  assert (H3 : Qabs (round s + round d) < 512)
    by (apply Qabs_Qlt_condition; lra).
  apply round_error_small, Qabs_Qle_condition in H3.
  apply Qabs_Qle_condition.
  change (2 ^ 45)%positive with 35184372088832%positive in *.
  change (2 ^ 43)%positive with 8796093022208%positive.
  lra.
Qed.

End DoubleFacts.

(** * Sightings: [Pokemon.get_active] *)

Module PokemonFacts.

Import Pokemon PokemonSpec.

Lemma holds_gt_dt_Some a b :
  SQL.holds (SQL.gt_dt (Some a) (Some b)) = dt_lt b a.
Proof. unfold SQL.gt_dt, SQL.cmp. by destruct (dt_lt b a). Qed.

Lemma holds_gt_modified ts p :
  SQL.holds (SQL.gt_dt (last_modified p) (Some (utcfromtimestamp_ms ts)))
  = modified ts p.
Proof.
  unfold modified, SQL.gt_dt, SQL.cmp.
  destruct (last_modified p) as [m|]; [|done].
  by destruct (dt_lt _ m).
Qed.

Lemma sighting_filter_spec utcnow sw sg ne ng osw osg one ong ts p :
  SQL.holds (SQL.all_ (mode_filter utcnow sw sg ne ng osw osg one ong ts p))
  = viewport_diff latitude longitude
      (mode_of (box_of sw sg ne ng) (box_of osw osg one ong) ts)
      (box_of sw sg ne ng) (box_of osw osg one ong)
      (modified ts) (live utcnow) p.
Proof.
  unfold mode_filter, mode_of, select_mode.
  destruct (box_of_cases sw sg ne ng)
    as [[-> (b & -> & -> & -> & -> & ->)]|[-> ->]]; simpl;
    [|by rewrite holds_all_one, holds_gt_dt_Some].
  destruct (0 <? ts); simpl.
  { rewrite !holds_all_cons, holds_gt_modified, holds_gt_dt_Some.
    fold (in_box (latitude p) (longitude p) (Some (south b))
                 (Some (west b)) (Some (north b)) (Some (east b))).
    rewrite holds_in_box. unfold live.
    by destruct (modified ts p), (dt_lt _ _), (contains _ _ _). }
  destruct (box_of_cases osw osg one ong)
    as [[-> (b' & -> & -> & -> & -> & ->)]|[-> ->]]; simpl.
  - rewrite holds_all_cons, holds_gt_dt_Some.
    change (SQL.ge_q _ _ :: _ :: _ :: _ :: ?l) with
      (in_box (latitude p) (longitude p) (Some (south b))
              (Some (west b)) (Some (north b)) (Some (east b)) ++ l).
    rewrite holds_all_app, holds_in_box, holds_all_cons.
    rewrite holds_not_in_box. unfold live. simpl.
    by destruct (dt_lt _ _), (contains b _ _), (contains b' _ _).
  - rewrite holds_all_cons, holds_gt_dt_Some.
    fold (in_box (latitude p) (longitude p) (Some (south b))
                 (Some (west b)) (Some (north b)) (Some (east b))).
    rewrite holds_in_box. unfold live.
    by destruct (dt_lt _ _), (contains _ _ _).
Qed.

(** [get_active] selects the rows that pass the kind-id filter and the
    predicate of the selected mode. *)
Lemma get_active_spec pokemon trs_spawn utcnow speq
    sw sg ne ng osw osg one ong ts eids ids v :
  get_active pokemon trs_spawn utcnow speq
             sw sg ne ng osw osg one ong ts eids ids v
  = map (asdict v)
        (List.filter
           (fun r => kind_ok eids ids r.1
                     && viewport_diff latitude longitude
                          (mode_of (box_of sw sg ne ng)
                                   (box_of osw osg one ong) ts)
                          (box_of sw sg ne ng) (box_of osw osg one ong)
                          (modified ts) (live utcnow) r.1)
           (sightings pokemon trs_spawn speq v)).
Proof.
  unfold get_active, SQL.filter, sightings. f_equal.
  apply List.filter_ext. intros r.
  by rewrite holds_all_app, sighting_filter_spec.
Qed.

End PokemonFacts.

(** * Lists of rows and their id-sets *)

Section RowFacts.

Lemma outerjoin_fst {A B} (on : A -> B -> bool) l r x :
  In x (SQL.outerjoin on l r) -> In x.1 l.
Proof.
  unfold SQL.outerjoin. rewrite in_flat_map. intros (a & Ha & Hx).
  destruct (List.filter (on a) r) as [|b ms].
  - destruct Hx as [<-|[]]. done.
  - apply in_map_iff in Hx as (b' & <- & _). done.
Qed.

Lemma outerjoin_total {A B} (on : A -> B -> bool) l r a :
  In a l -> exists x, In x (SQL.outerjoin on l r) /\ x.1 = a.
Proof.
  intros Ha. unfold SQL.outerjoin.
  destruct (List.filter (on a) r) as [|b ms] eqn:Hf.
  - exists (a, None). split; [|done].
    apply in_flat_map. exists a. split; [done|]. rewrite Hf. by left.
  - exists (a, Some b). split; [|done].
    apply in_flat_map. exists a. split; [done|]. rewrite Hf. by left.
Qed.

Lemma NoDup_map_inj {A} (key : A -> Z) (l : list A) x y :
  List.NoDup (map key l) -> In x l -> In y l -> key x = key y -> x = y.
Proof.
  induction l as [|a l IH]; simpl; [done|].
  intros Hnd Hx Hy Hk. apply List.NoDup_cons_iff in Hnd as [Hna Hnd].
  destruct Hx as [->|Hx], Hy as [->|Hy]; [done| | |by apply IH].
  - destruct Hna. rewrite Hk. by apply in_map.
  - destruct Hna. rewrite <- Hk. by apply in_map.
Qed.

(** Set difference of two selections from the same rows, by key. *)
Lemma ids_difference {A} (key : A -> Z) (l : list A) (f g h : A -> bool) :
  (forall x y, In x l -> In y l -> key x = key y -> g x = g y) ->
  (forall x, h x = f x && negb (g x)) ->
  (list_to_set (map key (List.filter f l)) : gset Z)
    ∖ list_to_set (map key (List.filter g l))
  = list_to_set (map key (List.filter h l)).
Proof.
  intros Hg Hh. apply set_eq. intros z.
  rewrite elem_of_difference, !elem_of_list_to_set, !list_elem_of_In,
    !in_map_iff.
  setoid_rewrite filter_In. setoid_rewrite Hh.
  setoid_rewrite andb_true_iff. setoid_rewrite negb_true_iff.
  split.
  - intros [(x & <- & Hx & Hf) Hn]. exists x. repeat split; try done.
    destruct (g x) eqn:Hgx; [|done]. destruct Hn. by exists x.
  - intros (x & <- & Hx & Hf & Hgx). split; [by exists x|].
    intros (y & Hk & Hy & Hgy). rewrite (Hg y x) in Hgy; congruence.
Qed.

End RowFacts.

Module PokemonIds.

Import Pokemon PokemonSpec.

Lemma sighting_id_of_asdict v r : id_of (asdict v r) = Some (encounter_id r.1).
Proof. destruct v; by vm_compute. Qed.

Lemma sighting_ids_of_map v l :
  ids_of (map (asdict v) l) = list_to_set (map (fun r => encounter_id r.1) l).
Proof.
  unfold ids_of. f_equal.
  induction l as [|r l IH]; [done|].
  cbn [map omap list_omap]. by rewrite sighting_id_of_asdict, IH.
Qed.

Lemma sightings_fst pokemon trs_spawn speq v x :
  In x (sightings pokemon trs_spawn speq v) -> In x.1 pokemon.
Proof.
  unfold sightings. destruct v.
  - apply outerjoin_fst.
  - rewrite in_map_iff. by intros (p & <- & Hp).
Qed.

End PokemonIds.

(** * Scan cells: [ScannedLocation.get_recent] *)

Module ScannedLocationFacts.

Import ScannedLocation ScannedLocationSpec.

Lemma holds_ge_dt a b :
  SQL.holds (SQL.ge_dt a (Some b))
  = match a with Some m => dt_le b m | None => false end.
Proof.
  unfold SQL.ge_dt, SQL.cmp. destruct a as [m|]; [|done].
  by destruct (dt_le b m).
Qed.

Lemma cell_filter_spec utcnow sw sg ne ng osw osg one ong ts r :
  SQL.holds (SQL.all_ (mode_filter utcnow sw sg ne ng osw osg one ong ts r))
  = let m := mode_of (box_of sw sg ne ng) (box_of osw osg one ong) ts in
    viewport_diff latitude longitude m
      (box_of sw sg ne ng) (box_of osw osg one ong) (since ts)
      (fun r => negb (window_in_force m) || recent utcnow r) r.
Proof.
  unfold mode_filter, mode_of, select_mode, active_time.
  destruct (box_of_cases sw sg ne ng)
    as [[-> (b & -> & -> & -> & -> & ->)]|[-> ->]]; simpl;
    [|by rewrite holds_all_one, holds_ge_dt].
  destruct (0 <? ts); simpl.
  { rewrite !holds_all_cons, holds_ge_dt.
    fold (in_box (latitude r) (longitude r) (Some (south b))
                 (Some (west b)) (Some (north b)) (Some (east b))).
    rewrite holds_in_box. unfold since.
    by destruct (last_modified r) as [m|];
      [destruct (dt_le _ m)|]; destruct (contains _ _ _). }
  destruct (box_of_cases osw osg one ong)
    as [[-> (b' & -> & -> & -> & -> & ->)]|[-> ->]]; simpl.
  - rewrite holds_all_cons, holds_ge_dt.
    change (SQL.ge_q _ _ :: _ :: _ :: _ :: ?l) with
      (in_box (latitude r) (longitude r) (Some (south b))
              (Some (west b)) (Some (north b)) (Some (east b)) ++ l).
    rewrite holds_all_app, holds_in_box, holds_all_one.
    rewrite holds_not_in_box. unfold recent.
    by destruct (last_modified r) as [m|];
      [destruct (dt_le _ m)|];
      destruct (contains b _ _), (contains b' _ _).
  - rewrite holds_all_cons, holds_ge_dt.
    fold (in_box (latitude r) (longitude r) (Some (south b))
                 (Some (west b)) (Some (north b)) (Some (east b))).
    rewrite holds_in_box. unfold recent.
    by destruct (last_modified r) as [m|];
      [destruct (dt_le _ m)|]; destruct (contains _ _ _).
Qed.

Lemma get_recent_spec scannedlocation utcnow
    sw sg ne ng osw osg one ong ts :
  get_recent scannedlocation utcnow sw sg ne ng osw osg one ong ts
  = let m := mode_of (box_of sw sg ne ng) (box_of osw osg one ong) ts in
    map asdict
      (List.filter
         (viewport_diff latitude longitude m
            (box_of sw sg ne ng) (box_of osw osg one ong) (since ts)
            (fun r => negb (window_in_force m) || recent utcnow r))
         scannedlocation).
Proof.
  unfold get_recent, SQL.filter. cbv zeta. f_equal.
  apply List.filter_ext. intros r. apply cell_filter_spec.
Qed.

Lemma cell_id_of_asdict r : id_of (asdict r) = Some (cellid r).
Proof. by vm_compute. Qed.

Lemma cell_ids_of_map l :
  ids_of (map asdict l) = list_to_set (map cellid l).
Proof.
  unfold ids_of. f_equal.
  induction l as [|r l IH]; [done|].
  cbn [map omap list_omap]. by rewrite cell_id_of_asdict, IH.
Qed.

End ScannedLocationFacts.

(** * The differential viewport property *)

Lemma detected_box_of b :
  detected b ->
  box_of (Some (south b)) (Some (west b)) (Some (north b)) (Some (east b))
  = Some b.
Proof. intros (?&?&?&?). by apply box_of_detected. Qed.

Lemma mode_of_fallback b ts :
  ts <= 0 -> mode_of (Some b) None ts = Fallback.
Proof.
  intros Hts. unfold mode_of, select_mode.
  apply Z.ltb_ge in Hts. by rewrite Hts.
Qed.

Lemma mode_of_panned b b' ts :
  ts <= 0 -> mode_of (Some b) (Some b') ts = Panned.
Proof.
  intros Hts. unfold mode_of, select_mode.
  apply Z.ltb_ge in Hts. by rewrite Hts.
Qed.

Lemma mode_of_delta b prev ts :
  0 < ts -> mode_of (Some b) prev ts = Delta.
Proof.
  intros Hts. unfold mode_of, select_mode.
  apply Z.ltb_lt in Hts. by rewrite Hts.
Qed.

Lemma box_of_absent : box_of None None None None = None.
Proof. reflexivity. Qed.

(** C1. Differential viewport property.  For a fixed dataset (whose primary
    keys are unique), a fixed instant and two detected boxes [B] and
    [Bprev], the ids returned by the fallback-mode query for [B], minus the
    ids returned by the fallback-mode query for [Bprev], are exactly the ids
    returned by the panned-mode query with current box [B] and previous box
    [Bprev]; this holds for [Pokemon.get_active] and for
    [ScannedLocation.get_recent]. *)
Theorem differential_viewport
    (pokemon : list Pokemon.row) (trs_spawn : list TrsSpawnRow.row)
    (scannedlocation : list ScannedLocation.row)
    (utcnow : datetime) (spawnpoint_eq : Z -> string -> bool)
    (B Bprev : BoundingBox) (timestamp : Z)
    (eids ids : option (list Z)) (verified_despawn_time : bool) :
  List.NoDup (map Pokemon.encounter_id pokemon) ->
  List.NoDup (map ScannedLocation.cellid scannedlocation) ->
  detected B -> detected Bprev -> timestamp <= 0 ->
  let sightings_fallback b :=
    Pokemon.get_active pokemon trs_spawn utcnow spawnpoint_eq
      (Some (south b)) (Some (west b)) (Some (north b)) (Some (east b))
      None None None None timestamp eids ids verified_despawn_time in
  let sightings_panned :=
    Pokemon.get_active pokemon trs_spawn utcnow spawnpoint_eq
      (Some (south B)) (Some (west B)) (Some (north B)) (Some (east B))
      (Some (south Bprev)) (Some (west Bprev))
      (Some (north Bprev)) (Some (east Bprev))
      timestamp eids ids verified_despawn_time in
  let cells_fallback b :=
    ScannedLocation.get_recent scannedlocation utcnow
      (Some (south b)) (Some (west b)) (Some (north b)) (Some (east b))
      None None None None timestamp in
  let cells_panned :=
    ScannedLocation.get_recent scannedlocation utcnow
      (Some (south B)) (Some (west B)) (Some (north B)) (Some (east B))
      (Some (south Bprev)) (Some (west Bprev))
      (Some (north Bprev)) (Some (east Bprev)) timestamp in
  Pokemon.ids_of (sightings_fallback B)
    ∖ Pokemon.ids_of (sightings_fallback Bprev)
  = Pokemon.ids_of sightings_panned
  /\ ScannedLocation.ids_of (cells_fallback B)
       ∖ ScannedLocation.ids_of (cells_fallback Bprev)
     = ScannedLocation.ids_of cells_panned.
Proof.
  intros Hpk Hck HB HBp Hts. cbv zeta. split.
  - rewrite !PokemonFacts.get_active_spec, !PokemonIds.sighting_ids_of_map.
    rewrite !(detected_box_of _ HB), !(detected_box_of _ HBp), box_of_absent.
    rewrite !mode_of_fallback, mode_of_panned by done.
    apply ids_difference.
    + intros x y Hx Hy Hk.
      apply PokemonIds.sightings_fst in Hx, Hy.
      by rewrite (NoDup_map_inj _ _ _ _ Hpk Hx Hy Hk).
    + intros x. simpl.
      by destruct (PokemonSpec.kind_ok eids ids x.1),
        (contains B _ _), (contains Bprev _ _), (PokemonSpec.live utcnow x.1).
  - rewrite !ScannedLocationFacts.get_recent_spec. cbv zeta.
    rewrite !ScannedLocationFacts.cell_ids_of_map.
    rewrite !(detected_box_of _ HB), !(detected_box_of _ HBp), box_of_absent.
    rewrite !mode_of_fallback, mode_of_panned by done.
    apply ids_difference.
    + intros x y Hx Hy Hk.
      by rewrite (NoDup_map_inj _ _ _ _ Hck Hx Hy Hk).
    + intros x. simpl.
      by destruct (contains B _ _), (contains Bprev _ _),
        (ScannedLocationSpec.recent utcnow x).
Qed.

Lemma differential_viewport_witness :
  Pokemon.ids_of
    (Pokemon.get_active Examples.sightings [] Examples.noon Examples.no_join
       (Some 1%Q) (Some 1%Q) (Some 3%Q) (Some 3%Q) None None None None
       0 None None false)
    ∖ Pokemon.ids_of
        (Pokemon.get_active Examples.sightings [] Examples.noon
           Examples.no_join
           (Some 2%Q) (Some 2%Q) (Some 4%Q) (Some 4%Q) None None None None
           0 None None false)
  = Pokemon.ids_of
      (Pokemon.get_active Examples.sightings [] Examples.noon Examples.no_join
         (Some 1%Q) (Some 1%Q) (Some 3%Q) (Some 3%Q)
         (Some 2%Q) (Some 2%Q) (Some 4%Q) (Some 4%Q) 0 None None false)
  /\ ScannedLocation.ids_of
       (ScannedLocation.get_recent Examples.cells Examples.noon
          (Some 1%Q) (Some 1%Q) (Some 3%Q) (Some 3%Q) None None None None 0)
       ∖ ScannedLocation.ids_of
           (ScannedLocation.get_recent Examples.cells Examples.noon
              (Some 2%Q) (Some 2%Q) (Some 4%Q) (Some 4%Q)
              None None None None 0)
     = ScannedLocation.ids_of
         (ScannedLocation.get_recent Examples.cells Examples.noon
            (Some 1%Q) (Some 1%Q) (Some 3%Q) (Some 3%Q)
            (Some 2%Q) (Some 2%Q) (Some 4%Q) (Some 4%Q) 0).
Proof.
  apply (differential_viewport Examples.sightings [] Examples.cells
           Examples.noon Examples.no_join Examples.box13 Examples.box24
           0 None None false).
  - repeat constructor; simpl; intuition discriminate.
  - repeat constructor; simpl; intuition discriminate.
  - repeat split; discriminate.
  - repeat split; discriminate.
  - lia.
Defined.

(** * Weather cells: [Weather.get_weather] *)

Module WeatherFacts.

Import Weather WeatherSpec.

Lemma contains_loosen b lat lng :
  contains (loosen b) lat lng = true <-> within_tolerance b lat lng.
Proof.
  unfold contains, loosen, expanded, within_tolerance. simpl.
  rewrite !andb_true_iff, !Qle_bool_iff. tauto.
Qed.

(** The rounded bounds are within [rounding_slack] of the exact ones. *)
Lemma rounded_near b lat lng :
  in_degrees b ->
  (contains (loosen_by (- rounding_slack) b) lat lng = true ->
   contains (rounded b) lat lng = true)
  /\ (contains (rounded b) lat lng = true ->
      contains (loosen_by rounding_slack b) lat lng = true).
Proof.
  intros (Hs & Hw & Hn & He).
  assert (Hlat : (Qabs (15 # 100) <= 1)%Q) by discriminate.
  assert (Hlng : (Qabs (4 # 10) <= 1)%Q) by discriminate.
  pose proof (DoubleFacts.sub_float_error _ _ Hs Hlat) as Es.
  pose proof (DoubleFacts.sub_float_error _ _ Hw Hlng) as Ew.
  pose proof (DoubleFacts.add_float_error _ _ Hn Hlat) as En.
  pose proof (DoubleFacts.add_float_error _ _ He Hlng) as Ee.
  apply Qabs_Qle_condition in Es, Ew, En, Ee.
  unfold contains, rounded, loosen_by, expanded, rounding_slack.
  cbn [south west north east].
  fold lat_delta lng_delta in Es, Ew, En, Ee.
  change (2 ^ 43)%positive with 8796093022208%positive in *.
  rewrite !andb_true_iff, !Qle_bool_iff.
  split; intros (((H1 & H2) & H3) & H4); repeat split; lra.
Qed.

Lemma holds_loose_box b lat lng :
  SQL.holds (SQL.all_
    [ SQL.ge_q (Some lat) (minus (Some (south b)) lat_delta);
      SQL.ge_q (Some lng) (minus (Some (west b)) lng_delta);
      SQL.le_q (Some lat) (plus (Some (north b)) lat_delta);
      SQL.le_q (Some lng) (plus (Some (east b)) lng_delta) ])
  = contains (rounded b) lat lng.
Proof. apply (holds_in_box (rounded b)). Qed.

Lemma holds_not_loose_box b lat lng :
  SQL.holds (SQL.not_ (SQL.all_
    [ SQL.ge_q (Some lat) (minus (Some (south b)) lat_delta);
      SQL.ge_q (Some lng) (minus (Some (west b)) lng_delta);
      SQL.le_q (Some lat) (plus (Some (north b)) lat_delta);
      SQL.le_q (Some lng) (plus (Some (east b)) lng_delta) ]))
  = negb (contains (rounded b) lat lng).
Proof. apply (holds_not_in_box (rounded b)). Qed.

Lemma holds_gt_updated ts r :
  SQL.holds (SQL.gt_dt (last_updated r) (Some (utcfromtimestamp_ms ts)))
  = updated ts r.
Proof.
  unfold updated, SQL.gt_dt, SQL.cmp.
  destruct (last_updated r) as [m|]; [|done].
  by destruct (dt_lt _ m).
Qed.

Lemma weather_filter_spec sw sg ne ng osw osg one ong ts r :
  SQL.holds (SQL.all_ (mode_filter sw sg ne ng osw osg one ong ts r))
  = viewport_diff latitude longitude
      (mode_of (box_of sw sg ne ng) (box_of osw osg one ong) ts)
      (rounded <$> box_of sw sg ne ng) (rounded <$> box_of osw osg one ong)
      (updated ts) (fun _ => true) r.
Proof.
  unfold mode_filter, mode_of, select_mode.
  destruct (box_of_cases sw sg ne ng)
    as [[-> (b & -> & -> & -> & -> & ->)]|[-> ->]]; simpl; [|done].
  destruct (0 <? ts); simpl.
  { rewrite holds_all_cons, holds_gt_updated, holds_loose_box.
    by destruct (updated ts r), (contains _ _ _). }
  destruct (box_of_cases osw osg one ong)
    as [[-> (b' & -> & -> & -> & -> & ->)]|[-> ->]]; simpl.
  - change (SQL.ge_q ?a ?a' :: ?b0 :: ?c :: ?d :: ?l) with
      ([SQL.ge_q a a'; b0; c; d] ++ l).
    rewrite holds_all_app, holds_loose_box, holds_all_one.
    rewrite holds_not_loose_box.
    by destruct (contains (rounded b) _ _), (contains (rounded b') _ _).
  - rewrite holds_loose_box. by destruct (contains _ _ _).
Qed.

Lemma get_weather_spec weather sw sg ne ng osw osg one ong ts :
  get_weather weather sw sg ne ng osw osg one ong ts
  = map asdict
      (List.filter
         (viewport_diff latitude longitude
            (mode_of (box_of sw sg ne ng) (box_of osw osg one ong) ts)
            (rounded <$> box_of sw sg ne ng)
            (rounded <$> box_of osw osg one ong)
            (updated ts) (fun _ => true))
         weather).
Proof.
  unfold get_weather, SQL.filter. f_equal.
  apply List.filter_ext. intros r. apply weather_filter_spec.
Qed.

Lemma asdict_position r :
  asdict r !! "latitude"%string = Some (VFloat (latitude r)) /\
  asdict r !! "longitude"%string = Some (VFloat (longitude r)).
Proof. by vm_compute. Qed.

End WeatherFacts.

(** * Mode selection, box detection and the kind filters *)

Lemma box_present_truthy sLat wLng nLat eLng :
  bool_decide (is_Some (box_of sLat wLng nLat eLng))
  = truthy sLat && truthy wLng && truthy nLat && truthy eLng.
Proof.
  destruct (box_of_cases sLat wLng nLat eLng)
    as [[-> (b & -> & _)]|[-> ->]]; done.
Qed.

Lemma mode_of_no_box prev ts : mode_of None prev ts = NoBox.
Proof. reflexivity. Qed.

Lemma filter_all {A} (l : list A) : List.filter (fun _ => true) l = l.
Proof. induction l as [|a l IH]; simpl; congruence. Qed.

(** C4. Sync-mode selection in [Pokemon.get_active].  For every input the
    query returns the rows that pass the predicate of the one mode that
    [select_mode] assigns to (box present, previousBox present,
    sinceTimestamp > 0), presence being the truth value the code tests;
    [select_mode] tests no-box, then timestamp, then panned, then fallback.
    In particular a positive timestamp with a previous box present selects
    the timestamp mode: inside the box, modified after the timestamp, and
    live. *)
Theorem mode_selection_total
    (pokemon : list Pokemon.row) (trs_spawn : list TrsSpawnRow.row)
    (utcnow : datetime) (spawnpoint_eq : Z -> string -> bool)
    (swLat swLng neLat neLng oSwLat oSwLng oNeLat oNeLng : option Q)
    (timestamp : Z) (eids ids : option (list Z))
    (verified_despawn_time : bool) :
  Pokemon.get_active pokemon trs_spawn utcnow spawnpoint_eq
    swLat swLng neLat neLng oSwLat oSwLng oNeLat oNeLng
    timestamp eids ids verified_despawn_time
  = map (Pokemon.asdict verified_despawn_time)
      (List.filter
         (fun r =>
            PokemonSpec.kind_ok eids ids r.1
            && viewport_diff Pokemon.latitude Pokemon.longitude
                 (select_mode
                    (truthy swLat && truthy swLng
                     && truthy neLat && truthy neLng)
                    (truthy oSwLat && truthy oSwLng
                     && truthy oNeLat && truthy oNeLng)
                    (0 <? timestamp))
                 (box_of swLat swLng neLat neLng)
                 (box_of oSwLat oSwLng oNeLat oNeLng)
                 (PokemonSpec.modified timestamp)
                 (PokemonSpec.live utcnow) r.1)
         (PokemonSpec.sightings pokemon trs_spawn spawnpoint_eq
                                verified_despawn_time))
  /\ (forall prev_present since_positive,
        select_mode false prev_present since_positive = NoBox)
  /\ (forall prev_present, select_mode true prev_present true = Delta)
  /\ select_mode true true false = Panned
  /\ select_mode true false false = Fallback
  /\ (forall box prev p,
        viewport_diff Pokemon.latitude Pokemon.longitude
          (select_mode true true true) box prev
          (PokemonSpec.modified timestamp) (PokemonSpec.live utcnow) p
        = inside Pokemon.latitude Pokemon.longitude box p
          && PokemonSpec.modified timestamp p && PokemonSpec.live utcnow p).
Proof.
  split; [|done].
  rewrite PokemonFacts.get_active_spec. unfold mode_of.
  by rewrite !box_present_truthy.
Qed.

(** C10. Box detection by truth value.  When one of the four current-box
    coordinates is [None] or exactly 0, [Pokemon.get_active],
    [Weather.get_weather] and [ScannedLocation.get_recent] run in the no-box
    mode whatever the other arguments are: the sightings are filtered by kind
    and liveness only, every weather cell is returned, and the scan cells are
    filtered by the 15-minute window only.  With a detected box and no
    positive timestamp, a previous box one of whose coordinates is [None] or
    0 is treated as not supplied. *)
Theorem zero_coordinate_means_no_box
    (pokemon : list Pokemon.row) (trs_spawn : list TrsSpawnRow.row)
    (weather : list Weather.row) (scannedlocation : list ScannedLocation.row)
    (utcnow : datetime) (spawnpoint_eq : Z -> string -> bool)
    (swLat swLng neLat neLng oSwLat oSwLng oNeLat oNeLng : option Q)
    (timestamp : Z) (eids ids : option (list Z))
    (verified_despawn_time : bool) :
  (absent_or_zero swLat \/ absent_or_zero swLng \/
   absent_or_zero neLat \/ absent_or_zero neLng ->
   Pokemon.get_active pokemon trs_spawn utcnow spawnpoint_eq
     swLat swLng neLat neLng oSwLat oSwLng oNeLat oNeLng
     timestamp eids ids verified_despawn_time
   = map (Pokemon.asdict verified_despawn_time)
       (List.filter
          (fun r => PokemonSpec.kind_ok eids ids r.1
                    && PokemonSpec.live utcnow r.1)
          (PokemonSpec.sightings pokemon trs_spawn spawnpoint_eq
                                 verified_despawn_time))
   /\ Weather.get_weather weather
        swLat swLng neLat neLng oSwLat oSwLng oNeLat oNeLng timestamp
      = map Weather.asdict weather
   /\ ScannedLocation.get_recent scannedlocation utcnow
        swLat swLng neLat neLng oSwLat oSwLng oNeLat oNeLng timestamp
      = map ScannedLocation.asdict
          (List.filter (ScannedLocationSpec.recent utcnow) scannedlocation))
  /\ (truthy swLat && truthy swLng && truthy neLat && truthy neLng = true ->
      timestamp <= 0 ->
      absent_or_zero oSwLat \/ absent_or_zero oSwLng \/
      absent_or_zero oNeLat \/ absent_or_zero oNeLng ->
      Pokemon.get_active pokemon trs_spawn utcnow spawnpoint_eq
        swLat swLng neLat neLng oSwLat oSwLng oNeLat oNeLng
        timestamp eids ids verified_despawn_time
      = Pokemon.get_active pokemon trs_spawn utcnow spawnpoint_eq
          swLat swLng neLat neLng None None None None
          timestamp eids ids verified_despawn_time
      /\ Weather.get_weather weather
           swLat swLng neLat neLng oSwLat oSwLng oNeLat oNeLng timestamp
         = Weather.get_weather weather
             swLat swLng neLat neLng None None None None timestamp
      /\ ScannedLocation.get_recent scannedlocation utcnow
           swLat swLng neLat neLng oSwLat oSwLng oNeLat oNeLng timestamp
         = ScannedLocation.get_recent scannedlocation utcnow
             swLat swLng neLat neLng None None None None timestamp).
Proof.
  split.
  - intros Hbox. apply box_of_None in Hbox.
    rewrite PokemonFacts.get_active_spec, WeatherFacts.get_weather_spec,
      ScannedLocationFacts.get_recent_spec.
    rewrite Hbox, !mode_of_no_box. simpl.
    by rewrite filter_all.
  - intros Hbox Hts Hprev. apply box_of_None in Hprev.
    rewrite !PokemonFacts.get_active_spec, !WeatherFacts.get_weather_spec,
      !ScannedLocationFacts.get_recent_spec.
    by rewrite Hprev, box_of_absent.
Qed.

Lemma zero_coordinate_means_no_box_witness :
  (Pokemon.get_active Examples.sightings [] Examples.noon Examples.no_join
     (Some 0%Q) (Some 1%Q) (Some 3%Q) (Some 3%Q) None None None None
     0 None None false
   = map (Pokemon.asdict false)
       (List.filter
          (fun r => PokemonSpec.kind_ok None None r.1
                    && PokemonSpec.live Examples.noon r.1)
          (PokemonSpec.sightings Examples.sightings [] Examples.no_join
                                 false))
   /\ Weather.get_weather Examples.weather_cells
        (Some 0%Q) (Some 1%Q) (Some 3%Q) (Some 3%Q) None None None None 0
      = map Weather.asdict Examples.weather_cells
   /\ ScannedLocation.get_recent Examples.cells Examples.noon
        (Some 0%Q) (Some 1%Q) (Some 3%Q) (Some 3%Q) None None None None 0
      = map ScannedLocation.asdict
          (List.filter (ScannedLocationSpec.recent Examples.noon)
                       Examples.cells))
  /\ (Pokemon.get_active Examples.sightings [] Examples.noon Examples.no_join
        (Some 1%Q) (Some 1%Q) (Some 3%Q) (Some 3%Q)
        (Some 2%Q) (Some 0%Q) (Some 4%Q) (Some 4%Q) 0 None None false
      = Pokemon.get_active Examples.sightings [] Examples.noon
          Examples.no_join
          (Some 1%Q) (Some 1%Q) (Some 3%Q) (Some 3%Q) None None None None
          0 None None false
      /\ Weather.get_weather Examples.weather_cells
           (Some 1%Q) (Some 1%Q) (Some 3%Q) (Some 3%Q)
           (Some 2%Q) (Some 0%Q) (Some 4%Q) (Some 4%Q) 0
         = Weather.get_weather Examples.weather_cells
             (Some 1%Q) (Some 1%Q) (Some 3%Q) (Some 3%Q)
             None None None None 0
      /\ ScannedLocation.get_recent Examples.cells Examples.noon
           (Some 1%Q) (Some 1%Q) (Some 3%Q) (Some 3%Q)
           (Some 2%Q) (Some 0%Q) (Some 4%Q) (Some 4%Q) 0
         = ScannedLocation.get_recent Examples.cells Examples.noon
             (Some 1%Q) (Some 1%Q) (Some 3%Q) (Some 3%Q)
             None None None None 0).
Proof.
  split.
  - refine (proj1 (zero_coordinate_means_no_box Examples.sightings []
                     Examples.weather_cells
                     Examples.cells Examples.noon Examples.no_join
                     (Some 0%Q) (Some 1%Q) (Some 3%Q) (Some 3%Q)
                     None None None None 0 None None false) _).
    left. unfold absent_or_zero. right. exists 0%Q. split; reflexivity.
  - refine (proj2 (zero_coordinate_means_no_box Examples.sightings []
                     Examples.weather_cells
                     Examples.cells Examples.noon Examples.no_join
                     (Some 1%Q) (Some 1%Q) (Some 3%Q) (Some 3%Q)
                     (Some 2%Q) (Some 0%Q) (Some 4%Q) (Some 4%Q)
                     0 None None false) _ _ _).
    + reflexivity.
    + lia.
    + right. left. unfold absent_or_zero. right. exists 0%Q.
      split; reflexivity.
Defined.

Lemma sighting_kind_of_asdict v r :
  Pokemon.asdict v r !! "pokemon_id"%string
  = Some (VInt (Pokemon.pokemon_id r.1)).
Proof. destruct v; by vm_compute. Qed.

Lemma kind_ok_exclusion e ids p :
  e <> [] ->
  PokemonSpec.kind_ok (Some e) ids p
  = negb (bool_decide (Pokemon.pokemon_id p ∈ e)).
Proof.
  intros He. unfold PokemonSpec.kind_ok, Pokemon.kind_filter.
  destruct e as [|k e]; [done|]. simpl.
  rewrite holds_all_one. by destruct (bool_decide _).
Qed.

(** C6, as the code has it.  When both a non-empty exclusion set [eids] and
    a non-empty inclusion set [ids] are given to [Pokemon.get_active], only
    one of the two filters is applied, and it is the exclusion filter: the
    result is the one obtained without any inclusion set, namely the rows
    matching the sync mode whose [pokemon_id] is not in [eids]. *)
Theorem exclusion_takes_priority
    (pokemon : list Pokemon.row) (trs_spawn : list TrsSpawnRow.row)
    (utcnow : datetime) (spawnpoint_eq : Z -> string -> bool)
    (swLat swLng neLat neLng oSwLat oSwLng oNeLat oNeLng : option Q)
    (timestamp : Z) (e i : list Z) (verified_despawn_time : bool) :
  e <> [] -> i <> [] ->
  let result :=
    Pokemon.get_active pokemon trs_spawn utcnow spawnpoint_eq
      swLat swLng neLat neLng oSwLat oSwLng oNeLat oNeLng
      timestamp (Some e) (Some i) verified_despawn_time in
  result
  = Pokemon.get_active pokemon trs_spawn utcnow spawnpoint_eq
      swLat swLng neLat neLng oSwLat oSwLng oNeLat oNeLng
      timestamp (Some e) None verified_despawn_time
  /\ result
     = map (Pokemon.asdict verified_despawn_time)
         (List.filter
            (fun r =>
               negb (bool_decide (Pokemon.pokemon_id r.1 ∈ e))
               && viewport_diff Pokemon.latitude Pokemon.longitude
                    (mode_of (box_of swLat swLng neLat neLng)
                             (box_of oSwLat oSwLng oNeLat oNeLng) timestamp)
                    (box_of swLat swLng neLat neLng)
                    (box_of oSwLat oSwLng oNeLat oNeLng)
                    (PokemonSpec.modified timestamp)
                    (PokemonSpec.live utcnow) r.1)
            (PokemonSpec.sightings pokemon trs_spawn spawnpoint_eq
                                   verified_despawn_time))
  /\ (forall d, In d result ->
        exists k, d !! "pokemon_id"%string = Some (VInt k) /\ k ∉ e).
Proof.
  intros He Hi. cbv zeta.
  rewrite !PokemonFacts.get_active_spec.
  assert (Hk : forall r : Pokemon.row * option TrsSpawnRow.row,
             PokemonSpec.kind_ok (Some e) (Some i) r.1
             = negb (bool_decide (Pokemon.pokemon_id r.1 ∈ e)))
    by (intros r; by apply kind_ok_exclusion).
  split; [|split].
  - f_equal. apply List.filter_ext. intros r.
    by rewrite !kind_ok_exclusion.
  - f_equal. apply List.filter_ext. intros r. by rewrite Hk.
  - intros d Hd. apply in_map_iff in Hd as (r & <- & Hr).
    apply filter_In in Hr as [_ Hr].
    apply andb_true_iff in Hr as [Hr _]. rewrite Hk in Hr.
    exists (Pokemon.pokemon_id r.1). split.
    + apply sighting_kind_of_asdict.
    + apply negb_true_iff, bool_decide_eq_false in Hr. done.
Qed.

Lemma exclusion_takes_priority_witness :
  let result :=
    Pokemon.get_active Examples.sightings [] Examples.noon Examples.no_join
      None None None None None None None None 0 (Some [2]) (Some [1]) false in
  result
  = Pokemon.get_active Examples.sightings [] Examples.noon Examples.no_join
      None None None None None None None None 0 (Some [2]) None false
  /\ result
     = map (Pokemon.asdict false)
         (List.filter
            (fun r =>
               negb (bool_decide (Pokemon.pokemon_id r.1 ∈ [2]))
               && viewport_diff Pokemon.latitude Pokemon.longitude
                    (mode_of (box_of None None None None)
                             (box_of None None None None) 0)
                    (box_of None None None None)
                    (box_of None None None None)
                    (PokemonSpec.modified 0)
                    (PokemonSpec.live Examples.noon) r.1)
            (PokemonSpec.sightings Examples.sightings [] Examples.no_join
                                   false))
  /\ (forall d, In d result ->
        exists k, d !! "pokemon_id"%string = Some (VInt k) /\ k ∉ [2]).
Proof.
  apply (exclusion_takes_priority Examples.sightings [] Examples.noon
           Examples.no_join None None None None None None None None
           0 [2] [1] false); discriminate.
Defined.

(** C6 as stated fails: with [eids = [2]] and [ids = [1]] the result holds
    the sighting of kind 3, which is not in the inclusion set, and it is not
    the result of the inclusion filter alone. *)
Lemma inclusion_priority_counterexample :
  let result :=
    Pokemon.get_active Examples.sightings [] Examples.noon Examples.no_join
      None None None None None None None None 0 (Some [2]) (Some [1]) false in
  ~ (forall d, In d result ->
       exists k, d !! "pokemon_id"%string = Some (VInt k) /\ k ∈ [1])
  /\ result
     <> Pokemon.get_active Examples.sightings [] Examples.noon
          Examples.no_join
          None None None None None None None None 0 None (Some [1]) false.
Proof.
  cbv zeta. split.
  - intros H.
    destruct (H (Pokemon.asdict false
                   (Examples.sighting 3 3 (7 # 2) (7 # 2)
                      (Examples.at_hour 13), None)))
      as (k & Hk & Hin).
    + rewrite PokemonFacts.get_active_spec. apply in_map, filter_In. split.
      * simpl. right. right. left. reflexivity.
      * by vm_compute.
    + rewrite sighting_kind_of_asdict in Hk. simpl in Hk.
      injection Hk as <-. apply list_elem_of_In in Hin.
      simpl in Hin. intuition discriminate.
  - intros H. apply (f_equal (@length _)) in H.
    rewrite !PokemonFacts.get_active_spec, !length_map in H.
    vm_compute in H. discriminate.
Qed.

(** C7, as the code has it.  In [ScannedLocation.get_recent] the 15-minute
    "recently active" window ([last_modified >= utcnow - 15 minutes]) is part
    of the query in the no-box, panned and fallback modes; only the timestamp
    mode leaves it out (and asks for [last_modified] at or after the
    timestamp instead). *)
Theorem recent_window_modes
    (scannedlocation : list ScannedLocation.row) (utcnow : datetime)
    (swLat swLng neLat neLng oSwLat oSwLng oNeLat oNeLng : option Q)
    (timestamp : Z) :
  let box := box_of swLat swLng neLat neLng in
  let prev := box_of oSwLat oSwLng oNeLat oNeLng in
  let recent := ScannedLocationSpec.recent utcnow in
  let since := ScannedLocationSpec.since timestamp in
  let within b r :=
    inside ScannedLocation.latitude ScannedLocation.longitude b r in
  ScannedLocation.get_recent scannedlocation utcnow
    swLat swLng neLat neLng oSwLat oSwLng oNeLat oNeLng timestamp
  = map ScannedLocation.asdict
      (List.filter
         (fun r =>
            match select_mode
                    (truthy swLat && truthy swLng
                     && truthy neLat && truthy neLng)
                    (truthy oSwLat && truthy oSwLng
                     && truthy oNeLat && truthy oNeLng)
                    (0 <? timestamp) with
            | NoBox => recent r
            | Delta => within box r && since r
            | Panned => within box r && recent r && negb (within prev r)
            | Fallback => within box r && recent r
            end)
         scannedlocation).
Proof.
  cbv zeta. rewrite ScannedLocationFacts.get_recent_spec. cbv zeta.
  unfold mode_of. rewrite !box_present_truthy.
  f_equal. apply List.filter_ext. intros r.
  destruct (select_mode _ _ _); simpl; [done| |done|done].
  by rewrite andb_true_r.
Qed.

(** C7 as stated fails: a scan cell last modified an hour ago is dropped by
    the window in the no-box mode and in the panned mode, where the same cell
    modified just now is returned. *)
Lemma window_only_in_fallback_counterexample :
  let stale := Examples.cell 1 (3 # 2) (3 # 2) (Examples.at_hour 11) in
  let fresh := Examples.cell 1 (3 # 2) (3 # 2) Examples.noon in
  ScannedLocation.get_recent [stale] Examples.noon
    None None None None None None None None 0 = []
  /\ ScannedLocation.get_recent [fresh] Examples.noon
       None None None None None None None None 0
     = [ScannedLocation.asdict fresh]
  /\ ScannedLocation.get_recent [stale] Examples.noon
       (Some 1%Q) (Some 1%Q) (Some 3%Q) (Some 3%Q)
       (Some 2%Q) (Some 2%Q) (Some 4%Q) (Some 4%Q) 0 = []
  /\ ScannedLocation.get_recent [fresh] Examples.noon
       (Some 1%Q) (Some 1%Q) (Some 3%Q) (Some 3%Q)
       (Some 2%Q) (Some 2%Q) (Some 4%Q) (Some 4%Q) 0
     = [ScannedLocation.asdict fresh].
Proof. cbv zeta. repeat split; reflexivity. Qed.

(** C8. Weather-cell tolerance.  Whenever [Weather.get_weather] detects a
    box [b], the containment test of the selected mode is made against the
    box whose sides are [float(side) - 0.15], [float(side) - 0.4],
    [float(side) + 0.15] and [float(side) + 0.4] in double arithmetic, and
    against the previous box widened in the same way.  For coordinates of
    at most 360 degrees each of these bounds is within 2^-43 of the exact
    one: a point inside the box loosened by the tolerance less 2^-43 passes
    the test, and a point that passes lies inside the box loosened by the
    tolerance plus 2^-43.  Every emitted cell passes the test against [b];
    in the fallback mode a cell is returned exactly when it does. *)
Theorem weather_tolerance
    (weather : list Weather.row) (b : BoundingBox)
    (oSwLat oSwLng oNeLat oNeLng : option Q) (timestamp : Z) :
  detected b ->
  let prev := box_of oSwLat oSwLng oNeLat oNeLng in
  let result :=
    Weather.get_weather weather
      (Some (south b)) (Some (west b)) (Some (north b)) (Some (east b))
      oSwLat oSwLng oNeLat oNeLng timestamp in
  result
  = map Weather.asdict
      (List.filter
         (fun r =>
            let lat := Weather.latitude r in
            let lng := Weather.longitude r in
            if 0 <? timestamp then
              contains (WeatherSpec.rounded b) lat lng
              && WeatherSpec.updated timestamp r
            else
              match prev with
              | Some b' => contains (WeatherSpec.rounded b) lat lng
                           && negb (contains (WeatherSpec.rounded b') lat lng)
              | None => contains (WeatherSpec.rounded b) lat lng
              end)
         weather)
  /\ (WeatherSpec.in_degrees b ->
      forall lat lng,
        (contains (WeatherSpec.loosen_by (- WeatherSpec.rounding_slack) b)
                  lat lng = true ->
         contains (WeatherSpec.rounded b) lat lng = true)
        /\ (contains (WeatherSpec.rounded b) lat lng = true ->
            contains (WeatherSpec.loosen_by WeatherSpec.rounding_slack b)
                     lat lng = true))
  /\ (forall d, In d result ->
        exists lat lng,
          d !! "latitude"%string = Some (VFloat lat) /\
          d !! "longitude"%string = Some (VFloat lng) /\
          contains (WeatherSpec.rounded b) lat lng = true)
  /\ (timestamp <= 0 -> prev = None ->
      forall r, In r weather ->
        (In (Weather.asdict r) result
         <-> contains (WeatherSpec.rounded b) (Weather.latitude r)
                      (Weather.longitude r) = true)).
Proof.
  intros Hb. cbv zeta.
  assert (Heq :
    Weather.get_weather weather
      (Some (south b)) (Some (west b)) (Some (north b)) (Some (east b))
      oSwLat oSwLng oNeLat oNeLng timestamp
    = map Weather.asdict
        (List.filter
           (fun r =>
              if 0 <? timestamp then
                contains (WeatherSpec.rounded b) (Weather.latitude r)
                         (Weather.longitude r)
                && WeatherSpec.updated timestamp r
              else
                match box_of oSwLat oSwLng oNeLat oNeLng with
                | Some b' =>
                    contains (WeatherSpec.rounded b) (Weather.latitude r)
                             (Weather.longitude r)
                    && negb (contains (WeatherSpec.rounded b')
                               (Weather.latitude r) (Weather.longitude r))
                | None => contains (WeatherSpec.rounded b) (Weather.latitude r)
                                   (Weather.longitude r)
                end)
           weather)).
  { rewrite WeatherFacts.get_weather_spec, (detected_box_of _ Hb).
    f_equal. apply List.filter_ext. intros r.
    unfold mode_of, select_mode. simpl.
    destruct (0 <? timestamp); simpl.
    - by rewrite andb_true_r.
    - destruct (box_of oSwLat oSwLng oNeLat oNeLng); simpl;
        by rewrite andb_true_r. }
  split; [exact Heq|].
  split; [intros Hdeg lat lng; by apply WeatherFacts.rounded_near|].
  rewrite Heq. split.
  - intros d Hd. apply in_map_iff in Hd as (r & <- & Hr).
    apply filter_In in Hr as [_ Hr].
    exists (Weather.latitude r), (Weather.longitude r).
    destruct (WeatherFacts.asdict_position r) as [-> ->].
    split; [done|]. split; [done|].
    destruct (0 <? timestamp).
    + by apply andb_true_iff in Hr as [? _].
    + destruct (box_of oSwLat oSwLng oNeLat oNeLng); [|done].
      by apply andb_true_iff in Hr as [? _].
  - intros Hts Hprev r Hr. rewrite Hprev.
    apply Z.ltb_ge in Hts. rewrite Hts. split.
    + intros Hd. apply in_map_iff in Hd as (r' & Heq' & Hr').
      apply filter_In in Hr' as [_ Hr'].
      destruct (WeatherFacts.asdict_position r) as [Hlat Hlng].
      destruct (WeatherFacts.asdict_position r') as [Hlat' Hlng'].
      rewrite Heq' in Hlat', Hlng'.
      assert (Weather.latitude r' = Weather.latitude r) as <- by congruence.
      assert (Weather.longitude r' = Weather.longitude r) as <-
        by congruence.
      done.
    + intros Hc. apply in_map, filter_In. done.
Qed.

Lemma weather_tolerance_witness :
  let result :=
    Weather.get_weather Examples.weather_cells
      (Some 1%Q) (Some 1%Q) (Some 3%Q) (Some 3%Q) None None None None 0 in
  result = map Weather.asdict
             [ Examples.weather_cell "a" (2 # 1) (2 # 1);
               Examples.weather_cell "b" (31 # 10) (33 # 10) ]
  /\ (forall lat lng,
        (contains (WeatherSpec.loosen_by (- WeatherSpec.rounding_slack)
                     Examples.box13) lat lng = true ->
         contains (WeatherSpec.rounded Examples.box13) lat lng = true)
        /\ (contains (WeatherSpec.rounded Examples.box13) lat lng = true ->
            contains (WeatherSpec.loosen_by WeatherSpec.rounding_slack
                        Examples.box13) lat lng = true))
  /\ (forall d, In d result ->
        exists lat lng,
          d !! "latitude"%string = Some (VFloat lat) /\
          d !! "longitude"%string = Some (VFloat lng) /\
          contains (WeatherSpec.rounded Examples.box13) lat lng = true).
Proof.
  cbv zeta. split; [reflexivity|].
  destruct (weather_tolerance Examples.weather_cells Examples.box13
              None None None None 0) as (_ & Hnear & Hin & _).
  { repeat split; discriminate. }
  split; [|exact Hin].
  apply Hnear. repeat split; discriminate.
Defined.

(** The tolerance is not exactly 0.15 degrees.  [1.0 - 0.15] is the double
    7656119366529843 / 2^53, which lies below 0.85; a cell stored at that
    latitude is returned for a box whose southern side is 1, although it
    lies more than 0.15 degrees south of the box. *)
Lemma weather_tolerance_counterexample :
  let cell :=
    Examples.weather_cell "x" (7656119366529843 # 9007199254740992) (2 # 1) in
  Weather.get_weather [cell]
    (Some 1%Q) (Some 1%Q) (Some 3%Q) (Some 3%Q) None None None None 0
  = [Weather.asdict cell]
  /\ (Weather.latitude cell < south Examples.box13 - (15 # 100))%Q
  /\ ~ WeatherSpec.within_tolerance Examples.box13
         (Weather.latitude cell) (Weather.longitude cell).
Proof.
  cbv zeta. split; [reflexivity|]. split; [reflexivity|].
  intros [H _]. apply H. reflexivity.
Qed.

(** * Landmarks: [Pokestop.get_pokestops] *)

Module PokestopFacts.

Import Pokestop PokestopSpec.

Lemma suppressed_spec d k x now enabled :
  d !! k = Some (Scalar (opt VDatetime x)) ->
  suppressed d k now enabled = hidden x now enabled.
Proof. unfold suppressed. intros ->. by destruct x. Qed.

Lemma orm_to_dict_fields p :
  orm_to_dict p !! "pokestop_id"%string = Some (Scalar (VStr (pokestop_id p)))
  /\ orm_to_dict p !! "incident_grunt_type"%string
     = Some (Scalar (opt VInt (incident_grunt_type p)))
  /\ orm_to_dict p !! "incident_expiration"%string
     = Some (Scalar (opt VDatetime (incident_expiration p)))
  /\ orm_to_dict p !! "active_fort_modifier"%string
     = Some (Scalar (opt VInt (active_fort_modifier p)))
  /\ orm_to_dict p !! "lure_expiration"%string
     = Some (Scalar (opt VDatetime (lure_expiration p))).
Proof. by vm_compute. Qed.

Ltac lookup_through :=
  repeat first
    [ rewrite lookup_insert_eq
    | rewrite lookup_insert_ne by discriminate ].

(** The fields of the record emitted for one row. *)
Lemma emit_fields quests invasions lures now r :
  let rec := emit quests invasions lures now r in
  let p := r.1 in
  rec !! "pokestop_id"%string = Some (Scalar (VStr (pokestop_id p)))
  /\ rec !! "incident_grunt_type"%string
     = Some (Scalar (if hidden (incident_expiration p) now invasions
                     then VNone else opt VInt (incident_grunt_type p)))
  /\ rec !! "incident_expiration"%string
     = Some (Scalar (if hidden (incident_expiration p) now invasions
                     then VNone else opt VDatetime (incident_expiration p)))
  /\ rec !! "active_fort_modifier"%string
     = Some (Scalar (if hidden (lure_expiration p) now lures
                     then VNone else opt VInt (active_fort_modifier p)))
  /\ rec !! "lure_expiration"%string
     = Some (Scalar (if hidden (lure_expiration p) now lures
                     then VNone else opt VDatetime (lure_expiration p))).
Proof.
  cbv zeta. unfold emit.
  destruct (orm_to_dict_fields r.1) as (Hid & Hg & He & Hm & Hl).
  set (d0 := orm_to_dict r.1) in *.
  set (d1 := match (if quests then r.2 else None) with
             | Some q => <["quest"%string := Dict (quest_dict q)]> d0
             | None => <["quest"%string := Scalar VNone]> d0
             end).
  assert (H1 : forall k, k <> "quest"%string -> d1 !! k = d0 !! k).
  { intros k Hk. unfold d1.
    destruct (if quests then r.2 else None); by rewrite lookup_insert_ne. }
  rewrite (suppressed_spec d1 _ (incident_expiration r.1))
    by (rewrite H1 by discriminate; done).
  set (d2 := if hidden (incident_expiration r.1) now invasions
             then _ else d1).
  assert (Hl2 : d2 !! "lure_expiration"%string
                = Some (Scalar (opt VDatetime (lure_expiration r.1)))).
  { unfold d2. destruct (hidden _ _ invasions); lookup_through;
      by rewrite H1 by discriminate. }
  rewrite (suppressed_spec d2 _ (lure_expiration r.1)) by done.
  unfold d2.
  destruct (hidden (incident_expiration r.1) now invasions),
    (hidden (lure_expiration r.1) now lures);
    lookup_through; rewrite ?H1 by discriminate; done.
Qed.

(** Every record of the result is the record emitted for a row the query
    returned, stored under that row's id. *)
Lemma fold_store_lookup quests invasions lures now rows acc id rec :
  fold_left (fun pokestops r => store pokestops
                                  (emit quests invasions lures now r))
            rows acc !! id = Some rec ->
  acc !! id = Some rec
  \/ exists r, In r rows /\ pokestop_id r.1 = id
               /\ rec = emit quests invasions lures now r.
Proof.
  revert acc. induction rows as [|r rows IH]; intros acc; simpl; [by left|].
  intros H. apply IH in H as [H|(r' & Hr' & Hid & Hrec)].
  - unfold store in H.
    destruct (emit_fields quests invasions lures now r) as [Hk _].
    cbv zeta in Hk. rewrite Hk in H.
    destruct (decide (pokestop_id r.1 = id)) as [Heq|Hne].
    + subst id. rewrite lookup_insert_eq in H. injection H as <-.
      right. exists r. by repeat split; [left|..].
    + rewrite lookup_insert_ne in H by done. by left.
  - right. exists r'. by repeat split; [right|..].
Qed.

End PokestopFacts.

(** * Projection of landmarks *)

(** C5, as the code has it.  Every record [Pokestop.get_pokestops] emits, in
    every sync mode, is the record of a row the query returned; in it the
    pair incident_grunt_type / incident_expiration is null whenever the
    row's incident expiration is stored and either lies strictly before the
    evaluation instant [now] or invasions are switched off, whatever the
    stored grunt type; likewise for active_fort_modifier / lure_expiration
    with the lure expiration and the lures switch.  The incident pair of a
    record depends on the incident columns and the invasions switch only,
    the lure pair on the lure columns and the lures switch only. *)
Theorem suppression_of_expired_subfeatures
    (pokestop_table : list Pokestop.row) (trs_quest : list TrsQuest.row)
    (utcnow utcnow_lures now : datetime) (today_timestamp : Z)
    (swLat swLng neLat neLng oSwLat oSwLng oNeLat oNeLng : option Q)
    (timestamp : Z) (eventless_stops quests invasions lures : bool)
    (id : string) (rec : gmap string value) :
  Pokestop.get_pokestops pokestop_table trs_quest utcnow utcnow_lures now
    today_timestamp
    swLat swLng neLat neLng oSwLat oSwLng oNeLat oNeLng timestamp
    eventless_stops quests invasions lures !! id = Some rec ->
  (exists r,
     In r (Pokestop.result_rows pokestop_table trs_quest utcnow utcnow_lures
             today_timestamp swLat swLng neLat neLng
             oSwLat oSwLng oNeLat oNeLng timestamp
             eventless_stops quests invasions lures)
     /\ Pokestop.pokestop_id r.1 = id
     /\ (forall e, Pokestop.incident_expiration r.1 = Some e ->
           dt_lt e now = true \/ invasions = false ->
           rec !! "incident_grunt_type"%string = Some (Scalar VNone)
           /\ rec !! "incident_expiration"%string = Some (Scalar VNone))
     /\ (forall e, Pokestop.lure_expiration r.1 = Some e ->
           dt_lt e now = true \/ lures = false ->
           rec !! "active_fort_modifier"%string = Some (Scalar VNone)
           /\ rec !! "lure_expiration"%string = Some (Scalar VNone)))
  /\ (forall q q' l l' r r',
        Pokestop.incident_expiration r.1 = Pokestop.incident_expiration r'.1 ->
        Pokestop.incident_grunt_type r.1 = Pokestop.incident_grunt_type r'.1 ->
        Pokestop.emit q invasions l now r !! "incident_grunt_type"%string
        = Pokestop.emit q' invasions l' now r' !! "incident_grunt_type"%string
        /\ Pokestop.emit q invasions l now r !! "incident_expiration"%string
           = Pokestop.emit q' invasions l' now r'
               !! "incident_expiration"%string)
  /\ (forall q q' i i' r r',
        Pokestop.lure_expiration r.1 = Pokestop.lure_expiration r'.1 ->
        Pokestop.active_fort_modifier r.1
        = Pokestop.active_fort_modifier r'.1 ->
        Pokestop.emit q i lures now r !! "active_fort_modifier"%string
        = Pokestop.emit q' i' lures now r' !! "active_fort_modifier"%string
        /\ Pokestop.emit q i lures now r !! "lure_expiration"%string
           = Pokestop.emit q' i' lures now r' !! "lure_expiration"%string).
Proof.
  intros Hrec. split; [|split].
  - unfold Pokestop.get_pokestops in Hrec.
    apply PokestopFacts.fold_store_lookup in Hrec
      as [Hrec|(r & Hr & Hid & ->)]; [by rewrite lookup_empty in Hrec|].
    exists r. split; [done|]. split; [done|].
    destruct (PokestopFacts.emit_fields quests invasions lures now r)
      as (_ & Hg & He & Hm & Hl). cbv zeta in *.
    split.
    + intros e Hexp Hcase. rewrite Hg, He, Hexp. simpl.
      by destruct Hcase as [-> | ->]; rewrite ?orb_true_r.
    + intros e Hexp Hcase. rewrite Hm, Hl, Hexp. simpl.
      by destruct Hcase as [-> | ->]; rewrite ?orb_true_r.
  - intros q q' l l' r r' Hexp Hty.
    destruct (PokestopFacts.emit_fields q invasions l now r)
      as (_ & -> & -> & _).
    destruct (PokestopFacts.emit_fields q' invasions l' now r')
      as (_ & -> & -> & _).
    by rewrite Hexp, Hty.
  - intros q q' i i' r r' Hexp Hty.
    destruct (PokestopFacts.emit_fields q i lures now r)
      as (_ & _ & _ & -> & ->).
    destruct (PokestopFacts.emit_fields q' i' lures now r')
      as (_ & _ & _ & -> & ->).
    by rewrite Hexp, Hty.
Qed.

Lemma suppression_of_expired_subfeatures_witness :
  let rec :=
    Pokestop.emit true true true Examples.noon
                  (PokestopExamples.expired_incident, None) in
  rec !! "incident_grunt_type"%string = Some (Scalar VNone)
  /\ rec !! "active_fort_modifier"%string = Some (Scalar (VInt 501))
  /\ exists r,
       In r (Pokestop.result_rows [PokestopExamples.expired_incident] []
               Examples.noon Examples.noon 0 (Some 1%Q) (Some 1%Q) (Some 3%Q) (Some 3%Q)
               None None None None 0 true true true true)
       /\ Pokestop.pokestop_id r.1 = "s1"%string
       /\ (forall e, Pokestop.incident_expiration r.1 = Some e ->
             dt_lt e Examples.noon = true \/ true = false ->
             rec !! "incident_grunt_type"%string = Some (Scalar VNone)
             /\ rec !! "incident_expiration"%string = Some (Scalar VNone))
       /\ (forall e, Pokestop.lure_expiration r.1 = Some e ->
             dt_lt e Examples.noon = true \/ true = false ->
             rec !! "active_fort_modifier"%string = Some (Scalar VNone)
             /\ rec !! "lure_expiration"%string = Some (Scalar VNone)).
Proof.
  cbv zeta. split; [by vm_compute|]. split; [by vm_compute|].
  refine (proj1 (suppression_of_expired_subfeatures
    [PokestopExamples.expired_incident] [] Examples.noon Examples.noon
    Examples.noon 0
    (Some 1%Q) (Some 1%Q) (Some 3%Q) (Some 3%Q) None None None None
    0 true true true true "s1"
    (Pokestop.emit true true true Examples.noon
                   (PokestopExamples.expired_incident, None)) _)).
  vm_cast_no_check
    (@eq_refl _ (Some (Pokestop.emit true true true Examples.noon
                         (PokestopExamples.expired_incident, None)))).
Defined.

(** C5 as stated fails in two ways: an incident whose expiration equals the
    evaluation instant keeps its grunt type, and with invasions switched off
    a grunt type stored without an expiration is emitted as stored. *)
Lemma suppression_counterexample :
  let grunt_type (res : gmap string (gmap string value)) :=
    res !! "s1"%string ≫= (.!! "incident_grunt_type"%string) in
  (Pokestop.incident_expiration PokestopExamples.ending_now
   = Some Examples.noon
   /\ dt_le Examples.noon Examples.noon = true
   /\ grunt_type
        (Pokestop.get_pokestops [PokestopExamples.ending_now] []
           Examples.noon Examples.noon Examples.noon 0
           (Some 1%Q) (Some 1%Q) (Some 3%Q) (Some 3%Q) None None None None
           0 true true true true)
      = Some (Scalar (VInt 4)))
  /\ grunt_type
       (Pokestop.get_pokestops [PokestopExamples.unexpiring] []
          Examples.noon Examples.noon Examples.noon 0
          (Some 1%Q) (Some 1%Q) (Some 3%Q) (Some 3%Q) None None None None
          0 true true false true)
     = Some (Scalar (VInt 4)).
Proof. cbv zeta. repeat split; by vm_compute. Qed.

(** * Spawn points: [TrsSpawn.get_spawnpoints] *)

(** ** Datetime arithmetic *)

Section DatetimeFacts.

Lemma to_us_of_us u : to_us (of_us u) = u.
Proof.
  unfold to_us, of_us. simpl.
  assert (Ha : u / 60000000 = u / 1000000 / 60)
    by (rewrite Z.div_div by lia; reflexivity).
  assert (Hb : u / 3600000000 = u / 1000000 / 60 / 60)
    by (rewrite !Z.div_div by lia; reflexivity).
  assert (Hc : u / 86400000000 = u / 1000000 / 60 / 60 / 24)
    by (rewrite !Z.div_div by lia; reflexivity).
  rewrite Ha, Hb, Hc.
  set (a := u / 1000000). set (b := a / 60). set (c := b / 60).
  pose proof (Z.div_mod u 1000000 ltac:(lia)) as H1. fold a in H1.
  pose proof (Z.div_mod a 60 ltac:(lia)) as H2. fold b in H2.
  pose proof (Z.div_mod b 60 ltac:(lia)) as H3. fold c in H3.
  pose proof (Z.div_mod c 24 ltac:(lia)) as H4.
  lia.
Qed.

Lemma dt_add_us d td : to_us (dt_add d td) = to_us d + td.
Proof. apply to_us_of_us. Qed.

Lemma dt_sub_us d td : to_us (dt_sub d td) = to_us d - td.
Proof. apply to_us_of_us. Qed.

Lemma replace_valid d mi se :
  0 <= mi < 60 -> 0 <= se < 60 ->
  replace d mi se 0
  = Some {| ordinal := ordinal d; hour := hour d;
            minute := mi; second := se; microsecond := 0 |}.
Proof.
  intros Hm Hs. unfold replace.
  assert ((0 <=? mi) = true) as -> by lia.
  assert ((mi <? 60) = true) as -> by lia.
  assert ((0 <=? se) = true) as -> by lia.
  assert ((se <? 60) = true) as -> by lia.
  reflexivity.
Qed.

End DatetimeFacts.

(** ** Clock-face fragments *)

Module ClockFaceFacts.

Import ClockFace.
Local Open Scope string_scope.

Lemma in_below60 n : 0 <= n < 60 -> In n below60.
Proof.
  intros Hn. unfold below60. apply in_map_iff. exists (Z.to_nat n).
  split; [lia|]. apply in_seq. lia.
Qed.

Lemma parses_all :
  forallb (fun mm => forallb (parses mm) below60) below60 = true.
Proof. by vm_compute. Qed.

Lemma parse_clock_face mm ss :
  0 <= mm < 60 -> 0 <= ss < 60 ->
  PyStr.split ":" (clock_face mm ss) = [two_digits mm; two_digits ss]
  /\ PyStr.int (two_digits mm) = Some mm
  /\ PyStr.int (two_digits ss) = Some ss.
Proof.
  intros Hm Hs. pose proof parses_all as H.
  rewrite forallb_forall in H. specialize (H mm (in_below60 mm Hm)).
  rewrite forallb_forall in H. specialize (H ss (in_below60 ss Hs)).
  unfold parses in H. rewrite !andb_true_iff in H.
  destruct H as [[H1 H2] H3].
  by apply bool_decide_eq_true in H1, H2, H3.
Qed.

End ClockFaceFacts.

Module TrsSpawnFacts.

Import TrsSpawnRow TrsSpawn ClockFace ClockFaceFacts TrsSpawnSpec.

Lemma asdict_fields r :
  asdict r !! "end_time"%string = Some (opt VStr (calc_endminsec r))
  /\ asdict r !! "spawndef"%string = Some (VInt (spawndef r))
  /\ asdict r !! "despawn_time"%string = None
  /\ asdict r !! "spawn_time"%string = None.
Proof. by vm_compute. Qed.

Lemma shift_lookup_ne k k' off (sp : gmap string scalar) :
  k <> k' -> shift k off sp !! k' = sp !! k'.
Proof.
  intros Hk. unfold shift.
  destruct (sp !! k) as [[]|]; try done. by rewrite lookup_insert_ne.
Qed.

Lemma fits_int_below60 n : 0 <= n < 60 -> fits_int n = true.
Proof. unfold fits_int. lia. Qed.

Lemma match_fifteen {A} (z : Z) (a b : A) :
  match z with 15 => a | _ => b end = if z =? 15 then a else b.
Proof.
  destruct z as [|p|p]; try done.
  do 4 (destruct p as [p|p|]; try done).
Qed.

(** What the loop body returns for a row with a well-formed fragment, for
    any clock. *)
Lemma emit_clock_face clock utc_offset r mm ss n :
  0 <= mm < 60 -> 0 <= ss < 60 ->
  calc_endminsec r = Some (clock_face mm ss) ->
  let despawn_time :=
    dt_sub (local_despawn (clock n) (clock (S n)) mm ss) utc_offset in
  let spawn_time :=
    if spawndef r =? 15 then dt_sub despawn_time (hours 1)
    else dt_sub despawn_time (minutes 30) in
  emit clock utc_offset (asdict r) n
  = inr (delete "end_time"%string
           (<["spawn_time"%string := VDatetime spawn_time]>
              (<["despawn_time"%string := VDatetime despawn_time]>
                 (shift "last_scanned" utc_offset
                    (shift "last_non_scanned" utc_offset (asdict r))))),
         S (S n)).
Proof.
  intros Hm Hs Hend. cbv zeta. unfold emit.
  destruct (asdict_fields r) as (He & Hd & _).
  rewrite shift_lookup_ne, He, Hend by discriminate. cbn [opt].
  destruct (parse_clock_face mm ss Hm Hs) as (-> & Hmm & Hss).
  unfold mbind, M_bind, lift, today, mret, M_ret.
  cbn [lookup list_lookup].
  rewrite Hss, Hmm, (fits_int_below60 mm Hm), (fits_int_below60 ss Hs).
  cbn [andb]. rewrite (replace_valid _ _ _ Hm Hs).
  rewrite lookup_insert_ne, !shift_lookup_ne, Hd by discriminate.
  rewrite match_fifteen.
  reflexivity.
Qed.

End TrsSpawnFacts.

(** ** The inferred times *)

(** C2. Despawn-time inference.  For a row whose fragment is the well-formed
    text "MM:SS", with both reads of the local clock giving [now], the loop
    body of [TrsSpawn.get_spawnpoints] succeeds and derives: the candidate
    instant with the date and hour of [now], minute MM, second SS and no
    microseconds; the despawn instant, which is the candidate plus one hour
    when the candidate is at or before [now] and the candidate otherwise;
    the emitted despawn_time, which is that instant minus the UTC offset;
    and the emitted spawn_time, which is the emitted despawn_time minus one
    hour when spawndef is 15 and minus 30 minutes otherwise. *)
Theorem despawn_inference
    (r : TrsSpawnRow.row) (mm ss : Z) (now : datetime)
    (utc_offset : timedelta) (n : nat) :
  0 <= mm < 60 -> 0 <= ss < 60 ->
  TrsSpawnRow.calc_endminsec r = Some (ClockFace.clock_face mm ss) ->
  let candidate :=
    {| ordinal := ordinal now; hour := hour now;
       minute := mm; second := ss; microsecond := 0 |} in
  let despawn :=
    if dt_le candidate now then dt_add candidate (hours 1) else candidate in
  let despawn_time := dt_sub despawn utc_offset in
  let spawn_time :=
    if TrsSpawnRow.spawndef r =? 15 then dt_sub despawn_time (hours 1)
    else dt_sub despawn_time (minutes 30) in
  exists sp,
    TrsSpawn.emit (fun _ => now) utc_offset (TrsSpawn.asdict r) n
    = inr (sp, S (S n))
    /\ sp !! "despawn_time"%string = Some (VDatetime despawn_time)
    /\ sp !! "spawn_time"%string = Some (VDatetime spawn_time)
    /\ sp !! "end_time"%string = None.
Proof.
  intros Hm Hs Hend. cbv zeta.
  eexists. split.
  - apply (TrsSpawnFacts.emit_clock_face (fun _ => now) utc_offset r mm ss n
             Hm Hs Hend).
  - split; [|split].
    + rewrite lookup_delete_ne, lookup_insert_ne, lookup_insert_eq
        by discriminate. reflexivity.
    + rewrite lookup_delete_ne, lookup_insert_eq by discriminate.
      reflexivity.
    + apply lookup_delete_eq.
Qed.

Lemma despawn_inference_witness :
  exists sp,
    TrsSpawn.emit (fun _ => SpawnExamples.ten_past_two) 0
      (TrsSpawn.asdict (SpawnExamples.spawnpoint 240 None (Some "05:30"%string)))
      0%nat
    = inr (sp, 2%nat)
    /\ sp !! "despawn_time"%string
       = Some (VDatetime (mk_datetime 738000 15 5 30 0))
    /\ sp !! "spawn_time"%string
       = Some (VDatetime (mk_datetime 738000 14 35 30 0))
    /\ sp !! "end_time"%string = None.
Proof.
  apply (despawn_inference
           (SpawnExamples.spawnpoint 240 None (Some "05:30"%string))
           5 30 SpawnExamples.ten_past_two 0 0%nat).
  - lia.
  - lia.
  - reflexivity.
Defined.

(** The second example of the specification: at 14:02:00 the fragment
    "05:30" of a spawndef-15 point gives 14:05:30, and a spawn at
    13:05:30. *)
Example despawn_same_hour :
  exists sp,
    TrsSpawn.emit (fun _ => SpawnExamples.two_past_two) 0
      (TrsSpawn.asdict (SpawnExamples.spawnpoint 15 None (Some "05:30"%string)))
      0%nat
    = inr (sp, 2%nat)
    /\ sp !! "despawn_time"%string
       = Some (VDatetime (mk_datetime 738000 14 5 30 0))
    /\ sp !! "spawn_time"%string
       = Some (VDatetime (mk_datetime 738000 13 5 30 0)).
Proof.
  eexists. split.
  - apply (TrsSpawnFacts.emit_clock_face _ 0
             (SpawnExamples.spawnpoint 15 None (Some "05:30"%string)) 5 30);
      [lia|lia|reflexivity].
  - split.
    + rewrite lookup_delete_ne, lookup_insert_ne, lookup_insert_eq
        by discriminate. reflexivity.
    + rewrite lookup_delete_ne, lookup_insert_eq by discriminate.
      reflexivity.
Qed.

Lemma local_despawn_bounds now mm ss :
  valid_datetime now -> 0 <= mm < 60 -> 0 <= ss < 60 ->
  to_us now < to_us (TrsSpawnSpec.local_despawn now now mm ss)
              <= to_us now + hours 1.
Proof.
  intros (Hh & Hmi & Hse & Hus) Hm Hs.
  unfold TrsSpawnSpec.local_despawn, dt_le.
  destruct (Z.leb_spec (to_us (TrsSpawnSpec.candidate now mm ss)) (to_us now))
    as [Hle|Hgt].
  - rewrite dt_add_us. revert Hle.
    unfold to_us, TrsSpawnSpec.candidate, hours. simpl. lia.
  - revert Hgt. unfold to_us, TrsSpawnSpec.candidate, hours. simpl. lia.
Qed.

(** C3. For a well-formed fragment and a valid instant [now], the loop body
    of [TrsSpawn.get_spawnpoints] yields the same record however often it is
    run; its despawn_time is an instant [despawn] re-expressed by the UTC
    offset, where [despawn], the candidate of C2 moved to the next hour
    when it is not after [now], is strictly after [now] and at most one hour
    after [now]. *)
Theorem despawn_in_next_hour
    (r : TrsSpawnRow.row) (mm ss : Z) (now : datetime)
    (utc_offset : timedelta) :
  valid_datetime now -> 0 <= mm < 60 -> 0 <= ss < 60 ->
  TrsSpawnRow.calc_endminsec r = Some (ClockFace.clock_face mm ss) ->
  let despawn := TrsSpawnSpec.local_despawn now now mm ss in
  exists sp,
    (forall n, TrsSpawn.emit (fun _ => now) utc_offset (TrsSpawn.asdict r) n
               = inr (sp, S (S n)))
    /\ sp !! "despawn_time"%string
       = Some (VDatetime (dt_sub despawn utc_offset))
    /\ dt_lt now despawn = true
    /\ dt_le despawn (dt_add now (hours 1)) = true.
Proof.
  intros Hnow Hm Hs Hend. cbv zeta.
  eexists. split; [|split; [|split]].
  - intros n.
    apply (TrsSpawnFacts.emit_clock_face (fun _ => now) utc_offset r mm ss n
             Hm Hs Hend).
  - rewrite lookup_delete_ne, lookup_insert_ne, lookup_insert_eq
      by discriminate. reflexivity.
  - unfold dt_lt. apply Z.ltb_lt.
    apply (local_despawn_bounds now mm ss Hnow Hm Hs).
  - unfold dt_le. apply Z.leb_le. rewrite dt_add_us.
    apply (local_despawn_bounds now mm ss Hnow Hm Hs).
Qed.

Lemma despawn_in_next_hour_witness :
  let despawn :=
    TrsSpawnSpec.local_despawn SpawnExamples.ten_past_two
                               SpawnExamples.ten_past_two 5 30 in
  exists sp,
    (forall n,
       TrsSpawn.emit (fun _ => SpawnExamples.ten_past_two) (hours 2)
         (TrsSpawn.asdict
            (SpawnExamples.spawnpoint 240 None (Some "05:30"%string))) n
       = inr (sp, S (S n)))
    /\ sp !! "despawn_time"%string
       = Some (VDatetime (dt_sub despawn (hours 2)))
    /\ dt_lt SpawnExamples.ten_past_two despawn = true
    /\ dt_le despawn (dt_add SpawnExamples.ten_past_two (hours 1)) = true.
Proof.
  apply (despawn_in_next_hour
           (SpawnExamples.spawnpoint 240 None (Some "05:30"%string))
           5 30 SpawnExamples.ten_past_two (hours 2)).
  - unfold valid_datetime. simpl. lia.
  - lia.
  - lia.
  - reflexivity.
Defined.

(** ** Rows without a fragment *)

Module TrsSpawnNull.

Import TrsSpawnRow TrsSpawn TrsSpawnSpec TrsSpawnFacts.





End TrsSpawnNull.




(** A fragment that is stored but does not give a minute and a second does
    raise: without a colon the second field is missing, a minute of 61 is
    refused by [datetime.replace], and so is, with another error, a minute
    that is no C [int].  What [int] accepts is wider than "MM:SS": a digit
    separator and digits of another script parse. *)
Remark malformed_fragment_raises :
  let emit (fragment : string) :=
    TrsSpawn.emit (fun _ => Examples.noon) 0
      (TrsSpawn.asdict (SpawnExamples.spawnpoint 240 None (Some fragment)))
      0%nat in
  let despawn_time (fragment : string) :=
    match emit fragment with
    | inr (sp, _) => sp !! "despawn_time"%string
    | inl _ => None
    end in
  emit "0530"%string = inl TrsSpawn.IndexError
  /\ emit "61:00"%string = inl TrsSpawn.ValueError
  /\ emit "4294967296:00"%string = inl TrsSpawn.OverflowError
  /\ despawn_time "1_0:5"%string
     = Some (VDatetime (mk_datetime 738000 12 10 5 0))
  /\ despawn_time "٣:٠٥"%string
     = Some (VDatetime (mk_datetime 738000 12 3 5 0)).
Proof. cbv zeta. repeat split; by vm_compute. Qed.

(** * Further properties *)

Section KeyFacts.

Context {K : Type} `{Countable K}.

Lemma NoDup_key_inj {A} (key : A -> K) (l : list A) x y :
  List.NoDup (map key l) -> In x l -> In y l -> key x = key y -> x = y.
Proof.
  induction l as [|a l IH]; simpl; [done|].
  intros Hnd Hx Hy Hk. apply List.NoDup_cons_iff in Hnd as [Hna Hnd].
  destruct Hx as [->|Hx], Hy as [->|Hy]; [done| | |by apply IH].
  - destruct Hna. rewrite Hk. by apply in_map.
  - destruct Hna. rewrite <- Hk. by apply in_map.
Qed.

(** Set difference, by key, of two selections that share the condition [e]
    and differ in the box condition. *)
Lemma keys_difference {A} (key : A -> K) (l : list A) (e a b : A -> bool) :
  (forall x y, In x l -> In y l -> key x = key y -> b x = b y) ->
  (list_to_set (map key (List.filter (fun x => e x && a x) l)) : gset K)
    ∖ list_to_set (map key (List.filter (fun x => e x && b x) l))
  = list_to_set
      (map key (List.filter (fun x => e x && (a x && negb (b x))) l)).
Proof.
  intros Hb. apply set_eq. intros z.
  rewrite elem_of_difference, !elem_of_list_to_set, !list_elem_of_In,
    !in_map_iff.
  setoid_rewrite filter_In. setoid_rewrite andb_true_iff.
  split.
  - intros [(x & <- & Hx & He & Ha) Hn]. exists x.
    split; [done|]. split; [done|]. split; [done|].
    rewrite Ha. simpl. destruct (b x) eqn:Hbx; [|done].
    destruct Hn. by exists x.
  - intros (x & <- & Hx & He & Hab).
    apply andb_true_iff in Hab as [Ha Hnb]. apply negb_true_iff in Hnb.
    split; [by exists x|].
    intros (y & Hk & Hy & _ & Hby). rewrite (Hb y x) in Hby; congruence.
Qed.

Lemma keys_difference_ext {A} (key : A -> K) (l : list A)
    (e a b f g h : A -> bool) :
  (forall x y, In x l -> In y l -> key x = key y -> b x = b y) ->
  (forall x, f x = e x && a x) ->
  (forall x, g x = e x && b x) ->
  (forall x, h x = e x && (a x && negb (b x))) ->
  (list_to_set (map key (List.filter f l)) : gset K)
    ∖ list_to_set (map key (List.filter g l))
  = list_to_set (map key (List.filter h l)).
Proof.
  intros Hb Hf Hg Hh.
  rewrite (List.filter_ext f _ Hf), (List.filter_ext g _ Hg),
    (List.filter_ext h _ Hh).
  by apply keys_difference.
Qed.

End KeyFacts.

(** ** Sightings *)

Lemma sighting_asdict_fields v r :
  Pokemon.asdict v r !! "encounter_id"%string
  = Some (VInt (Pokemon.encounter_id r.1))
  /\ Pokemon.asdict v r !! "disappear_time"%string
     = Some (VDatetime (Pokemon.disappear_time r.1))
  /\ Pokemon.asdict v r !! "latitude"%string
     = Some (VFloat (Pokemon.latitude r.1))
  /\ Pokemon.asdict v r !! "longitude"%string
     = Some (VFloat (Pokemon.longitude r.1))
  /\ Pokemon.asdict v r !! "last_modified"%string
     = Some (opt VDatetime (Pokemon.last_modified r.1)).
Proof. destruct v; by vm_compute. Qed.

(** X1. Whatever the sync mode and the kind filter, every record
    [Pokemon.get_active] returns is the record of a stored sighting that has
    not yet disappeared ([disappear_time > utcnow]); when a box is detected
    the sighting lies inside it, and when moreover the timestamp is positive
    the sighting was modified after it. *)
Theorem sightings_are_live_and_inside
    (pokemon : list Pokemon.row) (trs_spawn : list TrsSpawnRow.row)
    (utcnow : datetime) (spawnpoint_eq : Z -> string -> bool)
    (swLat swLng neLat neLng oSwLat oSwLng oNeLat oNeLng : option Q)
    (timestamp : Z) (eids ids : option (list Z))
    (verified_despawn_time : bool) (d : gmap string scalar) :
  In d (Pokemon.get_active pokemon trs_spawn utcnow spawnpoint_eq
          swLat swLng neLat neLng oSwLat oSwLng oNeLat oNeLng
          timestamp eids ids verified_despawn_time) ->
  exists p,
    In p pokemon
    /\ d !! "encounter_id"%string = Some (VInt (Pokemon.encounter_id p))
    /\ d !! "disappear_time"%string
       = Some (VDatetime (Pokemon.disappear_time p))
    /\ d !! "latitude"%string = Some (VFloat (Pokemon.latitude p))
    /\ d !! "longitude"%string = Some (VFloat (Pokemon.longitude p))
    /\ dt_lt utcnow (Pokemon.disappear_time p) = true
    /\ (forall b, box_of swLat swLng neLat neLng = Some b ->
          contains b (Pokemon.latitude p) (Pokemon.longitude p) = true
          /\ (0 < timestamp ->
              exists m, Pokemon.last_modified p = Some m
                        /\ dt_lt (utcfromtimestamp_ms timestamp) m = true)).
Proof.
  rewrite PokemonFacts.get_active_spec. intros Hd.
  apply in_map_iff in Hd as (r & <- & Hr).
  apply filter_In in Hr as [Hr Hc].
  apply PokemonIds.sightings_fst in Hr.
  apply andb_true_iff in Hc as [_ Hc].
  destruct (sighting_asdict_fields verified_despawn_time r)
    as (Hid & Hdis & Hlat & Hlng & _).
  exists r.1. do 5 (split; [done|]).
  unfold mode_of, select_mode in Hc.
  destruct (box_of swLat swLng neLat neLng) as [b|]; simpl in Hc.
  - assert (Hall :
      contains b (Pokemon.latitude r.1) (Pokemon.longitude r.1) = true
      /\ PokemonSpec.live utcnow r.1 = true
      /\ (0 < timestamp -> PokemonSpec.modified timestamp r.1 = true)).
    { destruct (Z.ltb_spec 0 timestamp) as [Hts|Hts]; simpl in Hc.
      - apply andb_true_iff in Hc as [Hc Hl].
        apply andb_true_iff in Hc as [Hb Hm]. done.
      - destruct (bool_decide _); simpl in Hc.
        + apply andb_true_iff in Hc as [Hc _].
          apply andb_true_iff in Hc as [Hb Hl].
          repeat split; [done|done|lia].
        + apply andb_true_iff in Hc as [Hb Hl].
          repeat split; [done|done|lia]. }
    destruct Hall as (Hb & Hl & Hm). split; [done|].
    intros b' [= <-]. split; [done|]. intros Hts.
    specialize (Hm Hts). unfold PokemonSpec.modified in Hm.
    destruct (Pokemon.last_modified r.1) as [m|]; [|done]. by exists m.
  - split; [done|]. by intros b [=].
Qed.

Lemma sightings_are_live_and_inside_witness :
  exists p,
    In p Examples.sightings
    /\ Pokemon.encounter_id p = 1
    /\ dt_lt Examples.noon (Pokemon.disappear_time p) = true
    /\ contains Examples.box13 (Pokemon.latitude p) (Pokemon.longitude p)
       = true.
Proof.
  destruct (sightings_are_live_and_inside Examples.sightings []
              Examples.noon Examples.no_join
              (Some 1%Q) (Some 1%Q) (Some 3%Q) (Some 3%Q)
              None None None None 0 None None false
              (Pokemon.asdict false
                 (Examples.sighting 1 1 (3 # 2) (3 # 2)
                    (Examples.at_hour 13), None)))
    as (p & Hp & Hid & _ & _ & _ & Hlive & Hbox).
  - rewrite PokemonFacts.get_active_spec. apply in_map, filter_In.
    split; [simpl; by left|by vm_compute].
  - exists p. split; [done|]. split.
    + destruct (sighting_asdict_fields false
                  (Examples.sighting 1 1 (3 # 2) (3 # 2)
                     (Examples.at_hour 13), None)) as (Hid' & _).
      rewrite Hid' in Hid. simpl in Hid. by injection Hid.
    + split; [done|]. by apply (Hbox Examples.box13).
Defined.

(** ** Landmarks *)

Module PokestopMore.

Import Pokestop PokestopView.

Lemma stop_filter_spec sw sg ne ng osw osg one ong ts p :
  SQL.holds (SQL.all_ (mode_filter sw sg ne ng osw osg one ong ts p))
  = viewport_diff latitude longitude
      (mode_of (box_of sw sg ne ng) (box_of osw osg one ong) ts)
      (box_of sw sg ne ng) (box_of osw osg one ong)
      (updated ts) (fun _ => true) p.
Proof.
  unfold mode_filter, mode_of, select_mode.
  destruct (box_of_cases sw sg ne ng)
    as [[-> (b & -> & -> & -> & -> & ->)]|[-> ->]]; simpl; [|done].
  destruct (0 <? ts); simpl.
  { rewrite holds_all_cons.
    fold (in_box (latitude p) (longitude p) (Some (south b))
                 (Some (west b)) (Some (north b)) (Some (east b))).
    rewrite holds_in_box. unfold updated, SQL.gt_dt, SQL.cmp.
    destruct (last_updated p) as [m|]; [destruct (dt_lt _ m)|];
      by destruct (contains _ _ _). }
  destruct (box_of_cases osw osg one ong)
    as [[-> (b' & -> & -> & -> & -> & ->)]|[-> ->]]; simpl.
  - change (SQL.ge_q _ _ :: _ :: _ :: _ :: ?l) with
      (in_box (latitude p) (longitude p) (Some (south b))
              (Some (west b)) (Some (north b)) (Some (east b)) ++ l).
    rewrite holds_all_app, holds_in_box, holds_all_one, holds_not_in_box.
    by destruct (contains b _ _), (contains b' _ _).
  - rewrite holds_in_box. by destruct (contains _ _ _).
Qed.

Lemma result_rows_spec pokestop_table trs_quest utcnow utcnow_lures today
    sw sg ne ng osw osg one ong ts eventless quests invasions lures :
  result_rows pokestop_table trs_quest utcnow utcnow_lures today
              sw sg ne ng osw osg one ong ts eventless quests invasions lures
  = List.filter
      (fun r =>
         SQL.holds (SQL.all_ (eventless_filter utcnow utcnow_lures eventless
                                               quests invasions lures r))
         && viewport_diff latitude longitude
              (mode_of (box_of sw sg ne ng) (box_of osw osg one ong) ts)
              (box_of sw sg ne ng) (box_of osw osg one ong)
              (updated ts) (fun _ => true) r.1)
      (stops pokestop_table trs_quest today quests).
Proof.
  unfold result_rows, SQL.filter, stops.
  apply List.filter_ext. intros r.
  by rewrite holds_all_app, stop_filter_spec.
Qed.

Lemma stops_fst pokestop_table trs_quest today quests x :
  In x (stops pokestop_table trs_quest today quests) ->
  In x.1 pokestop_table.
Proof.
  unfold stops. destruct quests.
  - apply outerjoin_fst.
  - rewrite in_map_iff. by intros (p & <- & Hp).
Qed.

(** The keys of the returned dictionary are the ids of the rows stored. *)
Lemma dom_fold_store quests invasions lures now rows acc :
  dom (fold_left (fun pokestops r =>
                    store pokestops (emit quests invasions lures now r))
                 rows acc)
  = dom acc ∪ list_to_set (map (fun r => pokestop_id r.1) rows).
Proof.
  revert acc. induction rows as [|r rows IH]; intros acc; simpl.
  - by rewrite (right_id_L ∅ (∪)).
  - rewrite IH. unfold store.
    destruct (PokestopFacts.emit_fields quests invasions lures now r)
      as [Hk _]. cbv zeta in Hk. rewrite Hk.
    rewrite dom_insert_L, (comm_L (∪) {[pokestop_id r.1]} (dom acc)).
    by rewrite <- (assoc_L (∪)).
Qed.

End PokestopMore.

(** X2. The keys of the dictionary [Pokestop.get_pokestops] returns are
    exactly the ids of the rows its query selects.  With the "only
    interesting" filter on ([eventless_stops] false) and at least one of the
    three categories asked for, every selected row carries, among the
    categories asked for, a quest of today, an invasion that ends after the
    clock read of the invasion term ([utcnow]) or a lure that ends after the
    clock read of the lure term ([utcnow_lures]); the three clock reads of
    the query are independent. *)
Theorem pokestops_keys_and_interest
    (pokestop_table : list Pokestop.row) (trs_quest : list TrsQuest.row)
    (utcnow utcnow_lures now : datetime) (today_timestamp : Z)
    (swLat swLng neLat neLng oSwLat oSwLng oNeLat oNeLng : option Q)
    (timestamp : Z) (eventless_stops quests invasions lures : bool) :
  let rows :=
    Pokestop.result_rows pokestop_table trs_quest utcnow utcnow_lures
      today_timestamp
      swLat swLng neLat neLng oSwLat oSwLng oNeLat oNeLng timestamp
      eventless_stops quests invasions lures in
  dom (Pokestop.get_pokestops pokestop_table trs_quest utcnow utcnow_lures
         now today_timestamp swLat swLng neLat neLng
         oSwLat oSwLng oNeLat oNeLng timestamp
         eventless_stops quests invasions lures)
  = list_to_set (map (fun r => Pokestop.pokestop_id r.1) rows)
  /\ (eventless_stops = false -> quests || invasions || lures = true ->
      forall r, In r rows ->
        PokestopView.interesting utcnow utcnow_lures
          quests invasions lures r).
Proof.
  cbv zeta. split.
  - unfold Pokestop.get_pokestops. rewrite PokestopMore.dom_fold_store.
    by rewrite dom_empty_L, (left_id_L ∅ (∪)).
  - intros -> Hflags r Hr. unfold Pokestop.result_rows, SQL.filter in Hr.
    apply filter_In in Hr as [_ Hr]. rewrite holds_all_app in Hr.
    apply andb_true_iff in Hr as [Hr _].
    unfold Pokestop.eventless_filter, PokestopView.interesting in *.
    simpl in Hr.
    assert (Hq : SQL.holds (Some (bool_decide (is_Some r.2))) = true ->
                 is_Some r.2).
    { unfold SQL.holds. destruct (bool_decide (is_Some r.2)) eqn:Hb; [|done].
      intros _. by apply bool_decide_eq_true in Hb. }
    assert (Hgt : forall t x,
              SQL.holds (SQL.gt_dt x (Some t)) = true ->
              exists e, x = Some e /\ dt_lt t e = true).
    { intros t [e|]; unfold SQL.holds, SQL.gt_dt, SQL.cmp; [|done].
      destruct (dt_lt t e) eqn:He; [|done]. intros _. by exists e. }
    assert (Hor : forall a b, SQL.holds (SQL.or_ a b) = true ->
                    SQL.holds a = true \/ SQL.holds b = true).
    { intros [[]|] [[]|]; cbn; auto. }
    assert (Hf : SQL.holds (Some false) = true -> False) by done.
    destruct quests, invasions, lures; simpl in Hr; try done;
      rewrite holds_all_one in Hr;
      repeat (apply Hor in Hr as [Hr|Hr]);
      try (by destruct (Hf Hr));
      first [ left; split; [done|]; by apply Hq
            | right; left; split; [done|]; by apply Hgt
            | right; right; split; [done|]; by apply Hgt ].
Qed.

Lemma pokestops_keys_and_interest_witness :
  dom (Pokestop.get_pokestops
         [PokestopExamples.expired_incident] [] Examples.noon Examples.noon Examples.noon 0
         None None None None None None None None 0 false false true true)
  = list_to_set
      (map (fun r => Pokestop.pokestop_id r.1)
         (Pokestop.result_rows
            [PokestopExamples.expired_incident] [] Examples.noon Examples.noon 0
            None None None None None None None None 0
            false false true true))
  /\ (forall r,
        In r (Pokestop.result_rows
                [PokestopExamples.expired_incident] [] Examples.noon Examples.noon 0
                None None None None None None None None 0
                false false true true) ->
        PokestopView.interesting Examples.noon Examples.noon
          false true true r).
Proof.
  destruct (pokestops_keys_and_interest
    [PokestopExamples.expired_incident] [] Examples.noon Examples.noon
    Examples.noon 0
    None None None None None None None None 0 false false true true)
    as [Hkeys Hinteresting].
  split; [exact Hkeys|].
  apply Hinteresting; reflexivity.
Defined.

(** X3. Differential property for landmarks.  With unique pokestop ids, the
    same switches and clock reads, two detected boxes and no positive
    timestamp:
    the keys returned for box [B] in the fallback mode, minus the keys
    returned for [Bprev] in the fallback mode, are the keys returned in the
    panned mode with current box [B] and previous box [Bprev]. *)
Theorem differential_pokestops
    (pokestop_table : list Pokestop.row) (trs_quest : list TrsQuest.row)
    (utcnow utcnow_lures now : datetime) (today_timestamp : Z)
    (B Bprev : BoundingBox) (timestamp : Z)
    (eventless_stops quests invasions lures : bool) :
  List.NoDup (map Pokestop.pokestop_id pokestop_table) ->
  detected B -> detected Bprev -> timestamp <= 0 ->
  let fallback b :=
    Pokestop.get_pokestops pokestop_table trs_quest utcnow utcnow_lures now
      today_timestamp
      (Some (south b)) (Some (west b)) (Some (north b)) (Some (east b))
      None None None None timestamp
      eventless_stops quests invasions lures in
  let panned :=
    Pokestop.get_pokestops pokestop_table trs_quest utcnow utcnow_lures now
      today_timestamp
      (Some (south B)) (Some (west B)) (Some (north B)) (Some (east B))
      (Some (south Bprev)) (Some (west Bprev))
      (Some (north Bprev)) (Some (east Bprev)) timestamp
      eventless_stops quests invasions lures in
  dom (fallback B) ∖ dom (fallback Bprev) = dom panned.
Proof.
  intros Hnd HB HBp Hts. cbv zeta.
  unfold Pokestop.get_pokestops.
  rewrite !PokestopMore.dom_fold_store, !dom_empty_L, !(left_id_L ∅ (∪)).
  rewrite !PokestopMore.result_rows_spec.
  rewrite !(detected_box_of _ HB), !(detected_box_of _ HBp), box_of_absent.
  rewrite !mode_of_fallback, mode_of_panned by done. simpl.
  rewrite <- (keys_difference (fun r : Pokestop.row * option TrsQuest.row =>
                                 Pokestop.pokestop_id r.1)).
  - f_equal; f_equal; f_equal; apply List.filter_ext; intros r;
      by rewrite andb_true_r.
  - intros x y Hx Hy Hk.
    apply PokestopMore.stops_fst in Hx, Hy.
    by rewrite (NoDup_key_inj _ _ _ _ Hnd Hx Hy Hk).
Qed.

Lemma differential_pokestops_witness :
  dom (Pokestop.get_pokestops [PokestopExamples.expired_incident] []
         Examples.noon Examples.noon Examples.noon 0
         (Some 1%Q) (Some 1%Q) (Some 3%Q) (Some 3%Q) None None None None
         0 true true true true)
    ∖ dom (Pokestop.get_pokestops [PokestopExamples.expired_incident] []
             Examples.noon Examples.noon Examples.noon 0
             (Some 2%Q) (Some 2%Q) (Some 4%Q) (Some 4%Q) None None None None
             0 true true true true)
  = dom (Pokestop.get_pokestops [PokestopExamples.expired_incident] []
           Examples.noon Examples.noon Examples.noon 0
           (Some 1%Q) (Some 1%Q) (Some 3%Q) (Some 3%Q)
           (Some 2%Q) (Some 2%Q) (Some 4%Q) (Some 4%Q)
           0 true true true true).
Proof.
  apply (differential_pokestops [PokestopExamples.expired_incident] []
           Examples.noon Examples.noon Examples.noon 0
           Examples.box13 Examples.box24
           0 true true true true).
  - repeat constructor. simpl. tauto.
  - repeat split; discriminate.
  - repeat split; discriminate.
  - lia.
Defined.

(** ** Weather cells *)

Lemma weather_ids_of_map l :
  WeatherView.ids_of (map Weather.asdict l)
  = list_to_set (map Weather.s2_cell_id l).
Proof.
  unfold WeatherView.ids_of. f_equal.
  induction l as [|r l IH]; [done|].
  cbn [map omap list_omap].
  assert (WeatherView.id_of (Weather.asdict r) = Some (Weather.s2_cell_id r))
    as -> by (by vm_compute).
  by rewrite IH.
Qed.

(** X4. Differential property for weather cells.  With unique cell ids, two
    detected boxes and no positive timestamp: the ids [Weather.get_weather]
    returns for box [B] in the fallback mode, minus those it returns for
    [Bprev] in the fallback mode, are the ids it returns in the panned mode
    with current box [B] and previous box [Bprev] (each box being loosened
    by the same tolerance in all three queries). *)
Theorem differential_weather
    (weather : list Weather.row) (B Bprev : BoundingBox) (timestamp : Z) :
  List.NoDup (map Weather.s2_cell_id weather) ->
  detected B -> detected Bprev -> timestamp <= 0 ->
  let fallback b :=
    Weather.get_weather weather
      (Some (south b)) (Some (west b)) (Some (north b)) (Some (east b))
      None None None None timestamp in
  let panned :=
    Weather.get_weather weather
      (Some (south B)) (Some (west B)) (Some (north B)) (Some (east B))
      (Some (south Bprev)) (Some (west Bprev))
      (Some (north Bprev)) (Some (east Bprev)) timestamp in
  WeatherView.ids_of (fallback B) ∖ WeatherView.ids_of (fallback Bprev)
  = WeatherView.ids_of panned.
Proof.
  intros Hnd HB HBp Hts. cbv zeta.
  rewrite !WeatherFacts.get_weather_spec, !weather_ids_of_map.
  rewrite !(detected_box_of _ HB), !(detected_box_of _ HBp), box_of_absent.
  rewrite !mode_of_fallback, mode_of_panned by done. simpl.
  apply (keys_difference_ext Weather.s2_cell_id weather (fun _ => true)
           (fun r => contains (WeatherSpec.rounded B) (Weather.latitude r)
                              (Weather.longitude r))
           (fun r => contains (WeatherSpec.rounded Bprev) (Weather.latitude r)
                              (Weather.longitude r))).
  - intros x y Hx Hy Hk. by rewrite (NoDup_key_inj _ _ _ _ Hnd Hx Hy Hk).
  - intros r. simpl. by destruct (contains (WeatherSpec.rounded B) _ _).
  - intros r. simpl. by destruct (contains (WeatherSpec.rounded Bprev) _ _).
  - intros r. simpl.
    by destruct (contains (WeatherSpec.rounded B) _ _),
      (contains (WeatherSpec.rounded Bprev) _ _).
Qed.

Lemma differential_weather_witness :
  WeatherView.ids_of
    (Weather.get_weather Examples.weather_cells
       (Some 1%Q) (Some 1%Q) (Some 3%Q) (Some 3%Q) None None None None 0)
    ∖ WeatherView.ids_of
        (Weather.get_weather Examples.weather_cells
           (Some 2%Q) (Some 2%Q) (Some 4%Q) (Some 4%Q)
           None None None None 0)
  = WeatherView.ids_of
      (Weather.get_weather Examples.weather_cells
         (Some 1%Q) (Some 1%Q) (Some 3%Q) (Some 3%Q)
         (Some 2%Q) (Some 2%Q) (Some 4%Q) (Some 4%Q) 0).
Proof.
  apply (differential_weather Examples.weather_cells Examples.box13
           Examples.box24 0).
  - repeat constructor; simpl; intuition discriminate.
  - repeat split; discriminate.
  - repeat split; discriminate.
  - lia.
Defined.

(** ** Grouping and ordering *)

Section GroupFacts.

Context {R K : Type} (eqb : K -> K -> bool) (key : R -> K).

Lemma group_by_snoc rows r :
  SQLAgg.group_by eqb key (rows ++ [r])
  = SQLAgg.insert_group eqb (key r) r (SQLAgg.group_by eqb key rows).
Proof. unfold SQLAgg.group_by. by rewrite fold_left_app. Qed.

Lemma insert_group_members k (r : R) gs :
  Permutation (concat (map snd (SQLAgg.insert_group eqb k r gs)))
              (r :: concat (map snd gs)).
Proof.
  induction gs as [|[k' rs] gs IH]; simpl; [done|].
  destruct (eqb k' k); simpl.
  - rewrite <- app_assoc. simpl. symmetry. apply Permutation_middle.
  - rewrite IH. symmetry. apply Permutation_middle.
Qed.

(** The groups partition the rows. *)
Lemma group_by_members rows :
  Permutation (concat (map snd (SQLAgg.group_by eqb key rows))) rows.
Proof.
  induction rows as [|r rows IH] using rev_ind; [done|].
  rewrite group_by_snoc, insert_group_members, IH.
  apply Permutation_cons_append.
Qed.

Lemma group_by_sizes rows :
  fold_right Z.add 0
    (map (fun g => SQLAgg.count g.2) (SQLAgg.group_by eqb key rows))
  = Z.of_nat (length rows).
Proof.
  rewrite <- (Permutation_length (group_by_members rows)).
  induction (SQLAgg.group_by eqb key rows) as [|[k rs] gs IH]; simpl;
    [done|].
  rewrite length_app, IH. unfold SQLAgg.count. simpl. lia.
Qed.

(** Every group has a first row, whose key is the key of the group. *)
Lemma insert_group_heads k (r : R) gs :
  (forall g, In g gs -> exists r0 rs, g.2 = r0 :: rs /\ g.1 = key r0) ->
  k = key r ->
  forall g, In g (SQLAgg.insert_group eqb k r gs) ->
    exists r0 rs, g.2 = r0 :: rs /\ g.1 = key r0.
Proof.
  intros Hgs ->. induction gs as [|[k' rs] gs IH]; simpl.
  - intros g [<-|[]]. by exists r, (@nil R).
  - destruct (eqb k' (key r)); intros g [<-|Hg].
    + destruct (Hgs (k', rs)) as (r0 & rs0 & H1 & H2); [by left|].
      simpl in *. subst rs. by exists r0, (rs0 ++ [r]).
    + apply Hgs. by right.
    + apply Hgs. by left.
    + apply IH; [|done]. intros g' Hg'. apply Hgs. by right.
Qed.

Lemma group_by_heads rows g :
  In g (SQLAgg.group_by eqb key rows) ->
  exists r0 rs, g.2 = r0 :: rs /\ g.1 = key r0.
Proof.
  revert g. induction rows as [|r rows IH] using rev_ind; [by intros g []|].
  rewrite group_by_snoc. by apply insert_group_heads.
Qed.

Lemma group_by_In rows g (r : R) :
  In g (SQLAgg.group_by eqb key rows) -> In r g.2 -> In r rows.
Proof.
  intros Hg Hr. apply (Permutation_in _ (group_by_members rows)).
  apply in_concat. exists g.2. split; [|done]. by apply in_map.
Qed.

(** When [eqb] decides equality of keys, a group holds exactly the rows of
    its key, in table order, no two groups share a key, and every row's key
    has its group. *)
Hypothesis eqb_eq : forall a b, eqb a b = true <-> a = b.

Lemma eqb_false a b : a <> b -> eqb a b = false.
Proof.
  intros Hne. destruct (eqb a b) eqn:E; [|done].
  by apply eqb_eq in E.
Qed.

Lemma eqb_refl a : eqb a a = true.
Proof. by apply eqb_eq. Qed.

Lemma insert_group_fresh k (r : R) gs :
  ~ In k (map fst gs) ->
  SQLAgg.insert_group eqb k r gs = gs ++ [(k, [r])].
Proof.
  induction gs as [|[k' rs] gs IH]; simpl; [done|].
  intros Hk. rewrite eqb_false by (intros ->; apply Hk; by left).
  rewrite IH; [done|]. intros Hin. apply Hk. by right.
Qed.

Lemma insert_group_found k (r : R) gs :
  In k (map fst gs) -> List.NoDup (map fst gs) ->
  SQLAgg.insert_group eqb k r gs
  = map (fun g => if eqb g.1 k then (g.1, g.2 ++ [r]) else g) gs.
Proof.
  induction gs as [|[k' rs] gs IH]; simpl; [done|].
  intros Hk Hnd. apply List.NoDup_cons_iff in Hnd as [Hk' Hnd].
  destruct (eqb k' k) eqn:E.
  - apply eqb_eq in E as ->. f_equal.
    rewrite <- (map_id gs) at 1. apply map_ext_in.
    intros [k2 rs2] Hg. simpl.
    rewrite eqb_false; [done|]. intros ->. apply Hk'.
    by apply (in_map fst _ _ Hg).
  - f_equal. apply IH; [|done].
    destruct Hk as [->|Hk]; [|done]. by rewrite eqb_refl in E.
Qed.

Lemma filter_snoc (f : R -> bool) rows r :
  List.filter f (rows ++ [r])
  = List.filter f rows ++ (if f r then [r] else []).
Proof. rewrite List.filter_app. simpl. by destruct (f r). Qed.

Lemma filter_none (f : R -> bool) rows :
  (forall x, In x rows -> f x = false) -> List.filter f rows = [].
Proof.
  induction rows as [|x rows IH]; simpl; [done|]. intros Hf.
  rewrite (Hf x) by (by left). apply IH. intros y Hy. apply Hf. by right.
Qed.

Lemma NoDup_snoc (l : list K) k :
  List.NoDup l -> ~ In k l -> List.NoDup (l ++ [k]).
Proof.
  induction l as [|a l IH]; simpl; intros Hnd Hk.
  - repeat constructor. by intros [].
  - apply List.NoDup_cons_iff in Hnd as [Ha Hnd]. constructor.
    + intros Hin. apply in_app_or in Hin as [Hin|[<-|[]]]; [done|].
      apply Hk. by left.
    + apply IH; [done|]. intros Hin. apply Hk. by right.
Qed.

Lemma grouped_insert rows r gs :
  SQLAgg.grouped eqb key rows gs ->
  SQLAgg.grouped eqb key (rows ++ [r])
                 (SQLAgg.insert_group eqb (key r) r gs).
Proof.
  intros (Hnd & Hgs & Hall).
  assert (Hdec : In (key r) (map fst gs) \/ ~ In (key r) (map fst gs)).
  { clear -eqb_eq. induction (map fst gs) as [|k ks IH];
      [right; by intros []|].
    destruct (eqb k (key r)) eqn:E.
    - left. left. by apply eqb_eq.
    - destruct IH as [IH|IH]; [left; by right|].
      right. intros [->|Hin]; [by rewrite eqb_refl in E|done]. }
  destruct Hdec as [Hin|Hnin].
  - rewrite insert_group_found by done. repeat split.
    + rewrite map_map.
      rewrite (map_ext _ fst); [done|]. intros g. by destruct (eqb g.1 _).
    + apply in_map_iff in H as (g0 & <- & Hg0).
      destruct (Hgs g0 Hg0) as [Heq _]. rewrite filter_snoc.
      destruct (eqb g0.1 (key r)) eqn:E; simpl.
      * by rewrite E, <- Heq.
      * by rewrite E, app_nil_r.
    + apply in_map_iff in H as (g0 & <- & Hg0).
      destruct (Hgs g0 Hg0) as [_ Hne].
      destruct (eqb g0.1 (key r)); simpl; [|done].
      by destruct g0.2.
    + intros x Hx. rewrite map_map.
      rewrite (map_ext _ fst) by (intros g; by destruct (eqb g.1 _)).
      apply in_app_or in Hx as [Hx|[<-|[]]]; [by apply Hall|done].
  - rewrite insert_group_fresh by done. repeat split.
    + rewrite map_app. simpl.
      by apply NoDup_snoc.
    + apply in_app_or in H as [Hg|[<-|[]]].
      * destruct (Hgs g Hg) as [Heq _]. rewrite filter_snoc.
        rewrite eqb_false, app_nil_r; [done|].
        intros Hk. apply Hnin. rewrite <- Hk. by apply in_map.
      * simpl. rewrite filter_snoc, eqb_refl.
        rewrite filter_none; [done|]. intros x Hx.
        apply eqb_false. intros Hk. apply Hnin. rewrite Hk. by apply Hall.
    + apply in_app_or in H as [Hg|[<-|[]]]; [by apply Hgs|done].
    + intros x Hx. rewrite map_app. apply in_or_app.
      apply in_app_or in Hx as [Hx|[<-|[]]]; [left; by apply Hall|].
      right. by left.
Qed.

Lemma group_by_grouped rows :
  SQLAgg.grouped eqb key rows (SQLAgg.group_by eqb key rows).
Proof.
  induction rows as [|r rows IH] using rev_ind.
  - repeat split; try done. constructor.
  - rewrite group_by_snoc. by apply grouped_insert.
Qed.

End GroupFacts.

(** ** The statistics queries *)

Module StatsFacts.

Import Pokemon PokemonStats PokemonStatsView.

Lemma loop_spec {A} (f : A -> gmap string scalar) (g : A -> Z) l acc :
  fold_left (fun (acc : list (gmap string scalar) * Z) c =>
               (acc.1 ++ [f c], acc.2 + g c)) l acc
  = (acc.1 ++ map f l, acc.2 + fold_right Z.add 0 (map g l)).
Proof.
  revert acc. induction l as [|c l IH]; intros [a t]; simpl.
  - by rewrite app_nil_r, Z.add_0_r.
  - rewrite IH. simpl. rewrite <- app_assoc. simpl. f_equal. lia.
Qed.

Lemma holds_hours utcnow h p :
  SQL.holds (SQL.all_
    (if 0 <? h
     then [ SQL.gt_dt (Some (disappear_time p))
                      (Some (dt_sub utcnow (Py.hours h))) ]
     else []))
  = within_hours utcnow h p.
Proof.
  unfold within_hours.
  destruct (Z.ltb_spec 0 h) as [Hh|Hh].
  - rewrite holds_all_one, PokemonFacts.holds_gt_dt_Some.
    assert ((h <=? 0) = false) as -> by lia. done.
  - assert ((h <=? 0) = true) as -> by lia. done.
Qed.

Lemma max_spec (l : list datetime) x :
  exists m, SQLAgg.max_ (x :: l) = Some m
            /\ In m (x :: l)
            /\ forall y, In y (x :: l) -> dt_le y m = true.
Proof.
  unfold SQLAgg.max_. eexists. split; [done|].
  revert x. induction l as [|a l IH]; intros x; simpl.
  - split; [by left|]. intros y [<-|[]]. unfold dt_le. lia.
  - destruct (IH (SQLAgg.max_dt x a)) as [Hin Hle]. split.
    + destruct Hin as [Hin|Hin]; [|by right; right].
      rewrite <- Hin. unfold SQLAgg.max_dt.
      destruct (dt_lt x a); [right; by left|by left].
    + assert (Hx : dt_le x (SQLAgg.max_dt x a) = true
                   /\ dt_le a (SQLAgg.max_dt x a) = true).
      { unfold SQLAgg.max_dt, dt_le, dt_lt.
        destruct (Z.ltb_spec (to_us x) (to_us a)); split; lia. }
      assert (Hm := Hle _ (or_introl eq_refl)).
      intros y [<-|[<-|Hy]].
      * unfold dt_le in *. lia.
      * unfold dt_le in *. lia.
      * apply Hle. by right.
Qed.

End StatsFacts.

(** X5. [Pokemon.get_spawn_counts]: the total is the number of sightings in
    the period (all of them when [hours] is not positive, else those
    disappearing after [utcnow - hours]); the list has exactly one entry per
    kind that occurs among them, and the count of an entry is the number of
    those sightings of its kind. *)
Theorem spawn_counts_partition
    (pokemon : list Pokemon.row) (utcnow : datetime) (hours : Z) :
  let selected :=
    List.filter (PokemonStatsView.within_hours utcnow hours) pokemon in
  let s := PokemonStats.get_spawn_counts pokemon utcnow hours in
  PokemonStats.total s = Z.of_nat (length selected)
  /\ PokemonStats.total s
     = fold_right Z.add 0
         (map PokemonStats.count_of (PokemonStats.pokemon_list s))
  /\ exists kinds,
       List.NoDup kinds
       /\ (forall k, In k kinds <->
                     exists p, In p selected /\ Pokemon.pokemon_id p = k)
       /\ PokemonStats.pokemon_list s
          = map (fun k =>
                   PokemonStatsView.count_record k
                     (Z.of_nat
                        (length (List.filter
                                   (fun p => k =? Pokemon.pokemon_id p)
                                   selected))))
                kinds.
Proof.
  cbv zeta. unfold PokemonStats.get_spawn_counts.
  rewrite StatsFacts.loop_spec. simpl.
  unfold SQL.filter.
  rewrite (List.filter_ext _ (PokemonStatsView.within_hours utcnow hours))
    by (intros p; apply StatsFacts.holds_hours).
  set (selected :=
         List.filter (PokemonStatsView.within_hours utcnow hours) pokemon).
  destruct (group_by_grouped Z.eqb Pokemon.pokemon_id Z.eqb_eq selected)
    as (Hnd & Hgs & Hall).
  set (gs := SQLAgg.group_by Z.eqb Pokemon.pokemon_id selected) in *.
  split; [|split].
  - rewrite map_map. simpl. apply group_by_sizes.
  - rewrite !map_map. reflexivity.
  - exists (map fst gs). split; [done|]. split.
    + intros k. split.
      * intros Hk. apply in_map_iff in Hk as (g & <- & Hg).
        destruct (Hgs g Hg) as [Heq Hne].
        destruct g.2 as [|p rs] eqn:Hg2; [done|].
        assert (Hp : In p (List.filter
                             (fun x => g.1 =? Pokemon.pokemon_id x) selected))
          by (rewrite <- Heq; by left).
        apply filter_In in Hp as [Hp Hk]. exists p. split; [done|]. lia.
      * intros (p & Hp & <-). by apply Hall.
    + rewrite !map_map. apply map_ext_in. intros g Hg. simpl.
      destruct (Hgs g Hg) as [-> _]. reflexivity.
Qed.

Lemma seen_key_eqb_eq a b :
  PokemonStats.seen_key_eqb a b = true <-> a = b.
Proof.
  unfold PokemonStats.seen_key_eqb. destruct a as [a1 a2], b as [b1 b2].
  simpl. rewrite andb_true_iff, Z.eqb_eq, bool_decide_eq_true.
  split; [by intros [-> ->]|by intros [= -> ->]].
Qed.

(** X6. [Pokemon.get_seen]: the total is the number of sightings in the
    period; the list has exactly one entry per (kind, form) pair that occurs
    among them, a missing form being a form of its own; the count of an entry
    is the number of those sightings of its pair, and its disappear_time is
    the latest disappearance among them: the time of one of them, and not
    before the time of any of them. *)
Theorem seen_latest
    (pokemon : list Pokemon.row) (utcnow : datetime) (timediff : Z) :
  let selected :=
    List.filter (PokemonStatsView.within_hours utcnow timediff) pokemon in
  let s := PokemonStats.get_seen pokemon utcnow timediff in
  let members k :=
    List.filter (fun p => PokemonStats.seen_key_eqb
                            k (PokemonStats.seen_key p)) selected in
  PokemonStats.total s = Z.of_nat (length selected)
  /\ exists keys,
       List.NoDup keys
       /\ (forall k, In k keys <->
                     exists p, In p selected /\ PokemonStats.seen_key p = k)
       /\ PokemonStats.pokemon_list s
          = map (fun k =>
                   PokemonStatsView.seen_record k.1 k.2
                     (Z.of_nat (length (members k)))
                     (SQLAgg.max_ (map Pokemon.disappear_time (members k))))
                keys
       /\ (forall k, In k keys ->
             exists m,
               SQLAgg.max_ (map Pokemon.disappear_time (members k)) = Some m
               /\ (exists p, In p (members k)
                             /\ Pokemon.disappear_time p = m)
               /\ (forall p, In p (members k) ->
                     dt_le (Pokemon.disappear_time p) m = true)).
Proof.
  cbv zeta. unfold PokemonStats.get_seen.
  rewrite StatsFacts.loop_spec. simpl.
  unfold SQL.filter.
  rewrite (List.filter_ext _ (PokemonStatsView.within_hours utcnow timediff))
    by (intros p; apply StatsFacts.holds_hours).
  set (selected :=
         List.filter (PokemonStatsView.within_hours utcnow timediff) pokemon).
  destruct (group_by_grouped PokemonStats.seen_key_eqb PokemonStats.seen_key
              seen_key_eqb_eq selected) as (Hnd & Hgs & Hall).
  set (gs := SQLAgg.group_by PokemonStats.seen_key_eqb
                             PokemonStats.seen_key selected) in *.
  split.
  - rewrite map_map. simpl.
    apply (group_by_sizes PokemonStats.seen_key_eqb PokemonStats.seen_key).
  - exists (map fst gs). split; [done|]. split; [|split].
    + intros k. split.
      * intros Hk. apply in_map_iff in Hk as (g & <- & Hg).
        destruct (Hgs g Hg) as [Heq Hne].
        destruct g.2 as [|p rs] eqn:Hg2; [done|].
        assert (Hp : In p (List.filter
                             (fun x => PokemonStats.seen_key_eqb
                                         g.1 (PokemonStats.seen_key x))
                             selected))
          by (rewrite <- Heq; by left).
        apply filter_In in Hp as [Hp Hk]. exists p. split; [done|].
        symmetry. by apply seen_key_eqb_eq.
      * intros (p & Hp & <-). by apply Hall.
    + rewrite !map_map. apply map_ext_in. intros g Hg. simpl.
      destruct (Hgs g Hg) as [<- _]. reflexivity.
    + intros k Hk. apply in_map_iff in Hk as (g & <- & Hg).
      destruct (Hgs g Hg) as [<- Hne].
      destruct g.2 as [|p rs]; [done|]. simpl map.
      destruct (StatsFacts.max_spec (map Pokemon.disappear_time rs)
                  (Pokemon.disappear_time p)) as (m & Hm & Hin & Hle).
      exists m. split; [done|]. split.
      * change (Pokemon.disappear_time p :: map Pokemon.disappear_time rs)
          with (map Pokemon.disappear_time (p :: rs)) in Hin.
        apply in_map_iff in Hin as (q & Hq & Hin). by exists q.
      * intros q Hq. apply Hle.
        change (Pokemon.disappear_time p :: map Pokemon.disappear_time rs)
          with (map Pokemon.disappear_time (p :: rs)).
        by apply in_map.
Qed.

Module AppearanceFacts.

Import Pokemon PokemonStats PokemonStatsView.

Lemma holds_form f p :
  SQL.holds (SQL.cmp Z.eqb (form p) (Some f))
  = bool_decide (form p = Some f).
Proof.
  unfold SQL.cmp. destruct (form p) as [x|]; [|done].
  destruct (Z.eqb_spec x f) as [->|Hne].
  - by rewrite bool_decide_eq_true_2.
  - rewrite bool_decide_eq_false_2; [done|]. by intros [= ->].
Qed.

Lemma holds_form_part form_id p :
  SQL.holds (SQL.all_ match form_id with
                      | Some f => [ SQL.cmp Z.eqb (form p) (Some f) ]
                      | None => []
                      end)
  = match form_id with
    | Some f => bool_decide (form p = Some f)
    | None => true
    end.
Proof.
  destruct form_id as [f|]; [|done]. by rewrite holds_all_one, holds_form.
Qed.

Lemma holds_bool (b : bool) : SQL.holds (Some b) = b.
Proof. by destruct b. Qed.

Lemma appearance_fields (a : Q * Q * Z * option Z * Z * Z) :
  let d : gmap string scalar :=
    list_to_map [ ("latitude", VFloat a.1.1.1.1.1);
                  ("longitude", VFloat a.1.1.1.1.2);
                  ("pokemon_id", VInt a.1.1.1.2);
                  ("form", opt VInt a.1.1.2);
                  ("spawnpoint_id", VInt a.1.2);
                  ("count", VInt a.2) ]%string in
  d !! "latitude"%string = Some (VFloat a.1.1.1.1.1)
  /\ d !! "longitude"%string = Some (VFloat a.1.1.1.1.2)
  /\ d !! "pokemon_id"%string = Some (VInt a.1.1.1.2)
  /\ d !! "form"%string = Some (opt VInt a.1.1.2)
  /\ d !! "spawnpoint_id"%string = Some (VInt a.1.2)
  /\ count_of d = a.2.
Proof. by vm_compute. Qed.

End AppearanceFacts.

(** X7. [Pokemon.get_appearances]: every record it returns stands for a
    stored sighting of the kind asked for (and of the form asked for, when
    one is given) in the period, carries that sighting's position, form and
    spawn point, and counts at least one sighting; the counts of all records
    add up to the number of such sightings.  A [timediff] that is not
    positive sets no time limit. *)
Theorem appearances_of_kind
    (pokemon : list Pokemon.row) (utcnow : datetime)
    (pokemon_id : Z) (form_id : option Z) (timediff : Z) :
  let selected :=
    List.filter (fun p => PokemonStatsView.of_kind pokemon_id form_id p
                          && PokemonStatsView.within_hours utcnow timediff p)
                pokemon in
  let result :=
    PokemonStats.get_appearances pokemon utcnow pokemon_id form_id timediff in
  fold_right Z.add 0 (map PokemonStats.count_of result)
  = Z.of_nat (length selected)
  /\ (forall d, In d result ->
        exists p,
          In p selected
          /\ Pokemon.pokemon_id p = pokemon_id
          /\ (forall f, form_id = Some f -> Pokemon.form p = Some f)
          /\ d !! "pokemon_id"%string = Some (VInt pokemon_id)
          /\ d !! "form"%string = Some (opt VInt (Pokemon.form p))
          /\ d !! "spawnpoint_id"%string
             = Some (VInt (Pokemon.spawnpoint_id p))
          /\ d !! "latitude"%string = Some (VFloat (Pokemon.latitude p))
          /\ d !! "longitude"%string = Some (VFloat (Pokemon.longitude p))
          /\ 1 <= PokemonStats.count_of d)
  /\ (timediff <= 0 ->
      selected
      = List.filter (PokemonStatsView.of_kind pokemon_id form_id) pokemon).
Proof.
  cbv zeta. unfold PokemonStats.get_appearances, SQL.filter.
  rewrite (List.filter_ext _
             (fun p => PokemonStatsView.of_kind pokemon_id form_id p
                       && PokemonStatsView.within_hours utcnow timediff p)).
  2:{ intros p. rewrite !holds_all_app, StatsFacts.holds_hours.
      rewrite AppearanceFacts.holds_form_part, holds_all_one.
      rewrite AppearanceFacts.holds_bool.
      unfold PokemonStatsView.of_kind. by rewrite andb_assoc. }
  set (selected := List.filter _ pokemon).
  set (gs := SQLAgg.group_by _ _ selected).
  split; [|split].
  - rewrite !map_map.
    rewrite <- (group_by_sizes PokemonStats.appearance_key_eqb
                  PokemonStats.appearance_key selected).
    fold gs. by f_equal.
  - intros d Hd. rewrite map_map in Hd.
    apply in_map_iff in Hd as (g & <- & Hg).
    destruct (group_by_heads _ _ _ _ Hg) as (p & rs & Hg2 & Hg1).
    assert (Hp : In p selected).
    { apply (group_by_In PokemonStats.appearance_key_eqb
               PokemonStats.appearance_key selected g); [done|].
      rewrite Hg2. by left. }
    assert (Hsel := Hp). apply filter_In in Hsel as [_ Hsel].
    apply andb_true_iff in Hsel as [Hkind _].
    unfold PokemonStatsView.of_kind in Hkind.
    apply andb_true_iff in Hkind as [Hid Hform]. apply Z.eqb_eq in Hid.
    destruct (AppearanceFacts.appearance_fields (g.1, SQLAgg.count g.2))
      as (Hlat & Hlng & Hpid & Hf & Hsp & Hc). cbv zeta in *.
    exists p. split; [done|]. split; [done|]. split.
    { intros f ->. by apply bool_decide_eq_true in Hform. }
    rewrite Hlat, Hlng, Hpid, Hf, Hsp, Hc. simpl. rewrite Hg1. simpl.
    rewrite Hid. repeat split; try done.
    unfold SQLAgg.count. rewrite Hg2. simpl. lia.
  - intros Hts. unfold selected. apply List.filter_ext. intros p.
    unfold PokemonStatsView.within_hours.
    assert ((timediff <=? 0) = true) as -> by lia.
    by rewrite andb_true_r.
Qed.

(** ** Ordering *)

Section OrderFacts.

Context {R : Type} (key : R -> Z).

Lemma insert_sorted_perm r l :
  Permutation (SQLAgg.insert_sorted key r l) (r :: l).
Proof.
  induction l as [|x l IH]; simpl; [done|].
  destruct (key r <=? key x); [done|].
  rewrite IH. apply perm_swap.
Qed.

Lemma order_by_perm rows : Permutation (SQLAgg.order_by key rows) rows.
Proof.
  induction rows as [|r rows IH]; simpl; [done|].
  by rewrite insert_sorted_perm, IH.
Qed.

Lemma insert_sorted_sorted r l :
  StronglySorted (fun a b => key a <= key b) l ->
  StronglySorted (fun a b => key a <= key b) (SQLAgg.insert_sorted key r l).
Proof.
  induction l as [|x l IH]; simpl; intros Hs.
  - repeat constructor.
  - apply StronglySorted_inv in Hs as [Hs Hx].
    destruct (Z.leb_spec (key r) (key x)) as [Hle|Hgt].
    + constructor; [by constructor|].
      constructor; [done|].
      rewrite List.Forall_forall in *. intros a Ha.
      specialize (Hx a Ha). simpl in *. lia.
    + constructor; [by apply IH|].
      rewrite List.Forall_forall. intros a Ha.
      apply (Permutation_in _ (insert_sorted_perm r l)) in Ha.
      destruct Ha as [<-|Ha]; [lia|].
      rewrite List.Forall_forall in Hx. by apply Hx.
Qed.

Lemma order_by_sorted rows :
  StronglySorted (fun a b => key a <= key b) (SQLAgg.order_by key rows).
Proof.
  induction rows as [|r rows IH]; simpl; [constructor|].
  by apply insert_sorted_sorted.
Qed.

End OrderFacts.

Lemma times_where_spec utcnow pid sid form_id timediff (p : Pokemon.row) :
  SQL.holds (SQL.all_
    ([ Some (Pokemon.pokemon_id p =? pid);
       Some (Pokemon.spawnpoint_id p =? sid) ]
     ++ match form_id with
        | Some f => [ SQL.cmp Z.eqb (Pokemon.form p) (Some f) ]
        | None => []
        end
     ++ (if negb (timediff =? 0) then
           [ SQL.gt_dt (Some (Pokemon.disappear_time p))
                       (Some (dt_sub utcnow (Py.hours timediff))) ]
         else [])))
  = PokemonStatsView.of_kind pid form_id p
    && (Pokemon.spawnpoint_id p =? sid)
    && PokemonStatsView.limited utcnow timediff p.
Proof.
  rewrite !holds_all_app, AppearanceFacts.holds_form_part.
  rewrite !holds_all_cons, !AppearanceFacts.holds_bool.
  unfold PokemonStatsView.of_kind, PokemonStatsView.limited.
  destruct (timediff =? 0); simpl.
  - by destruct (_ =? pid), (_ =? sid), form_id as [f|];
      try destruct (bool_decide _).
  - rewrite holds_all_one, PokemonFacts.holds_gt_dt_Some.
    by destruct (_ =? pid), (_ =? sid), form_id as [f|], (dt_lt _ _);
      try destruct (bool_decide _).
Qed.

Lemma appearance_times_perm pokemon utcnow pid sid form_id timediff :
  Permutation
    (PokemonStats.get_appearances_times_by_spawnpoint
       pokemon utcnow pid sid form_id timediff)
    (map Pokemon.disappear_time
       (List.filter
          (fun p => PokemonStatsView.of_kind pid form_id p
                    && (Pokemon.spawnpoint_id p =? sid)
                    && PokemonStatsView.limited utcnow timediff p)
          pokemon)).
Proof.
  unfold PokemonStats.get_appearances_times_by_spawnpoint, SQL.filter.
  rewrite (List.filter_ext _ _
             (times_where_spec utcnow pid sid form_id timediff)).
  apply Permutation_map, order_by_perm.
Qed.

(** X8. [Pokemon.get_appearances_times_by_spawnpoint] returns the
    disappearance times of exactly the stored sightings of the kind (and
    form, when given) at the spawn point that pass its time limit, each as
    often as it is stored, in ascending order. *)
Theorem appearance_times_sorted
    (pokemon : list Pokemon.row) (utcnow : datetime)
    (pokemon_id spawnpoint_id : Z) (form_id : option Z) (timediff : Z) :
  let selected :=
    List.filter
      (fun p => PokemonStatsView.of_kind pokemon_id form_id p
                && (Pokemon.spawnpoint_id p =? spawnpoint_id)
                && PokemonStatsView.limited utcnow timediff p)
      pokemon in
  let result :=
    PokemonStats.get_appearances_times_by_spawnpoint
      pokemon utcnow pokemon_id spawnpoint_id form_id timediff in
  Permutation result (map Pokemon.disappear_time selected)
  /\ StronglySorted (fun a b => dt_le a b = true) result.
Proof.
  cbv zeta. split; [apply appearance_times_perm|].
  unfold PokemonStats.get_appearances_times_by_spawnpoint.
  unfold SQL.filter.
  rewrite (List.filter_ext _ _
             (times_where_spec utcnow pokemon_id spawnpoint_id
                               form_id timediff)).
  set (selected := List.filter _ pokemon).
  - pose proof (order_by_sorted
                  (fun p => to_us (Pokemon.disappear_time p)) selected) as Hs.
    induction Hs as [|p l Hs IH Hp]; simpl; constructor; [done|].
    rewrite List.Forall_forall in *. intros t Ht.
    apply in_map_iff in Ht as (q & <- & Hq).
    unfold dt_le. apply Z.leb_le. by apply Hp.
Qed.

(** X9. A negative [timediff] is read differently by the two appearance
    queries.  [get_appearances_times_by_spawnpoint] tests it for truth and so
    applies it: every time it returns lies more than [-timediff] hours after
    [utcnow].  [get_appearances] tests it for being positive and so ignores
    it: the result is that of [timediff = 0]. *)
Theorem negative_timediff
    (pokemon : list Pokemon.row) (utcnow : datetime)
    (pokemon_id spawnpoint_id : Z) (form_id : option Z) (timediff : Z) :
  timediff < 0 ->
  (forall t,
     In t (PokemonStats.get_appearances_times_by_spawnpoint
             pokemon utcnow pokemon_id spawnpoint_id form_id timediff) ->
     dt_lt (dt_add utcnow (hours (- timediff))) t = true)
  /\ PokemonStats.get_appearances pokemon utcnow pokemon_id form_id timediff
     = PokemonStats.get_appearances pokemon utcnow pokemon_id form_id 0.
Proof.
  intros Hneg. split.
  - intros t Ht.
    apply (Permutation_in _ (appearance_times_perm pokemon utcnow pokemon_id
                               spawnpoint_id form_id timediff)) in Ht.
    apply in_map_iff in Ht as (p & <- & Hp).
    apply filter_In in Hp as [_ Hp].
    apply andb_true_iff in Hp as [_ Hp].
    unfold PokemonStatsView.limited in Hp.
    assert ((timediff =? 0) = false) as Hz by lia.
    rewrite Hz in Hp. simpl in Hp.
    unfold dt_lt in *. rewrite dt_sub_us in Hp. rewrite dt_add_us.
    unfold hours in *. lia.
  - unfold PokemonStats.get_appearances.
    assert ((0 <? timediff) = false) as -> by lia. reflexivity.
Qed.

Lemma negative_timediff_witness :
  (forall t,
     In t (PokemonStats.get_appearances_times_by_spawnpoint
             Examples.sightings (Examples.at_hour 10) 1 0 None (-2)) ->
     dt_lt (dt_add (Examples.at_hour 10) (hours (- -2))) t = true)
  /\ PokemonStats.get_appearances
       Examples.sightings (Examples.at_hour 10) 1 None (-2)
     = PokemonStats.get_appearances
         Examples.sightings (Examples.at_hour 10) 1 None 0.
Proof.
  apply (negative_timediff Examples.sightings (Examples.at_hour 10)
                           1 0 None (-2)).
  lia.
Defined.

(** ** The regular cleanup *)

Module CleanupFacts.

Import Pokestop Cleanup CleanupView.

Lemma holds_lt_lure t p :
  SQL.holds (SQL.cmp dt_lt (lure_expiration p) (Some t)) = lure_expired t p.
Proof.
  unfold lure_expired, SQL.cmp. destruct (lure_expiration p) as [e|]; [|done].
  by destruct (dt_lt e t).
Qed.

Lemma cleanup_map t tbl :
  db_cleanup_regular t tbl
  = map (fun p => if lure_expired t p then clear_lure p else p) tbl.
Proof.
  unfold db_cleanup_regular. apply map_ext. intros p.
  by rewrite holds_lt_lure.
Qed.

Lemma lure_expired_clear t p : lure_expired t (clear_lure p) = false.
Proof. reflexivity. Qed.

Lemma lure_expired_mono t1 t2 p :
  to_us t1 <= to_us t2 -> lure_expired t1 p = true -> lure_expired t2 p = true.
Proof.
  unfold lure_expired, dt_lt. destruct (lure_expiration p); [|done].
  intros Hle Ht. apply Z.ltb_lt in Ht. apply Z.ltb_lt. lia.
Qed.

End CleanupFacts.

(** X10. [db_cleanup_regular] (which is all that [clean_db_loop] runs) keeps
    every stop, in order: a stop whose lure ended strictly before [utcnow]
    gets both lure columns set to NULL, every other stop is left as it is,
    and no other column of any stop changes.  Afterwards no stored lure
    expiration lies before [utcnow]. *)
Theorem cleanup_clears_expired_lures
    (utcnow : datetime) (pokestop_table : list Pokestop.row) :
  let cleaned := Cleanup.clean_db_loop utcnow pokestop_table in
  Forall2
    (fun p p' =>
       CleanupView.same_but_lure p p'
       /\ (CleanupView.lure_expired utcnow p = true ->
           Pokestop.lure_expiration p' = None
           /\ Pokestop.active_fort_modifier p' = None)
       /\ (CleanupView.lure_expired utcnow p = false -> p' = p))
    pokestop_table cleaned
  /\ (forall p' e,
        In p' cleaned -> Pokestop.lure_expiration p' = Some e ->
        dt_le utcnow e = true).
Proof.
  cbv zeta. unfold Cleanup.clean_db_loop.
  rewrite CleanupFacts.cleanup_map. split.
  - induction pokestop_table as [|p tbl IH]; simpl; constructor; [|done].
    destruct (CleanupView.lure_expired utcnow p) eqn:He.
    + split; [by repeat split|]. by split.
    + split; [by repeat split|]. by split.
  - intros p' e Hp' He. apply in_map_iff in Hp' as (p & <- & Hp).
    destruct (CleanupView.lure_expired utcnow p) eqn:Hx; [done|].
    unfold CleanupView.lure_expired in Hx. rewrite He in Hx.
    unfold dt_lt, dt_le in *. lia.
Qed.

(** X11. Running the regular cleanup twice, at instants [t1 <= t2] in either
    order, leaves the table that one run at [t2] leaves; in particular a
    second run at the same instant changes nothing. *)
Theorem cleanup_twice
    (t1 t2 : datetime) (pokestop_table : list Pokestop.row) :
  to_us t1 <= to_us t2 ->
  Cleanup.db_cleanup_regular t2 (Cleanup.db_cleanup_regular t1 pokestop_table)
  = Cleanup.db_cleanup_regular t2 pokestop_table
  /\ Cleanup.db_cleanup_regular t1
       (Cleanup.db_cleanup_regular t2 pokestop_table)
     = Cleanup.db_cleanup_regular t2 pokestop_table.
Proof.
  intros Hle. rewrite !CleanupFacts.cleanup_map, !map_map. split.
  - apply map_ext. intros p.
    destruct (CleanupView.lure_expired t1 p) eqn:H1.
    + rewrite CleanupFacts.lure_expired_clear.
      by rewrite (CleanupFacts.lure_expired_mono t1 t2 p Hle H1).
    + done.
  - apply map_ext. intros p.
    destruct (CleanupView.lure_expired t2 p) eqn:H2.
    + by rewrite CleanupFacts.lure_expired_clear.
    + destruct (CleanupView.lure_expired t1 p) eqn:H1; [|done].
      by rewrite (CleanupFacts.lure_expired_mono t1 t2 p Hle H1) in H2.
Qed.

Lemma cleanup_twice_witness :
  Cleanup.db_cleanup_regular Examples.noon
    (Cleanup.db_cleanup_regular (Examples.at_hour 11)
       [PokestopExamples.stop None None (Some (Examples.at_hour 10)) (Some 501)])
  = Cleanup.db_cleanup_regular Examples.noon
      [PokestopExamples.stop None None (Some (Examples.at_hour 10)) (Some 501)]
  /\ Cleanup.db_cleanup_regular (Examples.at_hour 11)
       (Cleanup.db_cleanup_regular Examples.noon
          [PokestopExamples.stop None None (Some (Examples.at_hour 10))
                                 (Some 501)])
     = Cleanup.db_cleanup_regular Examples.noon
         [PokestopExamples.stop None None (Some (Examples.at_hour 10))
                                (Some 501)].
Proof.
  apply (cleanup_twice (Examples.at_hour 11) Examples.noon).
  vm_compute. discriminate.
Defined.

Module CleanupInvisible.

Import Pokestop Cleanup CleanupView.

Lemma orm_to_dict_clear p :
  orm_to_dict (clear_lure p)
  = <["lure_expiration"%string := Scalar VNone]>
      (<["active_fort_modifier"%string := Scalar VNone]> (orm_to_dict p)).
Proof. vm_cast_no_check (@eq_refl _ (orm_to_dict (clear_lure p))). Qed.

Ltac by_key k :=
  apply map_eq; intros k;
  destruct (decide (k = "lure_expiration"%string)) as [->|?];
    [by PokestopFacts.lookup_through|];
  destruct (decide (k = "active_fort_modifier"%string)) as [->|?];
    [by PokestopFacts.lookup_through|];
  destruct (decide (k = "incident_expiration"%string)) as [->|?];
    [by PokestopFacts.lookup_through|];
  destruct (decide (k = "incident_grunt_type"%string)) as [->|?];
    [by PokestopFacts.lookup_through|];
  destruct (decide (k = "quest"%string)) as [->|?];
    [by PokestopFacts.lookup_through|];
  by rewrite !lookup_insert_ne by done.

(** Once its lure has ended before [now], a stop is emitted the same way
    whether or not the cleanup has cleared its lure columns. *)
Lemma emit_clear quests invasions lures now p x :
  lure_expired now p = true ->
  emit quests invasions lures now (clear_lure p, x)
  = emit quests invasions lures now (p, x).
Proof.
  intros Hexp. unfold emit. cbn [fst snd]. rewrite orm_to_dict_clear.
  destruct (PokestopFacts.orm_to_dict_fields p) as (_ & _ & Hie & _ & Hle).
  set (D := orm_to_dict p) in *.
  set (qv := match (if quests then x else None) with
             | Some q => Dict (quest_dict q)
             | None => Scalar VNone
             end).
  assert (Hq : forall m : gmap string value,
            match (if quests then x else None) with
            | Some q => <["quest"%string := Dict (quest_dict q)]> m
            | None => <["quest"%string := Scalar VNone]> m
            end = <["quest"%string := qv]> m).
  { intros m. unfold qv. by destruct (if quests then x else None). }
  rewrite !Hq.
  set (D' := <["lure_expiration"%string := Scalar VNone]>
               (<["active_fort_modifier"%string := Scalar VNone]> D)).
  assert (E1 : suppressed (<["quest"%string := qv]> D')
                          "incident_expiration" now invasions
               = PokestopSpec.hidden (incident_expiration p) now invasions).
  { apply PokestopFacts.suppressed_spec. unfold D'.
    PokestopFacts.lookup_through. exact Hie. }
  assert (E2 : suppressed (<["quest"%string := qv]> D)
                          "incident_expiration" now invasions
               = PokestopSpec.hidden (incident_expiration p) now invasions).
  { apply PokestopFacts.suppressed_spec.
    PokestopFacts.lookup_through. exact Hie. }
  rewrite E1, E2.
  assert (Hhid : PokestopSpec.hidden (lure_expiration p) now lures = true).
  { unfold lure_expired in Hexp. unfold PokestopSpec.hidden.
    destruct (lure_expiration p); [|done]. by rewrite Hexp. }
  destruct (PokestopSpec.hidden (incident_expiration p) now invasions).
  - set (d2' := <["incident_expiration"%string := Scalar VNone]> _).
    set (d2 := <["incident_expiration"%string := Scalar VNone]> _).
    assert (E3 : suppressed d2' "lure_expiration" now lures = false).
    { rewrite (PokestopFacts.suppressed_spec d2' _ None); [done|].
      unfold d2', D'. by PokestopFacts.lookup_through. }
    assert (E4 : suppressed d2 "lure_expiration" now lures = true).
    { rewrite (PokestopFacts.suppressed_spec d2 _ (lure_expiration p));
        [done|].
      unfold d2. PokestopFacts.lookup_through. exact Hle. }
    rewrite E3, E4. unfold d2', d2, D'. by_key k.
  - set (d2' := <["quest"%string := qv]> D').
    set (d2 := <["quest"%string := qv]> D).
    assert (E3 : suppressed d2' "lure_expiration" now lures = false).
    { rewrite (PokestopFacts.suppressed_spec d2' _ None); [done|].
      unfold d2', D'. by PokestopFacts.lookup_through. }
    assert (E4 : suppressed d2 "lure_expiration" now lures = true).
    { rewrite (PokestopFacts.suppressed_spec d2 _ (lure_expiration p));
        [done|].
      unfold d2. PokestopFacts.lookup_through. exact Hle. }
    rewrite E3, E4. unfold d2', d2, D'. by_key k.
Qed.


Lemma cleanup_clean c tbl : db_cleanup_regular c tbl = map (clean c) tbl.
Proof. apply CleanupFacts.cleanup_map. Qed.

Lemma emit_clean quests invasions lures c now r :
  to_us c <= to_us now ->
  emit quests invasions lures now (clean c r.1, r.2)
  = emit quests invasions lures now r.
Proof.
  intros Hle. unfold clean. destruct (lure_expired c r.1) eqn:He.
  - rewrite emit_clear; [by destruct r|].
    by apply (CleanupFacts.lure_expired_mono c now).
  - by destruct r.
Qed.

Lemma mode_filter_clean sw sg ne ng osw osg one ong ts c p :
  mode_filter sw sg ne ng osw osg one ong ts (clean c p)
  = mode_filter sw sg ne ng osw osg one ong ts p.
Proof. unfold clean. by destruct (lure_expired c p). Qed.

(** An ended lure counts as no lure in the "only interesting" filter,
    whether its expiration is still stored or already cleared. *)
Lemma eventless_clean utcnow utcnow_lures eventless quests invasions lures
    c r :
  to_us c <= to_us utcnow_lures ->
  SQL.holds (SQL.all_ (eventless_filter utcnow utcnow_lures eventless quests
                                        invasions lures (clean c r.1, r.2)))
  = SQL.holds (SQL.all_ (eventless_filter utcnow utcnow_lures eventless
                                          quests invasions lures r)).
Proof.
  intros Hle. unfold clean. destruct (lure_expired c r.1) eqn:He;
    [|by destruct r].
  unfold eventless_filter. cbn [fst snd].
  change (incident_expiration (clear_lure r.1))
    with (incident_expiration r.1).
  change (lure_expiration (clear_lure r.1)) with (@None datetime).
  assert (Hl : SQL.gt_dt (lure_expiration r.1) (Some utcnow_lures)
               = Some false).
  { unfold lure_expired in He. unfold SQL.gt_dt, SQL.cmp.
    destruct (lure_expiration r.1) as [e|]; [|done].
    f_equal. unfold dt_lt in *. lia. }
  rewrite Hl.
  generalize (SQL.gt_dt (incident_expiration r.1) (Some utcnow)).
  generalize (bool_decide (is_Some r.2)).
  intros b t.
  by destruct eventless, quests, invasions, lures, b, t as [[]|].
Qed.

Lemma outerjoin_map {A B} (on : A -> B -> bool) (f : A -> A) l r :
  (forall a b, on (f a) b = on a b) ->
  SQL.outerjoin on (map f l) r
  = map (fun x => (f x.1, x.2)) (SQL.outerjoin on l r).
Proof.
  intros Hon. unfold SQL.outerjoin.
  induction l as [|a l IH]; [done|].
  cbn [map flat_map]. rewrite map_app. f_equal; [|exact IH].
  rewrite (List.filter_ext (on (f a)) (on a)) by (intros b; apply Hon).
  destruct (List.filter (on a) r) as [|b ms]; [done|].
  cbn [map]. f_equal. by rewrite List.map_map.
Qed.

Lemma filter_map_comm {A} (g : A -> A) (c : A -> bool) l :
  (forall a, c (g a) = c a) ->
  List.filter c (map g l) = map g (List.filter c l).
Proof.
  intros Hc. induction l as [|a l IH]; simpl; [done|].
  rewrite Hc, IH. by destruct (c a).
Qed.

Lemma fold_left_map_ext {A S} (step : S -> A -> S) (g : A -> A) l s :
  (forall s a, step s (g a) = step s a) ->
  fold_left step (map g l) s = fold_left step l s.
Proof.
  intros Hs. revert s. induction l as [|a l IH]; intros s; simpl; [done|].
  by rewrite Hs, IH.
Qed.

End CleanupInvisible.

(** X12. The regular cleanup cannot be seen through
    [Pokestop.get_pokestops]: when the cleanup ran at an instant [c] that is
    not after the clock read of the lure term nor after the clock read that
    precedes the projection, the query returns the same dictionary on the
    cleaned table as on the table before the cleanup, in every sync mode and
    for every choice of switches. *)
Theorem cleanup_invisible_to_pokestops
    (pokestop_table : list Pokestop.row) (trs_quest : list TrsQuest.row)
    (c utcnow utcnow_lures now : datetime) (today_timestamp : Z)
    (swLat swLng neLat neLng oSwLat oSwLng oNeLat oNeLng : option Q)
    (timestamp : Z) (eventless_stops quests invasions lures : bool) :
  to_us c <= to_us utcnow_lures -> to_us c <= to_us now ->
  Pokestop.get_pokestops (Cleanup.db_cleanup_regular c pokestop_table)
    trs_quest utcnow utcnow_lures now today_timestamp
    swLat swLng neLat neLng oSwLat oSwLng oNeLat oNeLng timestamp
    eventless_stops quests invasions lures
  = Pokestop.get_pokestops pokestop_table
      trs_quest utcnow utcnow_lures now today_timestamp
      swLat swLng neLat neLng oSwLat oSwLng oNeLat oNeLng timestamp
      eventless_stops quests invasions lures.
Proof.
  intros Hu Hn. unfold Pokestop.get_pokestops, Pokestop.result_rows.
  rewrite CleanupInvisible.cleanup_clean.
  set (g := fun x : Pokestop.row * option TrsQuest.row =>
              (CleanupView.clean c x.1, x.2)).
  assert (Hquery :
    (if quests
     then SQL.outerjoin
            (fun p q => String.eqb (Pokestop.pokestop_id p) (TrsQuest.GUID q)
                        && (today_timestamp <=? TrsQuest.quest_timestamp q))
            (map (CleanupView.clean c) pokestop_table) trs_quest
     else map (fun p => (p, None)) (map (CleanupView.clean c) pokestop_table))
    = map g
        (if quests
         then SQL.outerjoin
                (fun p q =>
                   String.eqb (Pokestop.pokestop_id p) (TrsQuest.GUID q)
                   && (today_timestamp <=? TrsQuest.quest_timestamp q))
                pokestop_table trs_quest
         else map (fun p => (p, None)) pokestop_table)).
  { destruct quests.
    - apply CleanupInvisible.outerjoin_map. intros a b.
      unfold CleanupView.clean. by destruct (CleanupView.lure_expired c a).
    - by rewrite !List.map_map. }
  rewrite Hquery. unfold SQL.filter.
  rewrite CleanupInvisible.filter_map_comm.
  - apply CleanupInvisible.fold_left_map_ext. intros s a. unfold g.
    by rewrite CleanupInvisible.emit_clean.
  - intros a. unfold g. rewrite !holds_all_app. cbn [fst snd].
    rewrite CleanupInvisible.mode_filter_clean.
    by rewrite (CleanupInvisible.eventless_clean utcnow utcnow_lures
                  eventless_stops quests invasions lures c a Hu).
Qed.

Lemma cleanup_invisible_to_pokestops_witness :
  Pokestop.get_pokestops
    (Cleanup.db_cleanup_regular (Examples.at_hour 11)
       [PokestopExamples.stop None None (Some (Examples.at_hour 10))
                              (Some 501)])
    [] Examples.noon Examples.noon Examples.noon 0
    (Some 1%Q) (Some 1%Q) (Some 3%Q) (Some 3%Q) None None None None
    0 true true true true
  = Pokestop.get_pokestops
      [PokestopExamples.stop None None (Some (Examples.at_hour 10))
                             (Some 501)]
      [] Examples.noon Examples.noon Examples.noon 0
      (Some 1%Q) (Some 1%Q) (Some 3%Q) (Some 3%Q) None None None None
      0 true true true true.
Proof.
  apply (cleanup_invisible_to_pokestops
           [PokestopExamples.stop None None (Some (Examples.at_hour 10))
                                  (Some 501)]
           [] (Examples.at_hour 11) Examples.noon Examples.noon
           Examples.noon).
  - vm_compute. discriminate.
  - vm_compute. discriminate.
Defined.

(** ** Gyms *)

Module GymFacts.

Import Gym.

Lemma outerjoin_snd {A B} (on : A -> B -> bool) l r a b :
  In (a, Some b) (SQL.outerjoin on l r) -> In b r /\ on a b = true.
Proof.
  unfold SQL.outerjoin. rewrite in_flat_map. intros (a' & _ & Hx).
  destruct (List.filter (on a') r) as [|b' ms] eqn:Hf.
  - destruct Hx as [[=]|[]].
  - apply in_map_iff in Hx as (b0 & [= <- <-] & Hb0).
    rewrite <- Hf in Hb0. by apply filter_In in Hb0.
Qed.

Lemma gym_filter_spec sw sg ne ng osw osg one ong ts g :
  SQL.holds (SQL.all_ (mode_filter sw sg ne ng osw osg one ong ts g))
  = viewport_diff latitude longitude
      (mode_of (box_of sw sg ne ng) (box_of osw osg one ong) ts)
      (box_of sw sg ne ng) (box_of osw osg one ong)
      (GymView.scanned ts) (fun _ => true) g.
Proof.
  unfold mode_filter, mode_of, select_mode.
  destruct (box_of_cases sw sg ne ng)
    as [[-> (b & -> & -> & -> & -> & ->)]|[-> ->]]; simpl; [|done].
  destruct (0 <? ts); simpl.
  { rewrite holds_all_cons, PokemonFacts.holds_gt_dt_Some.
    fold (in_box (latitude g) (longitude g) (Some (south b))
                 (Some (west b)) (Some (north b)) (Some (east b))).
    rewrite holds_in_box. unfold GymView.scanned.
    by destruct (dt_lt _ _), (contains _ _ _). }
  destruct (box_of_cases osw osg one ong)
    as [[-> (b' & -> & -> & -> & -> & ->)]|[-> ->]]; simpl.
  - change (SQL.ge_q _ _ :: _ :: _ :: _ :: ?l) with
      (in_box (latitude g) (longitude g) (Some (south b))
              (Some (west b)) (Some (north b)) (Some (east b)) ++ l).
    rewrite holds_all_app, holds_in_box, holds_all_one, holds_not_in_box.
    by destruct (contains b _ _), (contains b' _ _).
  - rewrite holds_in_box. by destruct (contains _ _ _).
Qed.

Lemma result_rows_fst gym raid_table utcnow
    sw sg ne ng osw osg one ong ts raids r :
  In r (result_rows gym raid_table utcnow sw sg ne ng osw osg one ong ts
                    raids) ->
  In r.1 gym
  /\ viewport_diff latitude longitude
       (mode_of (box_of sw sg ne ng) (box_of osw osg one ong) ts)
       (box_of sw sg ne ng) (box_of osw osg one ong)
       (GymView.scanned ts) (fun _ => true) r.1 = true
  /\ (forall raid, r.2 = Some raid ->
        raids = true /\ In raid raid_table
        /\ Raid.gym_id raid = gym_id r.1
        /\ dt_lt utcnow (Raid.end_ raid) = true).
Proof.
  unfold result_rows, SQL.filter. intros Hr.
  apply filter_In in Hr as [Hr Hc]. rewrite gym_filter_spec in Hc.
  destruct raids.
  - split; [by apply outerjoin_fst in Hr|]. split; [done|].
    intros raid Heq. destruct r as [g o]. simpl in *. subst o.
    apply outerjoin_snd in Hr as [Hin Hon].
    apply andb_true_iff in Hon as [Hid Hend].
    apply String.eqb_eq in Hid. done.
  - apply in_map_iff in Hr as (g & <- & Hg). by repeat split.
Qed.

Lemma gym_details_Some gymdetails g d :
  gym_details gymdetails g = Some d ->
  In d gymdetails /\ GymDetails.gym_id d = gym_id g.
Proof.
  unfold gym_details. intros Hf. apply find_some in Hf as [Hin Heq].
  by apply String.eqb_eq in Heq.
Qed.

Lemma orm_to_dict_id g od :
  orm_to_dict g od !! "gym_id"%string = Some (Scalar (VStr (gym_id g)))
  /\ orm_to_dict g od !! "latitude"%string
     = Some (Scalar (VFloat (latitude g)))
  /\ orm_to_dict g od !! "longitude"%string
     = Some (Scalar (VFloat (longitude g))).
Proof. by destruct od; vm_compute. Qed.

(** The record of a gym that has its details. *)
Lemma gym_emit_fields gymdetails raids r d :
  gym_details gymdetails r.1 = Some d ->
  exists rec,
    emit gymdetails raids r = inr rec
    /\ rec !! "gym_id"%string = Some (Scalar (VStr (gym_id r.1)))
    /\ rec !! "latitude"%string = Some (Scalar (VFloat (latitude r.1)))
    /\ rec !! "longitude"%string = Some (Scalar (VFloat (longitude r.1)))
    /\ rec !! "name"%string = Some (Scalar (VStr (GymDetails.name d)))
    /\ rec !! "url"%string = Some (Scalar (VStr (GymDetails.url d)))
    /\ rec !! "gym_details"%string = None
    /\ rec !! "raid"%string
       = Some (match (if raids then r.2 else None) with
               | Some raid => Dict (Raid.orm_to_dict raid)
               | None => Scalar VNone
               end).
Proof.
  intros Hd. unfold emit. rewrite Hd.
  destruct (orm_to_dict_id r.1 (Some d)) as (Hid & Hlat & Hlng).
  set (D := orm_to_dict r.1 (Some d)) in *.
  eexists. split; [done|].
  destruct (if raids then r.2 else None);
    repeat split;
    repeat first
      [ rewrite lookup_insert_eq
      | rewrite lookup_insert_ne by discriminate
      | rewrite lookup_delete_eq
      | rewrite lookup_delete_ne by discriminate ];
    done.
Qed.

Lemma emit_fails gymdetails raids r :
  gym_details gymdetails r.1 = None ->
  emit gymdetails raids r = inl AttributeError.
Proof. intros Hd. unfold emit. by rewrite Hd. Qed.

Lemma store_all_fail gymdetails raids rows gyms :
  (exists r, In r rows /\ gym_details gymdetails r.1 = None) ->
  store_all gymdetails raids rows gyms = inl AttributeError.
Proof.
  revert gyms. induction rows as [|r rows IH]; intros gyms (r0 & Hin & Hd).
  - destruct Hin.
  - simpl. destruct (emit gymdetails raids r) as [[]|rec] eqn:He; [done|].
    apply IH. destruct Hin as [->|Hin]; [|by exists r0].
    by rewrite (emit_fails _ _ _ Hd) in He.
Qed.

Lemma store_all_ok gymdetails raids rows gyms :
  (forall r, In r rows -> is_Some (gym_details gymdetails r.1)) ->
  exists out,
    store_all gymdetails raids rows gyms = inr out
    /\ dom out = dom gyms ∪ list_to_set (map (fun r => gym_id r.1) rows).
Proof.
  revert gyms. induction rows as [|r rows IH]; intros gyms Hall.
  - exists gyms. split; [done|]. simpl. by rewrite (right_id_L ∅ (∪)).
  - destruct (Hall r (or_introl eq_refl)) as [d Hd].
    destruct (gym_emit_fields gymdetails raids r d Hd) as (rec & He & _).
    destruct (IH (<[gym_id r.1 := rec]> gyms)) as (out & Hout & Hdom).
    { intros r' Hr'. apply Hall. by right. }
    exists out. split; [simpl; by rewrite He|].
    rewrite Hdom, dom_insert_L. simpl.
    rewrite (comm_L (∪) {[gym_id r.1]} (dom gyms)).
    by rewrite <- (assoc_L (∪)).
Qed.

Lemma store_all_lookup gymdetails raids rows gyms out id rec :
  store_all gymdetails raids rows gyms = inr out ->
  out !! id = Some rec ->
  gyms !! id = Some rec
  \/ exists r, In r rows /\ gym_id r.1 = id
               /\ emit gymdetails raids r = inr rec.
Proof.
  revert gyms. induction rows as [|r rows IH]; intros gyms; simpl.
  - intros [= <-] Hl. by left.
  - destruct (emit gymdetails raids r) as [e|d] eqn:He; [done|].
    intros Hs Hl. destruct (IH _ Hs Hl) as [Hg|(r' & Hr' & Hid & Hrec)].
    + destruct (decide (gym_id r.1 = id)) as [Heq|Hne].
      * subst id. rewrite lookup_insert_eq in Hg. injection Hg as <-.
        right. exists r. by repeat split; [left|..].
      * rewrite lookup_insert_ne in Hg by done. by left.
    + right. exists r'. by repeat split; [right|..].
Qed.

End GymFacts.

(** X13. [Gym.get_gyms] raises [AttributeError] whenever its query selects a
    gym that has no row in [gymdetails] (it reads the name off the missing
    details).  When every selected gym has its details it returns normally,
    and the keys of its dictionary are the ids of the selected gyms. *)
Theorem gyms_need_details
    (gym : list Gym.row) (gymdetails : list GymDetails.row)
    (raid_table : list Raid.row) (utcnow : datetime)
    (swLat swLng neLat neLng oSwLat oSwLng oNeLat oNeLng : option Q)
    (timestamp : Z) (raids : bool) :
  let rows :=
    Gym.result_rows gym raid_table utcnow
      swLat swLng neLat neLng oSwLat oSwLng oNeLat oNeLng timestamp raids in
  let result :=
    Gym.get_gyms gym gymdetails raid_table utcnow
      swLat swLng neLat neLng oSwLat oSwLng oNeLat oNeLng timestamp raids in
  ((exists r, In r rows /\ Gym.gym_details gymdetails r.1 = None) ->
   result = inl Gym.AttributeError)
  /\ ((forall r, In r rows -> is_Some (Gym.gym_details gymdetails r.1)) ->
      exists gyms,
        result = inr gyms
        /\ dom gyms = list_to_set (map (fun r => Gym.gym_id r.1) rows)).
Proof.
  cbv zeta. unfold Gym.get_gyms. split.
  - apply GymFacts.store_all_fail.
  - intros Hall.
    destruct (GymFacts.store_all_ok gymdetails raids _ ∅ Hall)
      as (out & Hout & Hdom).
    exists out. split; [done|].
    by rewrite Hdom, dom_empty_L, (left_id_L ∅ (∪)).
Qed.

Lemma gyms_need_details_witness :
  Gym.get_gyms [GymExamples.tower; GymExamples.nameless]
    [GymExamples.tower_details] [GymExamples.tower_raid] Examples.noon
    None None None None None None None None 0 true
  = inl Gym.AttributeError
  /\ exists gyms,
       Gym.get_gyms [GymExamples.tower]
         [GymExamples.tower_details] [GymExamples.tower_raid] Examples.noon
         None None None None None None None None 0 true
       = inr gyms
       /\ dom gyms
          = list_to_set
              (map (fun r => Gym.gym_id r.1)
                 (Gym.result_rows [GymExamples.tower]
                    [GymExamples.tower_raid] Examples.noon
                    None None None None None None None None 0 true)).
Proof.
  split.
  - apply (proj1 (gyms_need_details
                    [GymExamples.tower; GymExamples.nameless]
                    [GymExamples.tower_details] [GymExamples.tower_raid]
                    Examples.noon
                    None None None None None None None None 0 true)).
    exists (GymExamples.nameless, None). split; [|reflexivity].
    vm_compute. right. left. reflexivity.
  - apply (proj2 (gyms_need_details
                    [GymExamples.tower]
                    [GymExamples.tower_details] [GymExamples.tower_raid]
                    Examples.noon
                    None None None None None None None None 0 true)).
    intros r Hr. vm_compute in Hr. destruct Hr as [<-|[]].
    vm_compute. eexists. reflexivity.
Defined.

(** X14. Every record [Gym.get_gyms] returns stands for a stored gym with
    the key as its id, selected by the sync mode (inside the box when one is
    detected), and carries the name and url of that gym's details row and no
    [gym_details] entry.  Its [raid] entry is the stored raid of that gym,
    and then that raid ends after [utcnow], or it is null; it is always null
    when raids are not asked for. *)
Theorem gym_records
    (gym : list Gym.row) (gymdetails : list GymDetails.row)
    (raid_table : list Raid.row) (utcnow : datetime)
    (swLat swLng neLat neLng oSwLat oSwLng oNeLat oNeLng : option Q)
    (timestamp : Z) (raids : bool)
    (gyms : gmap string (gmap string value))
    (id : string) (rec : gmap string value) :
  Gym.get_gyms gym gymdetails raid_table utcnow
    swLat swLng neLat neLng oSwLat oSwLng oNeLat oNeLng timestamp raids
  = inr gyms ->
  gyms !! id = Some rec ->
  exists g d,
    In g gym /\ Gym.gym_id g = id
    /\ In d gymdetails /\ GymDetails.gym_id d = id
    /\ rec !! "gym_id"%string = Some (Scalar (VStr id))
    /\ rec !! "name"%string = Some (Scalar (VStr (GymDetails.name d)))
    /\ rec !! "url"%string = Some (Scalar (VStr (GymDetails.url d)))
    /\ rec !! "gym_details"%string = None
    /\ (forall b, box_of swLat swLng neLat neLng = Some b ->
          contains b (Gym.latitude g) (Gym.longitude g) = true)
    /\ (rec !! "raid"%string = Some (Scalar VNone)
        \/ exists raid,
             raids = true /\ In raid raid_table
             /\ Raid.gym_id raid = id
             /\ dt_lt utcnow (Raid.end_ raid) = true
             /\ rec !! "raid"%string = Some (Dict (Raid.orm_to_dict raid))).
Proof.
  unfold Gym.get_gyms. intros Hres Hrec.
  destruct (GymFacts.store_all_lookup _ _ _ _ _ _ _ Hres Hrec)
    as [Hemp|(r & Hr & Hid & Hemit)]; [by rewrite lookup_empty in Hemp|].
  apply GymFacts.result_rows_fst in Hr as (Hg & Hmode & Hraid).
  destruct (Gym.gym_details gymdetails r.1) as [d|] eqn:Hd;
    [|by rewrite (GymFacts.emit_fails _ _ _ Hd) in Hemit].
  destruct (GymFacts.gym_emit_fields gymdetails raids r d Hd)
    as (rec' & He & Hgid & _ & _ & Hname & Hurl & Hgd & Hrd).
  rewrite He in Hemit. injection Hemit as ->.
  destruct (GymFacts.gym_details_Some _ _ _ Hd) as [Hdin Hdid].
  exists r.1, d. rewrite Hgid, Hname, Hurl, Hgd, Hrd, Hdid, Hid.
  do 8 (split; [done|]). split.
  - intros b Hb. rewrite Hb in Hmode. unfold mode_of, select_mode in Hmode.
    simpl in Hmode. destruct (0 <? timestamp); simpl in Hmode.
    + apply andb_true_iff in Hmode as [Hmode _].
      by apply andb_true_iff in Hmode as [Hmode _].
    + destruct (bool_decide _); simpl in Hmode.
      * apply andb_true_iff in Hmode as [Hmode _].
        by apply andb_true_iff in Hmode as [Hmode _].
      * by apply andb_true_iff in Hmode as [Hmode _].
  - destruct raids; [|by left].
    destruct r.2 as [raid|] eqn:Hr2; [|by left].
    right. exists raid. destruct (Hraid raid eq_refl) as (_ & Hin & Hrid & Hend).
    rewrite <- Hid. done.
Qed.

Lemma gym_records_witness :
  exists g d,
    In g [GymExamples.tower] /\ Gym.gym_id g = "g1"%string
    /\ In d [GymExamples.tower_details]
    /\ GymDetails.gym_id d = "g1"%string
    /\ GymExamples.tower_record !! "gym_id"%string
       = Some (Scalar (VStr "g1"))
    /\ GymExamples.tower_record !! "name"%string
       = Some (Scalar (VStr (GymDetails.name d)))
    /\ GymExamples.tower_record !! "url"%string
       = Some (Scalar (VStr (GymDetails.url d)))
    /\ GymExamples.tower_record !! "gym_details"%string = None
    /\ (forall b,
          box_of (Some 1%Q) (Some 1%Q) (Some 3%Q) (Some 3%Q) = Some b ->
          contains b (Gym.latitude g) (Gym.longitude g) = true)
    /\ (GymExamples.tower_record !! "raid"%string = Some (Scalar VNone)
        \/ exists raid,
             true = true /\ In raid [GymExamples.tower_raid]
             /\ Raid.gym_id raid = "g1"%string
             /\ dt_lt Examples.noon (Raid.end_ raid) = true
             /\ GymExamples.tower_record !! "raid"%string
                = Some (Dict (Raid.orm_to_dict raid))).
Proof.
  apply (gym_records [GymExamples.tower] [GymExamples.tower_details]
           [GymExamples.tower_raid] Examples.noon
           (Some 1%Q) (Some 1%Q) (Some 3%Q) (Some 3%Q)
           None None None None 0 true
           {[ "g1"%string := GymExamples.tower_record ]}).
  - vm_cast_no_check
      (@eq_refl (Gym.exn + gmap string (gmap string value))
         (inr {[ "g1"%string := GymExamples.tower_record ]})).
  - apply lookup_singleton_eq.
Defined.

(** ** Schema versioning *)


Module SchemaFacts.

Import Schema.

Lemma table_exists_mk tbls rows :
  tablename ∈ tbls -> table_exists (mk tbls rows) = true.
Proof. intros H. unfold table_exists. simpl. by apply bool_decide_eq_true. Qed.

Lemma table_exists_in db : table_exists db = true <-> tablename ∈ tables db.
Proof. unfold table_exists. apply bool_decide_eq_true. Qed.

(** Without the [rmversion] table the check creates it, records the
    version and drops the table of the earlier name. *)
Lemma verify_fresh db :
  table_exists db = false ->
  verify_database_schema db
  = Return tt (mk ((tables db ∪ {[tablename]}) ∖ {["rmversions"%string]})
                  {[ "schema_version"%string := Some 0 ]}).
Proof.
  intros Hex. unfold verify_database_schema. rewrite Hex. simpl.
  unfold database_migrate, get.
  rewrite table_exists_mk
    by (apply elem_of_union_r; by apply elem_of_singleton).
  simpl. rewrite lookup_insert_eq. simpl.
  unfold drop_table. simpl. by rewrite insert_insert_eq.
Qed.

(** With a recorded version below the code's the check migrates. *)
Lemma verify_older db v :
  table_exists db = true ->
  rmversion db !! "schema_version"%string = Some (Some v) ->
  v < db_schema_version ->
  verify_database_schema db
  = Return tt (mk (tables db ∖ {["rmversions"%string]})
                  (<["schema_version"%string := Some 0]> (rmversion db))).
Proof.
  intros Hex Hv Hlt. unfold verify_database_schema, get. rewrite Hex, Hv.
  simpl. assert ((v <? db_schema_version) = true) as -> by lia.
  unfold database_migrate, get. rewrite Hex, Hv.
  assert ((v <? 1) = true) as -> by (unfold db_schema_version in Hlt; lia).
  done.
Qed.

(** At the current version the check returns and leaves the database as it
    is. *)
Lemma verify_current db :
  stored_version db = Some 0 ->
  verify_database_schema db = Return tt db.
Proof.
  unfold stored_version, verify_database_schema, get.
  destruct (table_exists db); [|done]. simpl.
  destruct (rmversion db !! "schema_version"%string) as [[v|]|]; try done.
  by intros [= ->].
Qed.

Lemma stored_version_migrated tbls rows :
  tablename ∈ tbls ->
  stored_version
    (mk (tbls ∖ {["rmversions"%string]})
        (<["schema_version"%string := Some 0]> rows))
  = Some 0.
Proof.
  intros Hin. unfold stored_version.
  rewrite table_exists_mk.
  - simpl. by rewrite lookup_insert_eq.
  - rewrite elem_of_difference, elem_of_singleton. by split.
Qed.

(** Every normal return of the check leaves the current version. *)
Lemma verify_return db db' :
  verify_database_schema db = Return tt db' ->
  stored_version db' = Some 0.
Proof.
  destruct (table_exists db) eqn:Hex.
  - destruct (rmversion db !! "schema_version"%string) as [[v|]|] eqn:Hv.
    + destruct (Z.lt_trichotomy v 0) as [Hlt|[->|Hgt]].
      * rewrite (verify_older db v Hex Hv Hlt). intros [= <-].
        apply stored_version_migrated. by apply table_exists_in.
      * assert (stored_version db = Some 0) as Hs
          by (unfold stored_version; by rewrite Hex, Hv).
        rewrite (verify_current db Hs). by intros [= <-].
      * unfold verify_database_schema, get. rewrite Hex, Hv. simpl.
        unfold db_schema_version.
        assert ((v <? 0) = false) as -> by lia.
        by assert ((0 <? v) = true) as -> by lia.
    + unfold verify_database_schema, get. by rewrite Hex, Hv.
    + unfold verify_database_schema, get. by rewrite Hex, Hv.
  - rewrite (verify_fresh db Hex). intros [= <-].
    replace ({[ "schema_version"%string := Some 0 ]}
               : gmap string (option Z))
      with (<["schema_version"%string := Some 0]>
              (∅ : gmap string (option Z))) by done.
    apply stored_version_migrated.
    apply elem_of_union_r. by apply elem_of_singleton.
Qed.

End SchemaFacts.

(** X15. Whenever [verify_database_schema] returns, the database records
    the schema version of the code (0), and a second check returns at once
    and changes nothing. *)
Theorem verified_schema_is_current (db db' : Schema.database) :
  Schema.verify_database_schema db = Schema.Return tt db' ->
  Schema.stored_version db' = Some Schema.db_schema_version
  /\ Schema.verify_database_schema db' = Schema.Return tt db'.
Proof.
  intros H. apply SchemaFacts.verify_return in H.
  split; [done|]. by apply SchemaFacts.verify_current.
Qed.

Lemma verified_schema_is_current_witness :
  Schema.stored_version SchemaExamples.migrated
  = Some Schema.db_schema_version
  /\ Schema.verify_database_schema SchemaExamples.migrated
     = Schema.Return tt SchemaExamples.migrated.
Proof.
  apply (verified_schema_is_current SchemaExamples.legacy).
  vm_compute. reflexivity.
Defined.

(** X16. [verify_database_schema] leaves through [sys.exit] exactly when
    the [rmversion] table records a version above the code's; the exit code
    is then 1 and the database is untouched.  A failed migration is never
    the cause, as [database_migrate] never returns false. *)
Theorem exit_iff_newer_schema
    (db db' : Schema.database) (code : Z) :
  Schema.verify_database_schema db = Schema.Exit code db'
  <-> (code = 1 /\ db' = db
       /\ exists v, Schema.stored_version db = Some v
                    /\ Schema.db_schema_version < v).
Proof.
  destruct (Schema.table_exists db) eqn:Hex.
  - destruct (Schema.rmversion db !! "schema_version"%string)
      as [[v|]|] eqn:Hv.
    + assert (Schema.stored_version db = Some v) as Hs
        by (unfold Schema.stored_version; by rewrite Hex, Hv).
      rewrite Hs.
      destruct (Z.lt_trichotomy v 0) as [Hlt|[->|Hgt]].
      * rewrite (SchemaFacts.verify_older db v Hex Hv Hlt).
        split; [done|]. intros (_ & _ & v' & [= <-] & Hgt).
        unfold Schema.db_schema_version in Hgt. lia.
      * rewrite (SchemaFacts.verify_current db Hs).
        split; [done|]. intros (_ & _ & v' & [= <-] & Hgt).
        unfold Schema.db_schema_version in Hgt. lia.
      * unfold Schema.verify_database_schema, Schema.get.
        rewrite Hex, Hv. simpl. unfold Schema.db_schema_version.
        assert ((v <? 0) = false) as -> by lia.
        assert ((0 <? v) = true) as -> by lia.
        split.
        -- intros [= <- <-]. repeat split. by exists v.
        -- by intros (-> & -> & _).
    + unfold Schema.verify_database_schema, Schema.get,
        Schema.stored_version. rewrite Hex, Hv. simpl.
      split; [done|]. by intros (_ & _ & v' & [=] & _).
    + unfold Schema.verify_database_schema, Schema.get,
        Schema.stored_version. rewrite Hex, Hv. simpl.
      split; [done|]. by intros (_ & _ & v' & [=] & _).
  - rewrite (SchemaFacts.verify_fresh db Hex).
    unfold Schema.stored_version. rewrite Hex.
    split; [done|]. by intros (_ & _ & v' & [=] & _).
Qed.

(** X17. Dropping the tables is a way out of every state, as the error
    message advises: after [drop_rm_tables] the check returns, with the
    [rmversion] table present and holding the one row
    [schema_version = 0], the table [rmversions] gone and every other table
    as it was. *)
Theorem drop_then_verify (db : Schema.database) :
  exists db',
    Schema.verify_database_schema (Schema.drop_rm_tables db)
    = Schema.Return tt db'
    /\ Schema.rmversion db' = {[ "schema_version"%string := Some 0 ]}
    /\ forall t : string,
         t ∈ Schema.tables db'
         <-> t = "rmversion"%string
             \/ (t ∈ Schema.tables db /\ t <> "rmversions"%string).
Proof.
  assert (Schema.table_exists (Schema.drop_rm_tables db) = false) as Hne.
  { unfold Schema.drop_rm_tables.
    destruct (Schema.table_exists db) eqn:Hex; [|done].
    unfold Schema.table_exists, Schema.drop. simpl.
    apply bool_decide_eq_false. rewrite elem_of_difference, elem_of_singleton.
    by intros [_ H]. }
  assert (forall t, t ∈ Schema.tables (Schema.drop_rm_tables db)
                    <-> t ∈ Schema.tables db /\ t <> Schema.tablename) as Ht.
  { intros t. unfold Schema.drop_rm_tables.
    destruct (Schema.table_exists db) eqn:Hex.
    - unfold Schema.drop. simpl.
      by rewrite elem_of_difference, elem_of_singleton.
    - unfold Schema.table_exists in Hex. apply bool_decide_eq_false in Hex.
      split; [|by intros [? _]]. intros Hin. split; [done|].
      by intros ->. }
  eexists. split; [apply (SchemaFacts.verify_fresh _ Hne)|].
  simpl. split; [done|].
  intros t. rewrite elem_of_difference, elem_of_union, !elem_of_singleton.
  rewrite Ht. unfold Schema.tablename.
  split.
  - intros [[[Hin _]| ->] Hne']; [right|left]; done.
  - intros [->|[Hin Hne']]; [by split; [right|]|].
    split; [|done].
    destruct (decide (t = "rmversion"%string)) as [->|Hd];
      [by right|by left].
Qed.

(** ** Spawn points *)

Module SpawnRecordFacts.

Import TrsSpawnRow TrsSpawn TrsSpawnView.

Lemma holds_or a b : SQL.holds (SQL.or_ a b) = SQL.holds a || SQL.holds b.
Proof. by destruct a as [[]|], b as [[]|]. Qed.

Lemma holds_after ts d :
  SQL.holds (SQL.gt_dt d (Some (utcfromtimestamp_ms ts))) = after ts d.
Proof.
  destruct d as [d|]; [|done]. unfold SQL.gt_dt, SQL.cmp, after.
  by destruct (dt_lt _ d).
Qed.

Lemma spawn_filter_spec sw sg ne ng osw osg one ong ts r :
  SQL.holds (SQL.all_ (mode_filter sw sg ne ng osw osg one ong ts r))
  = viewport_diff latitude longitude
      (mode_of (box_of sw sg ne ng) (box_of osw osg one ong) ts)
      (box_of sw sg ne ng) (box_of osw osg one ong)
      (changed ts) (fun _ => true) r.
Proof.
  unfold mode_filter, mode_of, select_mode.
  destruct (box_of_cases sw sg ne ng)
    as [[-> (b & -> & -> & -> & -> & ->)]|[-> ->]]; simpl; [|done].
  destruct (0 <? ts); simpl.
  { rewrite holds_all_cons, holds_or, !holds_after.
    fold (in_box (latitude r) (longitude r) (Some (south b))
                 (Some (west b)) (Some (north b)) (Some (east b))).
    rewrite holds_in_box. unfold changed.
    by destruct (after ts (last_scanned r)),
      (after ts (last_non_scanned r)), (contains _ _ _). }
  destruct (box_of_cases osw osg one ong)
    as [[-> (b' & -> & -> & -> & -> & ->)]|[-> ->]]; simpl.
  - change (SQL.ge_q _ _ :: _ :: _ :: _ :: ?l) with
      (in_box (latitude r) (longitude r) (Some (south b))
              (Some (west b)) (Some (north b)) (Some (east b)) ++ l).
    rewrite holds_all_app, holds_in_box, holds_all_one, holds_not_in_box.
    by destruct (contains b _ _), (contains b' _ _).
  - rewrite holds_in_box. by destruct (contains _ _ _).
Qed.

Lemma asdict_identity r :
  asdict r !! "spawnpoint_id"%string = Some (VStr (spawnpoint r))
  /\ asdict r !! "latitude"%string = Some (VFloat (latitude r))
  /\ asdict r !! "longitude"%string = Some (VFloat (longitude r))
  /\ asdict r !! "first_detection"%string
     = Some (VDatetime (first_detection r)).
Proof. by vm_compute. Qed.

(** Whatever the fragment and the clock: if the loop body returns, its
    record stands for the row. *)
Lemma emit_stands_for clock utc_offset r n sp n' :
  emit clock utc_offset (asdict r) n = inr (sp, n') -> stands_for r sp.
Proof.
  destruct (asdict_identity r) as (Hid & Hlat & Hlng & Hfd).
  destruct (TrsSpawnFacts.asdict_fields r) as (He & Hdef & Hd & Hs).
  unfold emit, stands_for.
  rewrite TrsSpawnFacts.shift_lookup_ne, He by discriminate.
  destruct (calc_endminsec r) as [s|]; cbn [opt].
  - unfold mbind, M_bind, lift, today, mret, M_ret, raise.
    destruct (PyStr.split ":" s !! 1%nat) as [s1|]; [|done].
    destruct (PyStr.int s1) as [se|]; [|done].
    destruct (PyStr.split ":" s !! 0%nat) as [s0|]; [|done].
    destruct (PyStr.int s0) as [mi|]; [|done].
    destruct (fits_int mi && fits_int se); [|done].
    destruct (replace (clock n) mi se 0) as [t|]; [|done].
    intros [= <- <-].
    rewrite lookup_insert_ne, !TrsSpawnFacts.shift_lookup_ne, Hdef
      by discriminate.
    rewrite TrsSpawnFacts.match_fifteen.
    repeat split.
    + by rewrite lookup_delete_ne, !lookup_insert_ne,
        !TrsSpawnFacts.shift_lookup_ne by discriminate.
    + by rewrite lookup_delete_ne, !lookup_insert_ne,
        !TrsSpawnFacts.shift_lookup_ne by discriminate.
    + by rewrite lookup_delete_ne, !lookup_insert_ne,
        !TrsSpawnFacts.shift_lookup_ne by discriminate.
    + by rewrite lookup_delete_ne, !lookup_insert_ne,
        !TrsSpawnFacts.shift_lookup_ne by discriminate.
    + apply lookup_delete_eq.
    + eexists. split.
      * rewrite lookup_delete_ne, lookup_insert_ne, lookup_insert_eq
          by discriminate. reflexivity.
      * rewrite lookup_delete_ne, lookup_insert_eq by discriminate.
        by destruct (spawndef r =? 15).
  - intros [= <- <-].
    rewrite !TrsSpawnFacts.shift_lookup_ne by discriminate.
    by repeat split.
Qed.

Lemma emit_all_stands_for clock utc_offset rows n sps n' :
  emit_all clock utc_offset (map asdict rows) n = inr (sps, n') ->
  Forall2 stands_for rows sps.
Proof.
  revert n sps. induction rows as [|r rows IH]; intros n sps.
  - intros [= <- _]. constructor.
  - cbn [map emit_all]. unfold mbind, M_bind.
    destruct (emit clock utc_offset (asdict r) n) as [e|[sp n1]] eqn:Hsp;
      [done|].
    destruct (emit_all clock utc_offset (map asdict rows) n1)
      as [e|[rest n2]] eqn:Hrest; [done|].
    intros [= <- <-]. constructor.
    + by apply (emit_stands_for clock utc_offset r n sp n1).
    + by apply (IH n1).
Qed.

End SpawnRecordFacts.

(** X18. Whenever [TrsSpawn.get_spawnpoints] returns, its list has exactly
    one record per row the sync mode selects (in the delta mode: the rows in
    the box scanned, with or without a sighting, after the timestamp), in
    the order of the table.  Each record keeps the row's id, position and
    first detection as stored; for a row without a fragment it carries the
    null [end_time] and no inferred time, for a row with one it carries no
    [end_time] but both [despawn_time] and [spawn_time], the latter one hour
    (spawndef 15) or thirty minutes before the former. *)
Theorem spawnpoint_records
    (trs_spawn : list TrsSpawnRow.row) (clock : nat -> datetime)
    (utc_offset : timedelta)
    (swLat swLng neLat neLng oSwLat oSwLng oNeLat oNeLng : option Q)
    (timestamp : Z) (spawnpoints : list (gmap string scalar)) :
  TrsSpawn.get_spawnpoints trs_spawn clock utc_offset
    swLat swLng neLat neLng oSwLat oSwLng oNeLat oNeLng timestamp
  = inr spawnpoints ->
  Forall2 TrsSpawnView.stands_for
    (TrsSpawnView.selected trs_spawn
       swLat swLng neLat neLng oSwLat oSwLng oNeLat oNeLng timestamp)
    spawnpoints.
Proof.
  unfold TrsSpawn.get_spawnpoints, TrsSpawnView.selected, SQL.filter.
  rewrite (List.filter_ext _ _
             (SpawnRecordFacts.spawn_filter_spec swLat swLng neLat neLng
                oSwLat oSwLng oNeLat oNeLng timestamp)).
  destruct (TrsSpawn.emit_all _ _ _ _) as [e|[sps n']] eqn:Hall; [done|].
  intros [= <-].
  by apply (SpawnRecordFacts.emit_all_stands_for clock utc_offset _ 0%nat
              sps n').
Qed.

Lemma spawnpoint_records_witness :
  Forall2 TrsSpawnView.stands_for
    (TrsSpawnView.selected SpawnRecordExamples.table
       (Some 1%Q) (Some 1%Q) (Some 3%Q) (Some 3%Q) None None None None 0)
    SpawnRecordExamples.records.
Proof.
  apply (spawnpoint_records SpawnRecordExamples.table
           (fun _ => Examples.noon) (hours 2)).
  vm_cast_no_check
    (@eq_refl (TrsSpawn.exn + list (gmap string scalar))
       (inr SpawnRecordExamples.records)).
Defined.
